(** * DMV appointment monitor: a shallow embedding and its properties

    The development follows the three source files of the repository:
    [database.py] (the SQLite store), [monitor_service.py] (the monitor:
    navigation, slot extraction, notification dispatch) and [api.py]
    (the push helper and the endpoints that work on the store).

    Data is kept as the code has it: Python [str] as [string], Python
    [int] as [Z], lists as [list], dictionaries as association lists in
    insertion order, table rows as records.  The browser, the push
    gateway and the clock are an explicit environment whose answers may
    depend on everything that happened before (the trace); every
    function that talks to them threads the trace and may raise. *)

From Stdlib Require Import String Ascii List ZArith Lia Bool Arith PeanoNat.
From Stdlib Require Import DecimalString.
From Stdlib Require Import Sorted Permutation.
From Stdlib Require OrderedTypeEx.
Import ListNotations.
Local Open Scope string_scope.
Local Open Scope list_scope.

(** ** Python built-ins used by the sources *)

Module Py.

(** [needle in hay] on [str]. *)
Fixpoint str_in (needle hay : string) : bool :=
  if String.prefix needle hay then true
  else match hay with
       | EmptyString => false
       | String _ rest => str_in needle rest
       end.

(** [s.startswith(("#", ".", "["))]. *)
Definition startswith_any (prefixes : list string) (s : string) : bool :=
  existsb (fun p => String.prefix p s) prefixes.

(** [sep.join(parts)]. *)
Fixpoint join (sep : string) (parts : list string) : string :=
  match parts with
  | [] => ""
  | [p] => p
  | p :: rest => p ++ sep ++ join sep rest
  end.

(** [str(n)] and [f"{n}"] for a non-negative [int]. *)
Definition str_of_nat (n : nat) : string :=
  NilZero.string_of_uint (Nat.to_uint n).

(** [str(z)] for an [int]. *)
Definition str_of_Z (z : Z) : string :=
  NilZero.string_of_int (Z.to_int z).

(** [x in xs] on a list of strings. *)
Definition list_in (x : string) (xs : list string) : bool :=
  existsb (String.eqb x) xs.

(** [range(n)] for an [int] [n]: empty when [n <= 0]. *)
Definition range (n : Z) : list Z :=
  map Z.of_nat (seq 0 (Z.to_nat n)).

Definition newline : string := String (ascii_of_nat 10) "".

(** The text of a [str] is kept as its UTF-8 bytes. *)
Definition utf8 (bytes : list nat) : string :=
  fold_right (fun b s => String (ascii_of_nat b) s) EmptyString bytes.

(** The characters [str.isspace] accepts, which are those [str.strip()]
    removes: the ASCII ones (tab to carriage return, the four separators,
    the space) and U+0085, U+00A0, U+1680, U+2000 to U+200A, U+2028,
    U+2029, U+202F, U+205F and U+3000. *)
Definition whitespace : list string :=
  map (fun b => utf8 [b]) [9; 10; 11; 12; 13; 28; 29; 30; 31; 32]%nat
  ++ [utf8 [194; 133]; utf8 [194; 160]; utf8 [225; 154; 128]]%nat
  ++ map (fun b => utf8 [226; 128; b])
         [128; 129; 130; 131; 132; 133; 134; 135; 136; 137; 138;
          168; 169; 175]%nat
  ++ [utf8 [226; 129; 159]; utf8 [227; 128; 128]]%nat.

(** What follows the prefix [p] of [s], if [s] starts with [p]. *)
Fixpoint drop_prefix (p s : string) : option string :=
  match p, s with
  | EmptyString, _ => Some s
  | String a p', String b s' =>
      if Ascii.eqb a b then drop_prefix p' s' else None
  | String _ _, EmptyString => None
  end.

(** What follows the first character of [s], if that is white space. *)
Definition after_space (s : string) : option string :=
  fold_right (fun w found => match drop_prefix w s with
                             | Some rest => Some rest
                             | None => found
                             end)
             None whitespace.

Fixpoint lstrip_from (fuel : nat) (s : string) : string :=
  match fuel with
  | O => s
  | S fuel' =>
      match after_space s with
      | Some rest => lstrip_from fuel' rest
      | None => s
      end
  end.

(** [s.lstrip()] *)
Definition lstrip (s : string) : string := lstrip_from (String.length s) s.

(** [s.rstrip()]: the text up to the point from which only white space
    follows. *)
Fixpoint rstrip (s : string) : string :=
  match s with
  | EmptyString => EmptyString
  | String c rest =>
      if String.eqb (lstrip s) "" then EmptyString else String c (rstrip rest)
  end.

(** [s.strip()] *)
Definition strip (s : string) : string := rstrip (lstrip s).

(** The value of a plain decimal literal with an optional sign.  This is
    what [int(s)] gives on such a text; the example environments use it
    for [int]. *)
Definition decimal_literal (s : string) : option Z :=
  match s with
  | String "-" rest =>
      match NilEmpty.uint_of_string rest with
      | Some u => if (String.length rest =? 0)%nat then None
                  else Some (- Z.of_nat (Nat.of_uint u))%Z
      | None => None
      end
  | String "+" rest =>
      match NilEmpty.uint_of_string rest with
      | Some u => if (String.length rest =? 0)%nat then None
                  else Some (Z.of_nat (Nat.of_uint u))
      | None => None
      end
  | _ =>
      match NilEmpty.uint_of_string s with
      | Some u => if (String.length s =? 0)%nat then None
                  else Some (Z.of_nat (Nat.of_uint u))
      | None => None
      end
  end.

(** A [dict] in insertion order.  [d[k] = v] overwrites in place when the
    key exists and appends otherwise. *)
Definition dict (V : Type) : Type := list (string * V).

Fixpoint dict_set {V} (d : dict V) (k : string) (v : V) : dict V :=
  match d with
  | [] => [(k, v)]
  | (k', v') :: rest =>
      if String.eqb k' k then (k', v) :: rest
      else (k', v') :: dict_set rest k v
  end.

(** [d.update(other)]. *)
Definition dict_update {V} (d other : dict V) : dict V :=
  fold_left (fun acc kv => dict_set acc (fst kv) (snd kv)) other d.

Fixpoint dict_get {V} (d : dict V) (k : string) : option V :=
  match d with
  | [] => None
  | (k', v) :: rest => if String.eqb k' k then Some v else dict_get rest k
  end.

(** [sum(len(times) for times in d.values())]. *)
Definition total_len (d : dict (list string)) : Z :=
  fold_left (fun acc kv => (acc + Z.of_nat (length (snd kv)))%Z) d 0%Z.

End Py.

(** ** Exceptions and results *)

(** The exception classes the monitor distinguishes.  All of them are
    subclasses of [Exception]. *)
Inductive exn : Type :=
| RestartRequiredException
| ServerErrorException
| PlaywrightTimeoutError
| OtherException (what : string).

Inductive result (A : Type) : Type :=
| Ok (a : A)
| Raise (e : exn).
Arguments Ok {A} a.
Arguments Raise {A} e.

Definition is_ok {A} (r : result A) : bool :=
  match r with Ok _ => true | Raise _ => false end.

(** ** Locators and the trace of interactions *)

(** Playwright locators are descriptions of elements, resolved by the
    browser at the moment they are used. *)
Inductive locator : Type :=
| Css (selector : string)                      (* page.locator(sel) *)
| CssHasText (selector text : string)          (* page.locator(sel, has_text=t) *)
| ByText (text : string)                       (* page.get_by_text(t) *)
| First (l : locator)                          (* l.first *)
| Nth (l : locator) (i : Z)                    (* l.nth(i) *)
| Sub (l : locator) (selector : string).       (* l.locator(sel) *)

Inductive wait_state : Type := WaitVisible | WaitHidden | WaitDefault.

(** ** Naive datetimes of the standard library

    [database.py] stores every timestamp as [datetime.now().isoformat()]
    and compares the stored text with [<] in SQL.  The pieces of the
    [datetime] class it relies on are modelled after the library's pure
    Python implementation: the proleptic Gregorian ordinal, the addition
    of a [timedelta], the tuple comparison and [isoformat]. *)

Module Datetime.
Local Open Scope Z_scope.

Record t : Type := mk {
  year : Z; month : Z; day : Z;
  hour : Z; minute : Z; second : Z; microsecond : Z
}.

Definition is_leap (y : Z) : bool :=
  (y mod 4 =? 0) && (negb (y mod 100 =? 0) || (y mod 400 =? 0)).

Definition days_before_year (y : Z) : Z :=
  (y - 1) * 365 + (y - 1) / 4 - (y - 1) / 100 + (y - 1) / 400.

Definition days_in_month (y m : Z) : Z :=
  if (m =? 2) && is_leap y then 29
  else nth (Z.to_nat m) [0; 31; 28; 31; 30; 31; 30; 31; 31; 30; 31; 30; 31] 0.

(** [_DAYS_BEFORE_MONTH] *)
Definition DAYS_BEFORE_MONTH : list Z :=
  [0; 0; 31; 59; 90; 120; 151; 181; 212; 243; 273; 304; 334].

Definition days_before_month (y m : Z) : Z :=
  nth (Z.to_nat m) DAYS_BEFORE_MONTH 0
  + (if (2 <? m) && is_leap y then 1 else 0).

Definition ymd2ord (y m d : Z) : Z :=
  days_before_year y + days_before_month y m + d.

Definition DI400Y : Z := 146097.
Definition DI100Y : Z := 36524.
Definition DI4Y : Z := 1461.
Definition MAXORDINAL : Z := 3652059.

(** The end of [_ord2ymd]: month and day from the day of the year,
    counted from 0. *)
Definition month_and_day (leapyear : bool) (n : Z) : Z * Z :=
  let m := Z.shiftr (n + 50) 5 in
  let preceding :=
    nth (Z.to_nat m) DAYS_BEFORE_MONTH 0
    + (if (2 <? m) && leapyear then 1 else 0) in
  if n <? preceding then
    let m' := m - 1 in
    let preceding' :=
      preceding
      - (nth (Z.to_nat m') [0; 31; 28; 31; 30; 31; 30; 31; 31; 30; 31; 30; 31] 0
         + (if (m' =? 2) && leapyear then 1 else 0)) in
    (m', n - preceding' + 1)
  else (m, n - preceding + 1).

Definition ord2ymd (ordinal : Z) : Z * Z * Z :=
  let n := ordinal - 1 in
  let n400 := n / DI400Y in
  let n := n mod DI400Y in
  let y := n400 * 400 + 1 in
  let n100 := n / DI100Y in
  let n := n mod DI100Y in
  let n4 := n / DI4Y in
  let n := n mod DI4Y in
  let n1 := n / 365 in
  let n := n mod 365 in
  let y := y + n100 * 100 + n4 * 4 + n1 in
  if (n1 =? 4) || (n100 =? 4) then (y - 1, 12, 31)
  else
    let leapyear := (n1 =? 3) && (negb (n4 =? 24) || (n100 =? 3)) in
    let '(m, d) := month_and_day leapyear n in
    (y, m, d).

(** What the constructors check ([_check_date_fields],
    [_check_time_fields]). *)
Definition valid (d : t) : bool :=
  (1 <=? year d) && (year d <=? 9999)
  && (1 <=? month d) && (month d <=? 12)
  && (1 <=? day d) && (day d <=? days_in_month (year d) (month d))
  && (0 <=? hour d) && (hour d <=? 23)
  && (0 <=? minute d) && (minute d <=? 59)
  && (0 <=? second d) && (second d <=? 59)
  && (0 <=? microsecond d) && (microsecond d <=? 999999).

Definition US_PER_SECOND : Z := 1000000.
Definition US_PER_DAY : Z := 86400 * US_PER_SECOND.

(** Microseconds since the start of day 0 of the ordinal count: the
    linear time line behind a naive datetime. *)
Definition to_micros (d : t) : Z :=
  ymd2ord (year d) (month d) (day d) * US_PER_DAY
  + ((hour d * 60 + minute d) * 60 + second d) * US_PER_SECOND
  + microsecond d.

(** The datetime at a position of the time line, as [datetime.__add__]
    builds it from the days and the rest; [None] stands for
    [OverflowError]. *)
Definition of_micros (total : Z) : option t :=
  let days := total / US_PER_DAY in
  let rest := total mod US_PER_DAY in
  let seconds := rest / US_PER_SECOND in
  let us := rest mod US_PER_SECOND in
  if (0 <? days) && (days <=? MAXORDINAL) then
    let '(y, m, dd) := ord2ymd days in
    Some (mk y m dd (seconds / 3600) ((seconds mod 3600) / 60)
             ((seconds mod 3600) mod 60) us)
  else None.

(** [d - timedelta(hours=h)] *)
Definition sub_hours (d : t) (h : Z) : option t :=
  of_micros (to_micros d - h * 3600 * US_PER_SECOND).

(** [d + timedelta(seconds=s)], used to speak about ages. *)
Definition add_seconds (d : t) (s : Z) : option t :=
  of_micros (to_micros d + s * US_PER_SECOND).

(** The comparison of two datetimes is the comparison of their field
    tuples ([_cmp]). *)
Definition fields (d : t) : list Z :=
  [year d; month d; day d; hour d; minute d; second d; microsecond d].

Fixpoint lex_lt (a b : list Z) : bool :=
  match a, b with
  | x :: a', y :: b' => (x <? y) || ((x =? y) && lex_lt a' b')
  | _, _ => false
  end.

Definition lt (a b : t) : bool := lex_lt (fields a) (fields b).

Definition digit (z : Z) : ascii := ascii_of_nat (48 + Z.to_nat z).

Fixpoint digits_fixed (w : nat) (z : Z) : string :=
  match w with
  | O => EmptyString
  | S w' => (digits_fixed w' (z / 10) ++ String (digit (z mod 10)) "")%string
  end.

(** ["%0wd" % z] for a non-negative [z]. *)
Definition fmt_d (w : nat) (z : Z) : string :=
  if z <? 10 ^ Z.of_nat w then digits_fixed w z else Py.str_of_Z z.

(** [d.isoformat()]: the microseconds are printed only when non-zero. *)
Definition isoformat (d : t) : string :=
  (fmt_d 4 (year d) ++ "-" ++ fmt_d 2 (month d) ++ "-" ++ fmt_d 2 (day d)
   ++ "T" ++ fmt_d 2 (hour d) ++ ":" ++ fmt_d 2 (minute d) ++ ":"
   ++ fmt_d 2 (second d)
   ++ (if (microsecond d =? 0)%Z then ""
       else "." ++ fmt_d 6 (microsecond d)))%string.

End Datetime.

(** What [webpush] is handed.  Of the notification data only the parts
    that vary are kept: the icon, the badge, the tag and
    [requireInteraction] are the same literals at both call sites. *)
Record push_call : Type := mkPushCall {
  subscription_info : string;            (* the descriptor, before json.loads *)
  data_title : string;
  data_body : string;
  data_url : string;                     (* data.url *)
  private_key : option string;           (* vapid_private_key *)
  claims_sub : option string;            (* vapid_claims.sub *)
  claims_aud : string                    (* vapid_claims.aud *)
}.

Inductive event : Type :=
| EvIsVisible (l : locator) (timeout : Z) (r : result bool)
| EvWaitFor (l : locator) (s : wait_state) (timeout : Z) (r : result unit)
| EvClick (l : locator) (timeout : Z) (r : result unit)
| EvContent (r : result string)
| EvCount (l : locator) (r : result Z)
| EvInnerText (l : locator) (r : result string)
| EvGoBack (r : result unit)
| EvGoto (url : string) (timeout : Z) (r : result unit)
| EvTakeScreenshot                             (* take_screenshot was called *)
| EvIsClosed (r : result bool)
| EvPageScreenshot (r : result unit)
| EvWebpush (call : push_call) (r : result unit).

(** Newest event first. *)
Definition trace : Type := list event.

(** The collaborators: the remote browser page, the push gateway, the
    clock, and the library functions the sources call on texts that come
    from outside.  The first
    argument of the effectful ones is the trace so far; timeouts are in
    milliseconds, as the sources pass them. *)
Record environment : Type := mkEnvironment {
  env_is_visible : trace -> locator -> Z -> result bool;
  env_wait_for : trace -> locator -> wait_state -> Z -> result unit;
  env_click : trace -> locator -> Z -> result unit;
  env_content : trace -> result string;
  env_count : trace -> locator -> result Z;
  env_inner_text : trace -> locator -> result string;
  env_go_back : trace -> result unit;
  env_goto : trace -> string -> Z -> result unit;
  env_is_closed : trace -> result bool;
  env_page_screenshot : trace -> result unit;
  env_webpush : trace -> push_call -> result unit;
  env_now : trace -> Datetime.t;
  (** [json.loads(s).get("endpoint", "")] *)
  json_endpoint : string -> result string;
  (** [urlparse(s)] as its [(scheme, netloc)] *)
  urlparse : string -> result (string * string);
  (** [int(s)] *)
  int_of_str : string -> result Z
}.

(** ** The trace monad *)

Definition M (A : Type) : Type := trace -> result A * trace.

Definition ret {A} (a : A) : M A := fun t => (Ok a, t).

Definition raise {A} (e : exn) : M A := fun t => (Raise e, t).

Definition bind {A B} (m : M A) (k : A -> M B) : M B :=
  fun t => match m t with
           | (Ok a, t1) => k a t1
           | (Raise e, t1) => (Raise e, t1)
           end.

(** [try: m  except Exception as e: h(e)] *)
Definition try_except {A} (m : M A) (h : exn -> M A) : M A :=
  fun t => match m t with
           | (Ok a, t1) => (Ok a, t1)
           | (Raise e, t1) => h e t1
           end.

(** [try: m  finally: c] *)
Definition try_finally {A} (m : M A) (c : M unit) : M A :=
  fun t => match m t with
           | (Ok a, t1) =>
               match c t1 with
               | (Ok _, t2) => (Ok a, t2)
               | (Raise e, t2) => (Raise e, t2)
               end
           | (Raise e, t1) =>
               match c t1 with
               | (Ok _, t2) => (Raise e, t2)
               | (Raise e', t2) => (Raise e', t2)
               end
           end.

Declare Scope monad_scope.
Delimit Scope monad_scope with monad.
Notation "x <- m ;; k" := (bind m (fun x => k))
  (at level 61, m at next level, right associativity) : monad_scope.
Notation "m ;;; k" := (bind m (fun _ => k))
  (at level 61, right associativity) : monad_scope.
Local Open Scope monad_scope.

(** One call to a collaborator: ask, record the answer, return it. *)
Definition call {A} (ask : trace -> result A) (ev : result A -> event) : M A :=
  fun t => let r := ask t in (r, ev r :: t).

Section Primitives.
Variable E : environment.

Definition is_visible (l : locator) (timeout : Z) : M bool :=
  call (fun t => env_is_visible E t l timeout) (EvIsVisible l timeout).
Definition wait_for (l : locator) (s : wait_state) (timeout : Z) : M unit :=
  call (fun t => env_wait_for E t l s timeout) (EvWaitFor l s timeout).
Definition click (l : locator) (timeout : Z) : M unit :=
  call (fun t => env_click E t l timeout) (EvClick l timeout).
Definition content : M string :=
  call (env_content E) EvContent.
Definition count (l : locator) : M Z :=
  call (fun t => env_count E t l) (EvCount l).
Definition inner_text (l : locator) : M string :=
  call (fun t => env_inner_text E t l) (EvInnerText l).
Definition page_go_back : M unit :=
  call (env_go_back E) EvGoBack.
Definition goto (url : string) (timeout : Z) : M unit :=
  call (fun t => env_goto E t url timeout) (EvGoto url timeout).
Definition is_closed : M bool :=
  call (env_is_closed E) EvIsClosed.
Definition page_screenshot : M unit :=
  call (env_page_screenshot E) EvPageScreenshot.
Definition webpush (c : push_call) : M unit :=
  call (fun t => env_webpush E t c) (EvWebpush c).
Definition now : M Datetime.t :=
  fun t => (Ok (env_now E t), t).
End Primitives.

(** ** Configuration ([Config]) *)

Module Config.

Record t : Type := mk {
  screenshot_switch : bool;
  calendar_page_text : string;
  location_page_text : string;
  category_page_text : string;
  main_page_text : string;
  url : string;
  max_subscription_age_hours : Z;
  max_cycles_before_restart : Z;
  categories : list string;
  category_map : Py.dict string;
  locations : list string;
  months_en : list string;
  vapid_private_key : option string;
  vapid_subject : option string
}.

(** The values [Config.__init__] assigns; the two arguments are what
    [os.getenv] returns for [VAPID_PRIVATE_KEY] and [VAPID_SUBJECT]. *)
Definition init (env_vapid_private_key env_vapid_subject : option string)
    : t := {|
  screenshot_switch := true;
  calendar_page_text := "Choose a Date";
  location_page_text := "Select a Location";
  category_page_text := "Please select an appointment type";
  main_page_text := "Welcome to the NCDMV Driver Service Appointment Scheduler";
  url := "https://skiptheline.ncdot.gov/Webapp/Appointment/Index/"
         ++ "a7ade79b-996d-4971-8766-97feb75254de";
  max_subscription_age_hours := 72;
  max_cycles_before_restart := 2;
  categories := [
    "Driver License - First Time";
    "Driver License Duplicate";
    "Driver License Renewal";
    "Fees";
    "ID Card";
    "Knowledge/Computer Test";
    "Legal Presence";
    "Motorcycle Skills Test";
    "Non-CDL Road Test";
    "Permits";
    "Teen Driver Level 1";
    "Teen Driver Level 2";
    "Teen Driver Level 3" ];
  category_map := [
    ("Driver License - First Time", "driver_license_first_time");
    ("Driver License Duplicate", "driver_license_duplicate");
    ("Driver License Renewal", "driver_license_renewal");
    ("Fees", "fees");
    ("ID Card", "id_card");
    ("Knowledge/Computer Test", "knowledge_computer_test");
    ("Legal Presence", "legal_presence");
    ("Motorcycle Skills Test", "motorcycle_skills_test");
    ("Non-CDL Road Test", "non_cdl_road_test");
    ("Permits", "permits");
    ("Teen Driver Level 1", "teen_driver_level_1");
    ("Teen Driver Level 2", "teen_driver_level_2");
    ("Teen Driver Level 3", "teen_driver_level_3") ];
  locations := [
    "Aberdeen"; "Ahoskie"; "Albemarle"; "Andrews"; "Asheboro"; "Asheville";
    "Boone"; "Brevard"; "Bryson City"; "Burgaw"; "Burnsville"; "Carrboro";
    "Cary"; "Charlotte East"; "Charlotte North"; "Charlotte South";
    "Charlotte West"; "Clayton"; "Clinton"; "Clyde"; "Concord"; "Durham East";
    "Durham South"; "Elizabeth City"; "Elizabethtown"; "Elkin"; "Erwin";
    "Fayetteville South"; "Fayetteville West"; "Forest City"; "Franklin";
    "Fuquay-Varina"; "Garner"; "Gastonia"; "Goldsboro"; "Graham";
    "Greensboro East"; "Greensboro West"; "Greenville"; "Hamlet"; "Havelock";
    "Henderson"; "Hendersonville"; "Hickory"; "High Point"; "Hillsborough";
    "Hudson"; "Huntersville"; "Jacksonville"; "Jefferson"; "Kernersville";
    "Kinston"; "Lexington"; "Lincolnton"; "Louisburg"; "Lumberton"; "Marion";
    "Marshall"; "Mocksville"; "Monroe"; "Mooresville"; "Morehead City";
    "Morganton"; "Mount Airy"; "Mount Holly"; "Nags Head"; "New Bern";
    "Newton"; "Oxford"; "Polkton"; "Raleigh North"; "Raleigh West";
    "Roanoke Rapids"; "Rocky Mount"; "Roxboro"; "Salisbury"; "Sanford";
    "Shallotte"; "Shelby"; "Siler City"; "Smithfield"; "Statesville";
    "Stedman"; "Sylva"; "Tarboro"; "Taylorsville"; "Thomasville"; "Troy";
    "Washington"; "Wendell"; "Wentworth"; "Whiteville"; "Wilkesboro";
    "Williamston"; "Wilmington North"; "Wilmington South"; "Wilson";
    "Winston Salem North"; "Winston Salem South"; "Yadkinville" ];
  months_en := [
    "January"; "February"; "March"; "April"; "May"; "June";
    "July"; "August"; "September"; "October"; "November"; "December" ];
  vapid_private_key := env_vapid_private_key;
  vapid_subject := env_vapid_subject
|}.

(** The configuration of a process whose environment sets both
    variables. *)
Definition default : t :=
  init (Some "dGhlIHByaXZhdGUga2V5") (Some "mailto:admin@example.org").

End Config.

(** ** The store ([database.py]) *)

Module Database.

(** A row of [subscriptions]; [categories] and [locations] are the
    decoded JSON lists. *)
Record subscription : Type := mkSubscription {
  user_id : string;
  push_subscription : string;
  categories : list string;
  locations : list string;
  date_range_days : Z;
  created_at : string;
  last_notification_sent : option string;
  updated_at : string
}.

(** A row of [last_check]; [(category, location_name)] is [UNIQUE]. *)
Record last_check_row : Type := mkLastCheck {
  id : Z;
  category : string;
  location_name : string;
  has_slots : Z;
  last_checked : string
}.

Record t : Type := mk {
  subscriptions : list subscription;
  last_check : list last_check_row
}.

(** [_init_database] on a fresh file. *)
Definition empty : t := mk [] [].

Definition get_all_subscriptions (db : t) : list subscription :=
  subscriptions db.

(** [DELETE FROM subscriptions WHERE created_at < :cutoff_str]; the
    column is [TEXT], so [<] is the byte-wise comparison of the two
    strings.  Returns the new table and [rowcount]; [None] is the
    [OverflowError] of the subtraction. *)
Definition remove_old_subscriptions (db : t) (now : Datetime.t)
    (max_age_hours : Z) : option (t * Z) :=
  match Datetime.sub_hours now max_age_hours with
  | None => None
  | Some cutoff =>
      let cutoff_str := Datetime.isoformat cutoff in
      let kept :=
        filter (fun s => negb (String.ltb (created_at s) cutoff_str))
               (subscriptions db) in
      Some (mk kept (last_check db),
            Z.of_nat (length (subscriptions db)) - Z.of_nat (length kept))%Z
  end.

Definition same_key (cat loc : string) (r : last_check_row) : bool :=
  String.eqb (category r) cat && String.eqb (location_name r) loc.

(** The next value of the [INTEGER PRIMARY KEY]: one more than the
    largest in the table. *)
Definition next_id (rows : list last_check_row) : Z :=
  (fold_left Z.max (map id rows) 0 + 1)%Z.

(** [INSERT INTO last_check ... ON CONFLICT(category, location_name)
     DO UPDATE SET has_slots = excluded.has_slots,
                   last_checked = excluded.last_checked] *)
Definition set_slots (cat loc : string) (slots : Z) (timestamp : string)
    (r : last_check_row) : last_check_row :=
  if same_key cat loc r
  then mkLastCheck (id r) (category r) (location_name r) slots timestamp
  else r.

Definition upsert (rows : list last_check_row)
    (cat loc : string) (slots : Z) (timestamp : string)
    : list last_check_row :=
  if existsb (same_key cat loc) rows then
    map (set_slots cat loc slots timestamp) rows
  else rows ++ [mkLastCheck (next_id rows) cat loc slots timestamp].

(** [save_slots_info]: every location of the category is first set to
    0, then the locations of [slots_data] get their count.
    [slots_data] is the list of [{"location": .., "slots": ..}]. *)
Definition save_slots_info (db : t) (timestamp : string)
    (cat : string) (locs : list string) (slots_data : list (string * Z))
    : t :=
  let zeroed :=
    fold_left (fun rows location => upsert rows cat location 0%Z timestamp)
              locs (last_check db) in
  let updated :=
    fold_left (fun rows slot => upsert rows cat (fst slot) (snd slot) timestamp)
              slots_data zeroed in
  mk (subscriptions db) updated.

(** [SELECT ... FROM last_check WHERE has_slots > 0] *)
Definition get_locations_with_slots (db : t) : list last_check_row :=
  filter (fun r => (0 <? has_slots r)%Z) (last_check db).

End Database.

(** ** The monitor ([monitor_service.py]) *)

Section Monitor.
Variable E : environment.
Variable cfg : Config.t.

Local Open Scope Z_scope.

(** *** [ScreenshotManager] *)

(** [take_screenshot]: never raises.  The call itself is recorded, then
    the page is asked only when the switch is on. *)
Definition take_screenshot : M unit :=
  fun t =>
    let t := EvTakeScreenshot :: t in
    if negb (Config.screenshot_switch cfg) then (Ok tt, t)
    else
      try_except
        (closed <- is_closed E ;;
         if closed : bool then ret tt else page_screenshot E)
        (fun _ => ret tt) t.

(** *** [SubscriptionManager] *)

(** [remove_old_subscriptions]: a failure of the store is logged and
    counts as nothing removed. *)
Definition remove_old_subscriptions (db : Database.t) (now : Datetime.t)
    : Database.t * Z :=
  match Database.remove_old_subscriptions db now
          (Config.max_subscription_age_hours cfg) with
  | Some (db', removed) => (db', removed)
  | None => (db, 0)
  end.

Definition load_subscriptions (db : Database.t)
    : list Database.subscription :=
  Database.get_all_subscriptions db.

(** *** [PushNotificationService] *)

(** Lines 229-237 of [send_push]. *)
Definition send_push_audience (endpoint : string) : result string :=
  if Py.str_in "apple.com" endpoint then Ok "https://web.push.apple.com"
  else if Py.str_in "fcm.googleapis.com" endpoint
  then Ok "https://fcm.googleapis.com"
  else if Py.str_in "mozilla.com" endpoint
  then Ok "https://updates.push.services.mozilla.com"
  else match urlparse E endpoint with
       | Ok (scheme, netloc) => Ok (scheme ++ "://" ++ netloc)%string
       | Raise e => Raise e
       end.

Definition send_push (subscription_json title body : string) : M bool :=
  try_except
    (match json_endpoint E subscription_json with
     | Raise e => raise e
     | Ok endpoint =>
         if String.eqb endpoint "" then ret false
         else
           match send_push_audience endpoint with
           | Raise e => raise e
           | Ok aud =>
               webpush E (mkPushCall subscription_json title body
                                     (Config.url cfg)
                                     (Config.vapid_private_key cfg)
                                     (Config.vapid_subject cfg) aud) ;;;
               ret true
           end
     end)
    (fun _ => ret false).

(** *** [NotificationManager] *)

(** The loop that fills [interested] (lines 294-310). *)
Definition select_interested (mapped_category location_name : string)
    (subs : list Database.subscription) : list Database.subscription :=
  fold_left
    (fun interested item =>
       let cats := Database.categories item in
       let locs := Database.locations item in
       let push_sub := Database.push_subscription item in
       if String.eqb push_sub "" then interested
       else if Py.list_in mapped_category cats
               && Py.list_in location_name locs
            then interested ++ [item]
            else interested)
    subs [].

(** The loop that fills [slots_lines] (lines 316-321). *)
Definition slots_lines (total_slots : Py.dict (list string)) : list string :=
  fold_left
    (fun lines kv =>
       let date_key := fst kv in
       let times := snd kv in
       let times_str := Py.join ", " (firstn 2 times) in
       let times_str :=
         if (2 <? length times)%nat
         then (times_str ++ " (+" ++ Py.str_of_nat (length times - 2)
               ++ " more)")%string
         else times_str in
       lines ++ [(date_key ++ ": " ++ times_str)%string])
    total_slots [].

Definition display_lines (lines : list string) : list string :=
  firstn 3 lines.

Definition more_dates_suffix (lines : list string) : string :=
  if (3 <? length lines)%nat
  then (Py.newline ++ "(+" ++ Py.str_of_nat (length lines - 3)
        ++ " more dates)")%string
  else ""%string.

Definition notification_title : string := "🚗 New DMV appointment available!".

Definition notification_body (category location_name : string)
    (total_slots : Py.dict (list string)) : string :=
  let lines := slots_lines total_slots in
  ("📋 " ++ category ++ Py.newline
   ++ "📍 " ++ location_name ++ Py.newline
   ++ "📅 Available slots:" ++ Py.newline
   ++ Py.join Py.newline (display_lines lines)
   ++ more_dates_suffix lines)%string.

(** The sending loop (lines 337-358). *)
Fixpoint send_to_all (interested : list Database.subscription)
    (title body : string) (sent_count : Z) : M Z :=
  match interested with
  | [] => ret sent_count
  | sub :: rest =>
      ok <- try_except
              (send_push (Database.push_subscription sub) title body)
              (fun _ => ret false) ;;
      send_to_all rest title body
                  (if ok : bool then sent_count + 1 else sent_count)
  end.

Definition send_notification (db : Database.t)
    (category location_name : string)
    (total_slots : Py.dict (list string)) : M Z :=
  match total_slots with
  | [] => ret 0
  | _ =>
      let subscriptions := load_subscriptions db in
      match subscriptions with
      | [] => ret 0
      | _ =>
          match Py.dict_get (Config.category_map cfg) category with
          | None => ret 0
          | Some mapped_category =>
              if String.eqb mapped_category "" then ret 0
              else
                let interested :=
                  select_interested mapped_category location_name
                                    subscriptions in
                match interested with
                | [] => ret 0
                | _ =>
                    send_to_all interested notification_title
                      (notification_body category location_name total_slots)
                      0
                end
          end
      end
  end.

(** *** [DataStorage] *)

(** [config.category_map.get(category, category)] (line 378). *)
Definition category_key (category : string) : string :=
  match Py.dict_get (Config.category_map cfg) category with
  | Some key => key
  | None => category
  end.

Definition save_slots_info (db : Database.t) (timestamp : string)
    (category : string) (slots_data : list (string * Z)) : Database.t :=
  Database.save_slots_info db timestamp (category_key category)
                           (Config.locations cfg) slots_data.

(** *** [PageNavigator] *)

Definition dquote : string := String (ascii_of_nat 34) "".

(** The selector [img[src*=...]] of the loading indicator, with its
    quoted file name [search-loading.gif]. *)
Definition spinner : locator :=
  Css ("img[src*=" ++ dquote ++ "search-loading.gif" ++ dquote ++ "]")%string.

(** [wait_for_spinner]: a loader that never shows up is fine, one that
    does not go away is an error. *)
Definition wait_for_spinner (appear_timeout disappear_timeout : Z) : M unit :=
  appeared <- try_except
                (wait_for E spinner WaitVisible appear_timeout ;;; ret true)
                (fun e => match e with
                          | PlaywrightTimeoutError => ret false
                          | _ => raise e
                          end) ;;
  if appeared : bool
  then wait_for E spinner WaitHidden disappear_timeout
  else ret tt.

(** The first argument of [safe_click]: a [Locator] or a string. *)
Inductive target : Type :=
| TargetLocator (l : locator)
| TargetStr (s : string).

Definition is_selector (s : string) : bool :=
  Py.startswith_any ["#"; "."; "["]%string s.

Definition click_locator_of (tg : target) : locator :=
  match tg with
  | TargetLocator l => First l
  | TargetStr s => if is_selector s then First (Css s) else First (ByText s)
  end.

Definition expected_locator_of (expected_text : option string)
    : option locator :=
  match expected_text with
  | None => None
  | Some s => Some (if is_selector s then First (Css s) else First (ByText s))
  end.

Definition error_banner : string :=
  "Unfortunately, we have encountered an error".

(** The body of the [try] of one attempt (lines 444-458). *)
Definition safe_click_try (click_locator : locator)
    (expected_locator : option locator) (timeout : Z) : M bool :=
  already <- match expected_locator with
             | Some el => try_except (is_visible E el 3000)
                                     (fun e => raise e)
             | None => ret false
             end ;;
  if already : bool then ret true
  else
    wait_for E click_locator WaitVisible timeout ;;;
    click E click_locator 5000 ;;;
    match expected_locator with
    | Some el => wait_for E el WaitDefault 5000
    | None => ret tt
    end ;;;
    ret true.

(** The [except Exception] of one attempt (lines 460-476); [None] is
    [continue]. *)
Definition safe_click_except (attempt max_attempts : Z) (e : exn)
    : M (option bool) :=
  page_content <- try_except (content E) (fun _ => ret ""%string) ;;
  if Py.str_in error_banner page_content then raise ServerErrorException
  else if attempt =? max_attempts - 1
       then take_screenshot ;;; raise RestartRequiredException
       else ret None.

Fixpoint safe_click_attempts (click_locator : locator)
    (expected_locator : option locator) (timeout max_attempts : Z)
    (attempts : list Z) : M bool :=
  match attempts with
  | [] => ret false
  | attempt :: rest =>
      r <- try_except
             (b <- safe_click_try click_locator expected_locator timeout ;;
              ret (Some b))
             (safe_click_except attempt max_attempts) ;;
      match r with
      | Some b => ret b
      | None => safe_click_attempts click_locator expected_locator
                                    timeout max_attempts rest
      end
  end.

Definition safe_click (tg : target) (expected_text : option string)
    (timeout max_attempts : Z) : M bool :=
  safe_click_attempts (click_locator_of tg)
                      (expected_locator_of expected_text)
                      timeout max_attempts (Py.range max_attempts).

(** The defaults of the signature. *)
Definition default_timeout : Z := 15000.
Definition default_max_attempts : Z := 3.

Definition go_back (expected_text : string) : M unit :=
  let expected_locator :=
    if is_selector expected_text then Css expected_text
    else First (ByText expected_text) in
  try_except
    (page_go_back E ;;; wait_for E expected_locator WaitVisible 15000)
    (fun e => match e with
              | PlaywrightTimeoutError => raise RestartRequiredException
              | _ => raise e
              end).

Definition open_main_page (url : string) : M unit :=
  try_except
    (goto E url 60000 ;;;
     wait_for E (First (ByText (Config.main_page_text cfg))) WaitDefault 15000)
    (fun _ => raise RestartRequiredException).

(** *** [SlotChecker] *)

Definition next_button : locator :=
  Css "a.ui-datepicker-next:not(.ui-state-disabled)".
Definition month_header : locator := First (Css ".ui-datepicker-month").
Definition year_header : locator := First (Css ".ui-datepicker-year").
Definition active_days : locator :=
  Sub (Css ".ui-datepicker-inline.ui-datepicker.ui-widget.ui-widget-content")
      "td[data-handler='selectDay']".
Definition time_options : locator := Sub (First (Css "select")) "option".

(** The inner loop over the options of the drop-down (lines 574-581). *)
Fixpoint read_times (indices : list Z) (times : list string)
    : M (list string) :=
  match indices with
  | [] => ret times
  | i :: rest =>
      raw <- inner_text E (Nth time_options i) ;;
      let text := Py.strip raw in
      if String.eqb text "" || String.eqb text "-"
      then read_times rest times
      else read_times rest (times ++ [text])
  end.

(** The loop over the active days (lines 560-589). *)
Fixpoint read_days (month_text year_text : string) (indices : list Z)
    (month_time_slots : Py.dict (list string))
    : M (Py.dict (list string)) :=
  match indices with
  | [] => ret month_time_slots
  | idx :: rest =>
      let cell := Nth active_days idx in
      raw <- inner_text E (Sub cell "a") ;;
      match int_of_str E (Py.strip raw) with
      | Raise e => raise e
      | Ok day =>
          safe_click (TargetLocator cell) None
                     default_timeout default_max_attempts ;;;
          wait_for_spinner 1000 20000 ;;;
          option_nums <- count E time_options ;;
          times <- read_times (Py.range option_nums) [] ;;
          match times with
          | [] => read_days month_text year_text rest month_time_slots
          | _ =>
              let date_key :=
                (month_text ++ " " ++ Py.str_of_Z day ++ ", "
                 ++ year_text)%string in
              read_days month_text year_text rest
                        (Py.dict_set month_time_slots date_key times)
          end
      end
  end.

(** [_check_month_slots] *)
Definition check_month_slots (location : string)
    : M (Py.dict (list string)) :=
  header <- try_except
              (month_raw <- inner_text E month_header ;;
               year_raw <- inner_text E year_header ;;
               ret (Py.strip month_raw, Py.strip year_raw))
              (fun _ =>
                 today <- now E ;;
                 ret (nth (Z.to_nat (Datetime.month today - 1))
                          (Config.months_en cfg) ""%string,
                      Py.str_of_Z (Datetime.year today))) ;;
  total_active_days_num <- count E active_days ;;
  if total_active_days_num =? 0 then ret []
  else read_days (fst header) (snd header)
                 (Py.range total_active_days_num) [].

Definition check_slots (location : string) : M (Py.dict (list string)) :=
  wait_for_spinner 1000 20000 ;;;
  next_count <- count E next_button ;;
  let next_button_is_available := 0 <? next_count in
  slots_current_month <- check_month_slots location ;;
  let total_time_slots := Py.dict_update [] slots_current_month in
  if next_button_is_available then
    safe_click (TargetLocator next_button) None
               default_timeout default_max_attempts ;;;
    wait_for_spinner 1000 20000 ;;;
    slots_next_month <- check_month_slots location ;;
    ret (Py.dict_update total_time_slots slots_next_month)
  else ret total_time_slots.

(** *** [LocationChecker] *)

Definition location_panel (location : string) : locator :=
  First (CssHasText ".QflowObjectItem.Active-Unit" location).

(** Lines 625-635: enter the location and read its calendar; a site
    error or any other failure counts as no slots. *)
Definition enter_and_extract (location : string)
    : M (Py.dict (list string)) :=
  safe_click (TargetLocator (location_panel location))
             (Some (Config.calendar_page_text cfg))
             default_timeout default_max_attempts ;;;
  check_slots location.

Definition slots_or_empty (location : string) : M (Py.dict (list string)) :=
  try_except (enter_and_extract location)
    (fun e => match e with
              | ServerErrorException => ret []
              | _ => take_screenshot ;;; ret []
              end).

(** Lines 624-644: the [try ... finally] of one location. *)
Definition process_location (db : Database.t) (category location : string)
    (slots_data : list (string * Z)) : M (list (string * Z)) :=
  try_finally
    (total_slots <- slots_or_empty location ;;
     let total_slots_nums := Py.total_len total_slots in
     send_notification db category location total_slots ;;;
     ret (slots_data ++ [(location, total_slots_nums)]))
    (go_back (Config.location_page_text cfg)).

(** The loop over [config.locations] (lines 611-646). *)
Fixpoint scan_locations (db : Database.t) (category : string)
    (locs visited_locations : list string)
    (slots_data : list (string * Z)) : M (list (string * Z)) :=
  match locs with
  | [] => ret slots_data
  | location :: rest =>
      if Py.list_in location visited_locations
      then scan_locations db category rest visited_locations slots_data
      else
        present <- count E (location_panel location) ;;
        if present =? 0
        then scan_locations db category rest visited_locations slots_data
        else
          slots_data' <- process_location db category location slots_data ;;
          scan_locations db category rest
                         (location :: visited_locations) slots_data'
  end.

Definition check_locations (db : Database.t) (category : string)
    : M Database.t :=
  slots_data <- scan_locations db category (Config.locations cfg) [] [] ;;
  timestamp <- now E ;;
  ret (save_slots_info db (Datetime.isoformat timestamp) category slots_data).

(** *** [CategoryChecker] *)

Definition enter_category_selection : M unit :=
  open_main_page (Config.url cfg) ;;;
  safe_click (TargetStr "#cmdMakeAppt") (Some (Config.category_page_text cfg))
             default_timeout default_max_attempts ;;;
  ret tt.

(** The [try] of one category (lines 673-679): the store as it is when the
    block is left, and whether it was left without an exception.  The
    snapshot is written inside [check_locations], so a failure of the way
    back comes after the write. *)
Definition try_category (db : Database.t) (category : string)
    : M (Database.t * bool) :=
  try_except
    (safe_click (TargetStr category) (Some (Config.location_page_text cfg))
                default_timeout default_max_attempts ;;;
     db1 <- check_locations db category ;;
     try_except (go_back (Config.category_page_text cfg) ;;; ret (db1, true))
                (fun _ => ret (db1, false)))
    (fun _ => ret (db, false)).

(** The loop over [config.categories] (lines 670-692): after a failure, a
    screenshot and a fresh start from the entry page, whose own failure
    ends the scan. *)
Fixpoint scan_categories (db : Database.t) (cats : list string)
    : M Database.t :=
  match cats with
  | [] => ret db
  | category :: rest =>
      attempt <- try_category db category ;;
      if snd attempt : bool
      then scan_categories (fst attempt) rest
      else
        take_screenshot ;;;
        enter_category_selection ;;;
        scan_categories (fst attempt) rest
  end.

Definition check_category (db : Database.t) : M Database.t :=
  enter_category_selection ;;;
  scan_categories db (Config.categories cfg).

(** *** [DMVMonitor]: one cycle of [run] (lines 740-744) *)

Definition run_cycle (db : Database.t) : M Database.t :=
  today <- now E ;;
  let db1 := fst (remove_old_subscriptions db today) in
  check_category db1.

End Monitor.

(** ** [api.py] *)

Module Api.

(** Lines 207-215 of [send_push_notification]. *)
Definition audience (E : environment) (endpoint : string) : result string :=
  if Py.str_in "apple.com" endpoint then Ok "https://web.push.apple.com"
  else if Py.str_in "fcm.googleapis.com" endpoint
  then Ok "https://fcm.googleapis.com"
  else if Py.str_in "mozilla.com" endpoint
  then Ok "https://updates.push.services.mozilla.com"
  else match urlparse E endpoint with
       | Ok (scheme, netloc) => Ok (scheme ++ "://" ++ netloc)%string
       | Raise e => Raise e
       end.

(** The module's [VAPID_PRIVATE_KEY] and [VAPID_SUBJECT]: what
    [os.getenv] returned when the module was loaded. *)
Record vapid : Type := mkVapid {
  VAPID_PRIVATE_KEY : option string;
  VAPID_SUBJECT : option string
}.


(** [send_push_notification]; [None] is a missing subscription. *)
Definition send_push_notification (E : environment) (keys : vapid)
    (subscription_info : option Database.subscription)
    (title body url : string) : M bool :=
  match subscription_info with
  | None => ret false
  | Some info =>
      try_except
        (match json_endpoint E (Database.push_subscription info) with
         | Raise e => raise e
         | Ok endpoint =>
             match audience E endpoint with
             | Raise e => raise e
             | Ok aud =>
                 webpush E (mkPushCall (Database.push_subscription info)
                                       title body url
                                       (VAPID_PRIVATE_KEY keys)
                                       (VAPID_SUBJECT keys) aud) ;;;
                 ret true
             end
         end)
        (fun _ => ret false)
  end.

End Api.

(** ** Observations on traces *)

Definition count_events (p : event -> bool) (t : trace) : nat :=
  length (filter p t).
Arguments count_events : simpl never.

Definition is_screenshot_request (ev : event) : bool :=
  match ev with EvTakeScreenshot => true | _ => false end.

(** How often [take_screenshot] was called. *)
Definition screenshot_requests (t : trace) : nat :=
  count_events is_screenshot_request t.

Definition is_click (ev : event) : bool :=
  match ev with EvClick _ _ _ => true | _ => false end.

(** How often [click()] was called on any element. *)
Definition clicks (t : trace) : nat := count_events is_click t.

(** ** Runs of failing attempts of [safe_click]

    One attempt fails when the body of its [try] raises; the handler then
    reads the page.  [attempt_fails] runs exactly that much of the code and
    tells whether the error banner was in the page that was read. *)

Definition attempt_fails (E : environment) (click_locator : locator)
    (expected_locator : option locator) (timeout : Z) (t : trace)
    : option (bool * trace) :=
  match safe_click_try E click_locator expected_locator timeout t with
  | (Ok _, _) => None
  | (Raise _, t1) =>
      let r := env_content E t1 in
      Some (match r with
            | Ok page_content => Py.str_in error_banner page_content
            | Raise _ => false
            end, EvContent r :: t1)
  end.

(** [n] attempts in a row, each failing with no banner in the page. *)
Fixpoint quiet_failures (E : environment) (click_locator : locator)
    (expected_locator : option locator) (timeout : Z) (n : nat) (t : trace)
    : option trace :=
  match n with
  | O => Some t
  | S n' =>
      match attempt_fails E click_locator expected_locator timeout t with
      | Some (false, t1) =>
          quiet_failures E click_locator expected_locator timeout n' t1
      | _ => None
      end
  end.

(** ** Environments for examples *)

(** A stand-in for [urlparse] on plain URLs: the scheme is what precedes
    the first [://], the network location what follows up to the next [/],
    [?] or [#]; without [://] both are empty. *)
Fixpoint split_scheme (acc s : string) : option (string * string) :=
  match s with
  | EmptyString => None
  | String c rest =>
      if String.prefix "://" s
      then Some (acc, String.substring 3 (String.length s - 3) s)
      else split_scheme (acc ++ String c "")%string rest
  end.

Fixpoint take_netloc (s : string) : string :=
  match s with
  | EmptyString => EmptyString
  | String c rest =>
      if Ascii.eqb c "/" || Ascii.eqb c "?" || Ascii.eqb c "#"
      then EmptyString
      else String c (take_netloc rest)
  end.

Definition simple_urlparse (s : string) : result (string * string) :=
  match split_scheme "" s with
  | Some (scheme, rest) => Ok (scheme, take_netloc rest)
  | None => Ok (""%string, ""%string)
  end.

(** A stand-in for [json.loads(s).get("endpoint", "")] on the descriptors
    of the examples: objects written without white space whose members
    are texts without escapes or such objects again.  Everything else is
    refused, as [json.loads] refuses a bare URL. *)
Definition double_quote : ascii := ascii_of_nat 34.

(** The characters up to the closing quote, and what follows it. *)
Fixpoint json_text (s : string) : option (string * string) :=
  match s with
  | EmptyString => None
  | String c rest =>
      if Ascii.eqb c double_quote then Some (EmptyString, rest)
      else if Ascii.eqb c "\" || (nat_of_ascii c <? 32)%nat then None
      else match json_text rest with
           | Some (text, rest') => Some (String c text, rest')
           | None => None
           end
  end.

(** The members of an object, from the first or after a comma, up to the
    closing brace: the text under [endpoint], if there is one, and what
    follows the brace. *)
Fixpoint json_members (fuel : nat) (s : string) (endpoint : option string)
    : option (option string * string) :=
  match fuel with
  | O => None
  | S fuel' =>
      let continue (found : option string) (after : string) :=
        match after with
        | String "}" rest => Some (found, rest)
        | String "," more => json_members fuel' more found
        | _ => None
        end in
      match s with
      | String q rest =>
          if Ascii.eqb q double_quote then
            match json_text rest with
            | Some (key, String ":" (String c more)) =>
                if Ascii.eqb c double_quote then
                  match json_text more with
                  | Some (value, after) =>
                      continue (if String.eqb key "endpoint" then Some value
                                else endpoint) after
                  | None => None
                  end
                else if Ascii.eqb c "{" then
                  if String.eqb key "endpoint" then None
                  else
                    match more with
                    | String "}" after => continue endpoint after
                    | _ =>
                        match json_members fuel' more None with
                        | Some (_, after) => continue endpoint after
                        | None => None
                        end
                    end
                else None
            | _ => None
            end
          else None
      | EmptyString => None
      end
  end.

Definition simple_json_endpoint (s : string) : result string :=
  match s with
  | String "{" (String "}" EmptyString) => Ok EmptyString
  | String "{" members =>
      match json_members (String.length members) members None with
      | Some (Some endpoint, EmptyString) => Ok endpoint
      | Some (None, EmptyString) => Ok EmptyString
      | _ => Raise (OtherException "JSONDecodeError")
      end
  | _ => Raise (OtherException "JSONDecodeError")
  end.

Definition quoted (s : string) : string := (dquote ++ s ++ dquote)%string.

(** The descriptor a browser hands out for an endpoint, as JSON text. *)
Definition descriptor (endpoint : string) : string :=
  ("{" ++ quoted "endpoint" ++ ":" ++ quoted endpoint ++ ","
   ++ quoted "keys" ++ ":{"
   ++ quoted "p256dh" ++ ":" ++ quoted "BNcRdreALRFXTkOOUHK1EtK2wtaz5Ry4YfYCA" ++ ","
   ++ quoted "auth" ++ ":" ++ quoted "tBHItJI5svbpez7KI4CCXg"
   ++ "}}")%string.

(** A stand-in for [int] on the day numbers of the examples. *)
Definition decimal_int (s : string) : result Z :=
  match Py.decimal_literal s with
  | Some z => Ok z
  | None => Raise (OtherException "ValueError")
  end.

(** A scripted page: what it answers is fixed per kind of call. *)
Definition scripted_env (visible : result bool) (waited clicked : result unit)
    (page : trace -> result string) (counted : locator -> result Z)
    (text : locator -> result string) (back : result unit)
    (pushed : result unit) : environment := {|
  env_is_visible := fun _ _ _ => visible;
  env_wait_for := fun _ _ _ _ => waited;
  env_click := fun _ _ _ => clicked;
  env_content := page;
  env_count := fun _ l => counted l;
  env_inner_text := fun _ l => text l;
  env_go_back := fun _ => back;
  env_goto := fun _ _ _ => Ok tt;
  env_is_closed := fun _ => Ok false;
  env_page_screenshot := fun _ => Ok tt;
  env_webpush := fun _ _ => pushed;
  env_now := fun _ => Datetime.mk 2025 6 1 12 0 0 0;
  json_endpoint := simple_json_endpoint;
  urlparse := simple_urlparse;
  int_of_str := decimal_int
|}.

(** A page on which nothing ever becomes visible and that shows no banner. *)
Definition dead_page_env : environment :=
  scripted_env (Ok false) (Raise PlaywrightTimeoutError) (Ok tt)
               (fun _ => Ok "<html></html>") (fun _ => Ok 0%Z)
               (fun _ => Ok "") (Ok tt) (Ok tt).

Definition is_content (ev : event) : bool :=
  match ev with EvContent _ => true | _ => false end.

(** The same page, except that from the second time it is read it shows
    the site's error banner. *)
Definition banner_later_env : environment :=
  scripted_env (Ok false) (Raise PlaywrightTimeoutError) (Ok tt)
               (fun t => if (1 <=? count_events is_content t)%nat
                         then Ok ("<h1>" ++ error_banner ++ "</h1>")%string
                         else Ok "<html></html>")
               (fun _ => Ok 0%Z) (fun _ => Ok "") (Ok tt) (Ok tt).

(** A page that already shows what the click is expected to lead to. *)
Definition settled_page_env : environment :=
  scripted_env (Ok true) (Ok tt) (Ok tt)
               (fun _ => Ok "<html></html>") (fun _ => Ok 0%Z)
               (fun _ => Ok "") (Ok tt) (Ok tt).

Definition is_month_read (ev : event) : bool :=
  match ev with
  | EvInnerText (First (Css s)) _ => String.eqb s ".ui-datepicker-month"
  | _ => false
  end.

(** How many months of the calendar were read: every call of
    [_check_month_slots] starts by reading the month header. *)
Definition month_reads (t : trace) : nat := count_events is_month_read t.

Definition is_next_month_click (ev : event) : bool :=
  match ev with
  | EvClick (First (Css s)) _ _ =>
      String.eqb s "a.ui-datepicker-next:not(.ui-state-disabled)"
  | _ => false
  end.

Definition is_next_month_clicked (ev : event) : bool :=
  match ev with
  | EvClick (First (Css s)) _ (Ok _) =>
      String.eqb s "a.ui-datepicker-next:not(.ui-state-disabled)"
  | _ => false
  end.

(** Calls of [click()] on the next-month control, and those of them
    that went through. *)
Definition next_month_click_calls (t : trace) : nat :=
  count_events is_next_month_click t.
Definition next_month_clicks (t : trace) : nat :=
  count_events is_next_month_clicked t.

Definition is_go_back (ev : event) : bool :=
  match ev with EvGoBack _ => true | _ => false end.

(** How often the browser was sent back one page. *)
Definition back_navigations (t : trace) : nat := count_events is_go_back t.

(** A computation is silent for a kind of event when it only adds
    events of other kinds to the trace. *)
Definition silent {A} (p : event -> bool) (m : M A) : Prop :=
  forall t, exists new, snd (m t) = new ++ t /\ count_events p new = 0%nat.

(** The kinds of event [safe_click] can add, for a given element to click. *)
Definition apart_from_safe_click (p : event -> bool) (cl : locator) : Prop :=
  (forall l tmo r, p (EvIsVisible l tmo r) = false)
  /\ (forall l s tmo r, p (EvWaitFor l s tmo r) = false)
  /\ (forall tmo r, p (EvClick cl tmo r) = false)
  /\ (forall r, p (EvContent r) = false)
  /\ p EvTakeScreenshot = false
  /\ (forall r, p (EvIsClosed r) = false)
  /\ (forall r, p (EvPageScreenshot r) = false).


(** Reading a month or clicking the next-month control. *)
Definition calendar_event (ev : event) : bool :=
  is_month_read ev || is_next_month_click ev.

(** What the check at the start of [check_slots] finds: whether a
    next-month control that is not disabled is on the page. *)
Definition next_month_available (E : environment) (t : trace) : bool :=
  match wait_for_spinner E 1000 20000 t with
  | (Ok _, t0) =>
      match env_count E t0 next_button with
      | Ok n => (0 <? n)%Z
      | Raise _ => false
      end
  | (Raise _, _) => false
  end.





Definition is_webpush (ev : event) : bool :=
  match ev with EvWebpush _ _ => true | _ => false end.

Definition is_goto (ev : event) : bool :=
  match ev with EvGoto _ _ _ => true | _ => false end.

(** Events that entering a location and reading its calendar never
    cause: leaving the page and sending a push message. *)
Definition beyond_calendar (ev : event) : bool :=
  is_go_back ev || is_webpush ev || is_goto ev.

(** Events that the walk over the days of one month never causes. *)
Definition beyond_day_walk (ev : event) : bool :=
  calendar_event ev || beyond_calendar ev.

(** A site on which only Cary is offered, and entering it ends on the
    site's error page; the way back to the location list works. *)
Definition error_page_env : environment := {|
  env_is_visible := fun _ _ _ => Ok false;
  env_wait_for := fun _ l _ _ =>
    match l with
    | First (ByText s) =>
        if String.eqb s "Select a Location" then Ok tt
        else Raise PlaywrightTimeoutError
    | _ => Raise PlaywrightTimeoutError
    end;
  env_click := fun _ _ _ => Ok tt;
  env_content := fun _ => Ok ("<p>" ++ error_banner ++ "</p>")%string;
  env_count := fun _ l =>
    match l with
    | First (CssHasText _ s) => if String.eqb s "Cary" then Ok 1%Z else Ok 0%Z
    | _ => Ok 0%Z
    end;
  env_inner_text := fun _ _ => Ok "";
  env_go_back := fun _ => Ok tt;
  env_goto := fun _ _ _ => Ok tt;
  env_is_closed := fun _ => Ok false;
  env_page_screenshot := fun _ => Ok tt;
  env_webpush := fun _ _ => Ok tt;
  env_now := fun _ => Datetime.mk 2025 6 1 12 0 0 0;
  json_endpoint := simple_json_endpoint;
  urlparse := simple_urlparse;
  int_of_str := decimal_int
|}.

(** ** The calls to the push gateway *)

(** What [send_push] hands to [webpush] for an audience. *)
Definition monitor_call (cfg : Config.t)
    (subscription_json title body aud : string) : push_call :=
  mkPushCall subscription_json title body (Config.url cfg)
             (Config.vapid_private_key cfg) (Config.vapid_subject cfg) aud.

(** What [send_push_notification] hands to [webpush] for an audience. *)
Definition api_call (keys : Api.vapid)
    (subscription_json title body url aud : string) : push_call :=
  mkPushCall subscription_json title body url
             (Api.VAPID_PRIVATE_KEY keys) (Api.VAPID_SUBJECT keys) aud.


(** ** Reference definitions, in the words of the specification *)

(** One date line: the date, then at most two times, then the number of
    times left out, if any. *)
Definition spec_date_line (entry : string * list string) : string :=
  let date := fst entry in
  let times := snd entry in
  (date ++ ": " ++ Py.join ", " (firstn 2 times)
   ++ (if (2 <? length times)%nat
       then " (+" ++ Py.str_of_nat (length times - 2) ++ " more)"
       else ""))%string.

(** The trailing note about the dates left out, if any. *)
Definition spec_more_dates (dates : nat) : string :=
  if (3 <? dates)%nat
  then (Py.newline ++ "(+" ++ Py.str_of_nat (dates - 3) ++ " more dates)")%string
  else ""%string.



(** The subscription of the matching example: fees at Cary. *)
Definition fees_at_cary : Database.subscription := {|
  Database.user_id := "u1";
  Database.push_subscription :=
    descriptor "https://fcm.googleapis.com/fcm/send/abc";
  Database.categories := ["fees"];
  Database.locations := ["Cary"];
  Database.date_range_days := 14;
  Database.created_at := "2025-06-01T08:00:00";
  Database.last_notification_sent := None;
  Database.updated_at := "2025-06-01T08:00:00"
|}.

(** The slots of the message example: four dates, three times each. *)
Definition june_slots : Py.dict (list string) :=
  [ ("June 1", ["9:00"; "10:00"; "11:00"]);
    ("June 2", ["9:00"; "10:00"; "11:00"]);
    ("June 3", ["9:00"; "10:00"; "11:00"]);
    ("June 4", ["9:00"; "10:00"; "11:00"]) ].

(** The test one pass of the selection loop applies to a subscription. *)
Definition matches (mapped_category location_name : string)
    (item : Database.subscription) : bool :=
  negb (String.eqb (Database.push_subscription item) "")
  && (Py.list_in mapped_category (Database.categories item)
      && Py.list_in location_name (Database.locations item)).


(** The message of the example, line by line. *)
Definition june_body : string :=
  ("📋 Fees" ++ Py.newline
   ++ "📍 Cary" ++ Py.newline
   ++ "📅 Available slots:" ++ Py.newline
   ++ "June 1: 9:00, 10:00 (+1 more)" ++ Py.newline
   ++ "June 2: 9:00, 10:00 (+1 more)" ++ Py.newline
   ++ "June 3: 9:00, 10:00 (+1 more)" ++ Py.newline
   ++ "(+1 more dates)")%string.



(** ** Reading the snapshot table *)

(** How many rows [last_check] holds for a category and a location. *)
Definition count_rows (cat loc : string) (rows : list Database.last_check_row)
    : nat :=
  length (filter (Database.same_key cat loc) rows).

(** The [UNIQUE(category, location_name)] constraint. *)
Definition unique_keys (rows : list Database.last_check_row) : Prop :=
  forall cat loc, (count_rows cat loc rows <= 1)%nat.

(** [(has_slots, last_checked)] of the row of a category and a location. *)
Definition row_of (rows : list Database.last_check_row) (cat loc : string)
    : option (Z * string) :=
  option_map (fun r => (Database.has_slots r, Database.last_checked r))
             (find (Database.same_key cat loc) rows).

(** The count a list of slot summaries gives for a location: that of its
    last entry for the location, [default] when it has none. *)
Definition last_slots (slots_data : list (string * Z)) (loc : string)
    (default : Z) : Z :=
  fold_left (fun acc slot => if String.eqb (fst slot) loc then snd slot else acc)
            slots_data default.





(** A site that offers Cary with one bookable day, 3 June 2025, with one
    time besides the placeholder of the drop-down; no next month. *)
Definition open_slot_env : environment := {|
  env_is_visible := fun _ _ _ => Ok false;
  env_wait_for := fun _ _ _ _ => Ok tt;
  env_click := fun _ _ _ => Ok tt;
  env_content := fun _ => Ok "<html></html>";
  env_count := fun _ l =>
    match l with
    | First (CssHasText _ s) => if String.eqb s "Cary" then Ok 1%Z else Ok 0%Z
    | Sub (Css _) _ => Ok 1%Z
    | Sub (First (Css _)) _ => Ok 2%Z
    | _ => Ok 0%Z
    end;
  env_inner_text := fun _ l =>
    match l with
    | First (Css s) =>
        if String.eqb s ".ui-datepicker-month" then Ok " June " else Ok "2025"
    | Sub (Nth _ _) _ => Ok "3"
    | Nth _ i => if (i =? 0)%Z then Ok "-" else Ok "9:00 AM"
    | _ => Ok ""
    end;
  env_go_back := fun _ => Ok tt;
  env_goto := fun _ _ _ => Ok tt;
  env_is_closed := fun _ => Ok false;
  env_page_screenshot := fun _ => Ok tt;
  env_webpush := fun _ _ => Ok tt;
  env_now := fun _ => Datetime.mk 2025 6 1 12 0 0 0;
  json_endpoint := simple_json_endpoint;
  urlparse := simple_urlparse;
  int_of_str := decimal_int
|}.

(** A store with the one subscription for fees at Cary. *)
Definition one_subscriber : Database.t := Database.mk [fees_at_cary] [].













(** The comparison of two field tuples, as a [comparison]. *)
Fixpoint lex_compare (a b : list Z) : comparison :=
  match a, b with
  | x :: a', y :: b' =>
      match Z.compare x y with
      | Eq => lex_compare a' b'
      | c => c
      end
  | _, _ => Eq
  end.






(** What [month_and_day] has to deliver for day [n] of a year: a month,
    a day of that month, and [n] days before it (the tables are those of
    [days_in_month] and [days_before_month]). *)
Definition month_and_day_ok (leapyear : bool) (n : Z) : bool :=
  let '(m, d) := Datetime.month_and_day leapyear n in
  ((1 <=? m) && (m <=? 12) && (1 <=? d)
   && (d <=? (if (m =? 2) && leapyear then 29
              else nth (Z.to_nat m)
                       [0; 31; 28; 31; 30; 31; 30; 31; 31; 30; 31; 30; 31] 0))
   && (nth (Z.to_nat m) Datetime.DAYS_BEFORE_MONTH 0
       + (if (2 <? m) && leapyear then 1 else 0) + d =? n + 1))%Z.



(** Two subscriptions around the cutoff of a purge at noon of 4 June
    2025 with the configured 72 hours: one created a second after the
    cutoff, one a second before it. *)
Definition purge_time : Datetime.t := Datetime.mk 2025 6 4 12 0 0 0.

Definition created_after_cutoff : Datetime.t := Datetime.mk 2025 6 1 12 0 1 0.

Definition created_before_cutoff : Datetime.t :=
  Datetime.mk 2025 6 1 11 59 59 0.

Definition subscribed_at (user : string) (created : Datetime.t)
    : Database.subscription := {|
  Database.user_id := user;
  Database.push_subscription :=
    descriptor "https://fcm.googleapis.com/fcm/send/abc";
  Database.categories := ["fees"];
  Database.locations := ["Cary"];
  Database.date_range_days := 14;
  Database.created_at := Datetime.isoformat created;
  Database.last_notification_sent := None;
  Database.updated_at := Datetime.isoformat created
|}.

Definition two_subscribers : Database.t :=
  Database.mk [subscribed_at "old" created_before_cutoff;
               subscribed_at "young" created_after_cutoff] [].

(** An environment whose clock shows a given time. *)
Definition at_time (E : environment) (time : Datetime.t) : environment := {|
  env_is_visible := env_is_visible E;
  env_wait_for := env_wait_for E;
  env_click := env_click E;
  env_content := env_content E;
  env_count := env_count E;
  env_inner_text := env_inner_text E;
  env_go_back := env_go_back E;
  env_goto := env_goto E;
  env_is_closed := env_is_closed E;
  env_page_screenshot := env_page_screenshot E;
  env_webpush := env_webpush E;
  env_now := fun _ => time;
  json_endpoint := json_endpoint E;
  urlparse := urlparse E;
  int_of_str := int_of_str E
|}.

Definition purge_env : environment := at_time open_slot_env purge_time.

(** The same site with a next month to go to; each month shows the one
    bookable day. *)
Definition two_month_env : environment := {|
  env_is_visible := env_is_visible open_slot_env;
  env_wait_for := env_wait_for open_slot_env;
  env_click := env_click open_slot_env;
  env_content := env_content open_slot_env;
  env_count := fun t l =>
    match l with
    | Css _ => Ok 1%Z
    | _ => env_count open_slot_env t l
    end;
  env_inner_text := fun t l =>
    match l with
    | First (Css s) =>
        if String.eqb s ".ui-datepicker-month"
        then (if (1 <=? next_month_clicks t)%nat then Ok "July" else Ok "June")
        else Ok "2025"
    | _ => env_inner_text open_slot_env t l
    end;
  env_go_back := env_go_back open_slot_env;
  env_goto := env_goto open_slot_env;
  env_is_closed := env_is_closed open_slot_env;
  env_page_screenshot := env_page_screenshot open_slot_env;
  env_webpush := env_webpush open_slot_env;
  env_now := env_now open_slot_env;
  json_endpoint := json_endpoint open_slot_env;
  urlparse := urlparse open_slot_env;
  int_of_str := int_of_str open_slot_env
|}.

(** The same calendar with a next-month control that cannot be clicked:
    every [click()] times out. *)
Definition stuck_control_env : environment := {|
  env_is_visible := env_is_visible two_month_env;
  env_wait_for := env_wait_for two_month_env;
  env_click := fun t l timeout =>
    match l with
    | First (Css _) => Raise PlaywrightTimeoutError
    | _ => env_click two_month_env t l timeout
    end;
  env_content := env_content two_month_env;
  env_count := env_count two_month_env;
  env_inner_text := env_inner_text two_month_env;
  env_go_back := env_go_back two_month_env;
  env_goto := env_goto two_month_env;
  env_is_closed := env_is_closed two_month_env;
  env_page_screenshot := env_page_screenshot two_month_env;
  env_webpush := env_webpush two_month_env;
  env_now := env_now two_month_env;
  json_endpoint := json_endpoint two_month_env;
  urlparse := urlparse two_month_env;
  int_of_str := int_of_str two_month_env
|}.

(** ** The other methods of [Database] ([database.py]) *)

Module Db.

Definition has_user (user_id : string) (s : Database.subscription) : bool :=
  String.eqb (Database.user_id s) user_id.

(** [get_subscription]: the [fetchone] of
    [SELECT * FROM subscriptions WHERE user_id = :user_id]. *)
Definition get_subscription (db : Database.t) (user_id : string)
    : option Database.subscription :=
  find (has_user user_id) (Database.subscriptions db).

(** What an [INTEGER] column takes: 64 bits, signed.  A larger [int] makes
    the binding of the parameter raise [OverflowError]. *)
Definition fits_integer (z : Z) : bool :=
  ((- 2 ^ 63 <=? z) && (z <? 2 ^ 63))%Z.

Definition not_null_push_subscription : string :=
  "NOT NULL constraint failed: subscriptions.push_subscription".
Definition int_too_large : string :=
  "Python int too large to convert to SQLite INTEGER".

(** [save_subscription].  [first_now] and [second_now] are the two readings
    of the clock; the first is taken only when the user has no row.
    [INSERT OR REPLACE] removes the row of the user, if any, and adds the
    new one at the end; the statement names seven columns, so
    [last_notification_sent] is [NULL] in the new row.  An exception, whose
    [what] is its text, leaves the table as it was ([rollback]). *)
Definition save_subscription (db : Database.t)
    (first_now second_now : Datetime.t) (user_id : string)
    (push_subscription : option string) (categories locations : list string)
    (date_range_days : Z) : result (Database.t * Database.subscription) :=
  let created_at :=
    match get_subscription db user_id with
    | Some subscription_row => Database.created_at subscription_row
    | None => Datetime.isoformat first_now
    end in
  let updated_at := Datetime.isoformat second_now in
  if negb (fits_integer date_range_days)
  then Raise (OtherException int_too_large)
  else
    match push_subscription with
    | None => Raise (OtherException not_null_push_subscription)
    | Some push =>
        let row :=
          Database.mkSubscription user_id push categories locations
                                  date_range_days created_at None updated_at in
        Ok (Database.mk
              (filter (fun s => negb (has_user user_id s))
                      (Database.subscriptions db) ++ [row])
              (Database.last_check db),
            row)
    end.

(** [delete_subscription]: the new table and [cursor.rowcount > 0]. *)
Definition delete_subscription (db : Database.t) (user_id : string)
    : Database.t * bool :=
  let kept := filter (fun s => negb (has_user user_id s))
                     (Database.subscriptions db) in
  (Database.mk kept (Database.last_check db),
   (0 <? Z.of_nat (length (Database.subscriptions db))
         - Z.of_nat (length kept))%Z).

Definition get_subscriptions_count (db : Database.t) : Z :=
  Z.of_nat (length (Database.subscriptions db)).

(** The order of [ORDER BY location_name, category]: the columns are
    [TEXT], compared byte by byte, the location first. *)
Definition row_leb (a b : Database.last_check_row) : bool :=
  match String.compare (Database.location_name a)
                       (Database.location_name b) with
  | Lt => true
  | Gt => false
  | Eq => String.leb (Database.category a) (Database.category b)
  end.

Fixpoint insert_row (r : Database.last_check_row)
    (rows : list Database.last_check_row) : list Database.last_check_row :=
  match rows with
  | [] => [r]
  | x :: rest => if row_leb r x then r :: rows else x :: insert_row r rest
  end.

(** [get_all_last_checks]: the rows of [last_check] in that order. *)
Definition get_all_last_checks (db : Database.t)
    : list Database.last_check_row :=
  fold_right insert_row [] (Database.last_check db).

End Db.

(** ** The endpoints of [api.py] *)

Module Endpoints.

(** What a handler answers: its return value, or an [HTTPException]. *)
Inductive response (A : Type) : Type :=
| Http200 (body : A)
| HTTPException (status_code : Z) (detail : string).
Arguments Http200 {A} body.
Arguments HTTPException {A} status_code detail.

Record SubscriptionRequest : Type := mkSubscriptionRequest {
  user_id : string;
  push_subscription : option string;
  categories : list string;
  locations : list string;
  date_range_days : Z
}.

Record SubscriptionResponse : Type := mkSubscriptionResponse {
  resp_user_id : string;
  resp_categories : list string;
  resp_locations : list string;
  resp_date_range_days : Z;
  resp_created_at : string
}.

(** [str(e)] *)
Definition str_of_exn (e : exn) : string :=
  match e with
  | OtherException what => what
  | _ => ""
  end.

Definition response_of (s : Database.subscription) : SubscriptionResponse :=
  mkSubscriptionResponse (Database.user_id s) (Database.categories s)
                         (Database.locations s) (Database.date_range_days s)
                         (Database.created_at s).

(** [not subscription.push_subscription] on an [Optional[str]]. *)
Definition no_push (push_subscription : option string) : bool :=
  match push_subscription with
  | None => true
  | Some s => String.eqb s ""
  end.

(** [POST /subscriptions] *)
Definition create_subscription (db : Database.t)
    (first_now second_now : Datetime.t) (subscription : SubscriptionRequest)
    : Database.t * response SubscriptionResponse :=
  if String.eqb (user_id subscription) ""
  then (db, HTTPException 400 "user_id is required")
  else match categories subscription with
  | [] => (db, HTTPException 400 "At least one category is required")
  | _ =>
  if no_push (push_subscription subscription)
  then (db, HTTPException 400 "push_subscription is required")
  else match locations subscription with
  | [] => (db, HTTPException 400 "At least one location is required")
  | _ =>
      match Db.save_subscription db first_now second_now
              (user_id subscription) (push_subscription subscription)
              (categories subscription) (locations subscription)
              (date_range_days subscription) with
      | Ok (db', result) => (db', Http200 (response_of result))
      | Raise e =>
          (db, HTTPException 500
                 ("Internal server error: " ++ str_of_exn e)%string)
      end
  end
  end.

(** [GET /subscriptions/{user_id}] *)
Definition get_subscription (db : Database.t) (user_id : string)
    : response SubscriptionResponse :=
  match Db.get_subscription db user_id with
  | None => HTTPException 404 "Subscription not found"
  | Some subscription => Http200 (response_of subscription)
  end.

(** [DELETE /subscriptions/{user_id}] *)
Definition delete_subscription (db : Database.t) (user_id : string)
    : Database.t * response string :=
  let (db', success) := Db.delete_subscription db user_id in
  if success then (db', Http200 "Subscription deleted successfully")
  else (db', HTTPException 404 "Subscription not found").

(** [require_admin]: the header against the variable [ADMIN_TOKEN] of the
    process environment; either may be missing. *)
Definition require_admin (x_admin_token admin_token : option string)
    : response unit :=
  match x_admin_token, admin_token with
  | None, None => Http200 tt
  | Some given, Some expected =>
      if String.eqb given expected then Http200 tt
      else HTTPException 401 "Unauthorized"
  | _, _ => HTTPException 401 "Unauthorized"
  end.

(** The two answers of the clean-up. *)
Inductive cleanup_message : Type :=
| CleanupCompleted (removed_count : Z)
| NoOldSubscriptions.

(** [POST /maintenance/cleanup-old-subscriptions], behind
    [require_admin]. *)
Definition cleanup_old_subscriptions (db : Database.t) (now : Datetime.t)
    (x_admin_token admin_token : option string) (max_age_hours : Z)
    : Database.t * response cleanup_message :=
  match require_admin x_admin_token admin_token with
  | HTTPException status_code detail => (db, HTTPException status_code detail)
  | Http200 _ =>
      match Database.remove_old_subscriptions db now max_age_hours with
      | Some (db', removed) =>
          (db', Http200 (if (0 <? removed)%Z then CleanupCompleted removed
                         else NoOldSubscriptions))
      | None => (db, HTTPException 500 "Cleanup failed")
      end
  end.

Record AvailabilityItem : Type := mkAvailabilityItem {
  item_category : string;
  item_location_name : string;
  slots_count : Z;
  item_last_checked : string
}.

(** [GET /availability] *)
Definition get_availability (db : Database.t) : list AvailabilityItem :=
  map (fun item =>
         mkAvailabilityItem (Database.category item)
                            (Database.location_name item)
                            (Database.has_slots item)
                            (Database.last_checked item))
      (Db.get_all_last_checks db).

Definition test_title : string := "DMV Monitor Test".
Definition test_body : string :=
  "Your notifications are working! You will receive alerts here when DMV appointments become available.".

Definition test_url : string :=
  "https://skiptheline.ncdot.gov/Webapp/Appointment/Index/a7ade79b-996d-4971-8766-97feb75254de".

(** [POST /subscriptions/{user_id}/test] *)
Definition test_notification (E : environment) (keys : Api.vapid)
    (db : Database.t) (user_id : string) : M (response string) :=
  match Db.get_subscription db user_id with
  | None => ret (HTTPException 404 "Subscription not found")
  | Some subscription =>
      try_except
        (success <- Api.send_push_notification E keys (Some subscription)
                                               test_title test_body
                                               test_url ;;
         if success : bool
         then ret (Http200 "Test notification sent successfully")
         else ret (HTTPException 500 "Failed to send notification"))
        (fun _ => ret (HTTPException 500 "Failed to send test notification"))
  end.

End Endpoints.

(** ** Reading the subscription table *)

(** The [PRIMARY KEY] of [subscriptions]. *)
Definition unique_users (db : Database.t) : Prop :=
  NoDup (map Database.user_id (Database.subscriptions db)).

(** What the validation of [POST /subscriptions] asks of a subscription. *)
Definition complete (s : Database.subscription) : bool :=
  negb (String.eqb (Database.user_id s) "")
  && negb (String.eqb (Database.push_subscription s) "")
  && (0 <? length (Database.categories s))%nat
  && (0 <? length (Database.locations s))%nat.

Definition is_200 {A} (r : Endpoints.response A) : bool :=
  match r with Endpoints.Http200 _ => true | _ => false end.

Definition status_of {A} (r : Endpoints.response A) : Z :=
  match r with
  | Endpoints.Http200 _ => 200
  | Endpoints.HTTPException status_code _ => status_code
  end.

(** ** Examples for the subscription table *)

Definition mozilla_push : string :=
  descriptor "https://updates.push.services.mozilla.com/wpush/v2/xyz".

(** The older of the two subscribers saves again at the time of the
    purge. *)
Definition renewed : Database.t * Database.subscription :=
  match Db.save_subscription two_subscribers purge_time purge_time "old"
          (Some mozilla_push) ["fees"; "permits"] ["Cary"] 30 with
  | Ok saved => saved
  | Raise _ => (two_subscribers, subscribed_at "old" created_before_cutoff)
  end.

(** The purge of the two subscribers, three days after they were created. *)
Definition purged : Database.t * Z :=
  match Database.remove_old_subscriptions two_subscribers purge_time 72 with
  | Some r => r
  | None => (two_subscribers, 0%Z)
  end.

(** ** More on the snapshot table *)

(** The rows a write for a category and a list of locations does not
    address. *)
Definition untouched (cat : string) (locs : list string)
    (r : Database.last_check_row) : bool :=
  negb (String.eqb (Database.category r) cat
        && Py.list_in (Database.location_name r) locs).

(** The [INTEGER PRIMARY KEY] of [last_check]. *)
Definition unique_ids (rows : list Database.last_check_row) : Prop :=
  NoDup (map Database.id rows).

(** A snapshot from an earlier scan: slots at Cary for fees, none for
    permits. *)
Definition earlier_snapshot : Database.t :=
  Database.mk []
    [ Database.mkLastCheck 1 "fees" "Cary" 3 "2025-06-01T08:00:00";
      Database.mkLastCheck 2 "permits" "Cary" 0 "2025-06-01T08:05:00" ].


(** ** What a computation can end with *)

(** Every value the computation returns satisfies [P], every exception it
    raises satisfies [Q], whatever the trace it starts from. *)
Definition outcomes {A} (P : A -> Prop) (Q : exn -> Prop) (m : M A) : Prop :=
  forall t, match fst (m t) with
            | Ok a => P a
            | Raise e => Q e
            end.

Definition anything {A} (a : A) : Prop := True.
Definition nothing {A} (a : A) : Prop := False.

(** The two exceptions of the monitor's own. *)
Definition restart_or_server_error (e : exn) : Prop :=
  e = RestartRequiredException \/ e = ServerErrorException.

Definition is_page_screenshot (ev : event) : bool :=
  match ev with EvPageScreenshot _ => true | _ => false end.

(** A computation adds at most [n] events of a kind to the trace. *)
Definition at_most {A} (p : event -> bool) (n : nat) (m : M A) : Prop :=
  forall t, exists new, snd (m t) = new ++ t /\ (count_events p new <= n)%nat.


(** ** The shape of what the calendar walk returns *)

(** A text of the drop-down that is kept as a time. *)
Definition kept_time (s : string) : Prop := s <> "" /\ s <> "-".

(** Distinct dates, each with at least one time. *)
Definition well_formed_slots (d : Py.dict (list string)) : Prop :=
  NoDup (map fst d)
  /\ Forall (fun kv => snd kv <> [] /\ Forall kept_time (snd kv)) d.

(** A push message the gateway accepted. *)
Definition is_accepted_push (ev : event) : bool :=
  match ev with EvWebpush _ (Ok _) => true | _ => false end.


(** ** What a scan keeps of the store *)

(** The subscriptions are the same, the key constraints of the snapshot
    table still hold if they held, and no row of it has gone. *)
Definition store_kept (db db' : Database.t) : Prop :=
  Database.subscriptions db' = Database.subscriptions db
  /\ (unique_keys (Database.last_check db) ->
      unique_keys (Database.last_check db'))
  /\ (unique_ids (Database.last_check db) ->
      unique_ids (Database.last_check db'))
  /\ (forall cat loc,
        (count_rows cat loc (Database.last_check db)
         <= count_rows cat loc (Database.last_check db'))%nat).

(** One cycle on the site with the open slot at Cary, at the time of the
    purge, and the store it leaves. *)
Definition example_cycle : result Database.t * trace :=
  run_cycle purge_env Config.default two_subscribers [].

Definition store_after_cycle : Database.t :=
  match fst example_cycle with
  | Ok db => db
  | Raise _ => two_subscribers
  end.


(** ** How a scan of the locations can fail *)

(** [go_back] turns a timeout of the browser into the request for a
    restart. *)
Definition restart_on_timeout (e : exn) : exn :=
  match e with
  | PlaywrightTimeoutError => RestartRequiredException
  | _ => e
  end.

(** The trace ends with a failed way back: with the navigation itself, or
    with the wait for the page it should lead to. *)
Definition way_back_failed (e : exn) (t : trace) : Prop :=
  match t with
  | EvGoBack (Raise e0) :: _ => e = restart_on_timeout e0
  | EvWaitFor _ WaitVisible 15000 (Raise e0) :: EvGoBack (Ok _) :: _ =>
      e = restart_on_timeout e0
  | _ => False
  end.

(** The trace ends with a failed count of a location's panel. *)
Definition count_failed (e : exn) (t : trace) : Prop :=
  match t with
  | EvCount (First (CssHasText _ _)) (Raise e0) :: _ => e = e0
  | _ => False
  end.

(** A site where every location is offered but nothing can be entered,
    and from which there is no way back. *)
Definition no_way_back_env : environment :=
  scripted_env (Ok false) (Raise PlaywrightTimeoutError) (Ok tt)
               (fun _ => Ok "<html></html>") (fun _ => Ok 1%Z)
               (fun _ => Ok "") (Raise PlaywrightTimeoutError) (Ok tt).

Definition failed_scan : result Database.t * trace :=
  check_locations no_way_back_env Config.default one_subscriber "Fees" [].


(** A wait for the loading indicator. *)
Definition is_spinner_wait (ev : event) : bool :=
  match ev with
  | EvWaitFor (Css selector) (WaitVisible | WaitHidden) _ _ =>
      match spinner with
      | Css loader => String.eqb selector loader
      | _ => false
      end
  | _ => false
  end.


(** ** Reading the availability listing *)

Definition row_of_item (item : Endpoints.AvailabilityItem)
    : Database.last_check_row :=
  Database.mkLastCheck 0 (Endpoints.item_category item)
                       (Endpoints.item_location_name item)
                       (Endpoints.slots_count item)
                       (Endpoints.item_last_checked item).

(** One item comes before another: by location, then by category. *)
Definition item_leb (a b : Endpoints.AvailabilityItem) : bool :=
  Db.row_leb (row_of_item a) (row_of_item b).

Definition item_of_row (r : Database.last_check_row)
    : Endpoints.AvailabilityItem :=
  Endpoints.mkAvailabilityItem (Database.category r) (Database.location_name r)
                               (Database.has_slots r) (Database.last_checked r).


(** ** [DMVMonitor.run]: the browser, its contexts and the cycles *)

(** What [run] does with the browser besides driving the page. *)
Inductive browser_event : Type :=
| EvLaunch (r : result unit)
| EvNewContext (r : result unit)
| EvNewPage (r : result unit)
| EvContextClose (r : result unit)
| EvBrowserClose (r : result unit)
| EvSleep (seconds : Z).

(** The browser process: like the page, it answers depending on what
    happened to it so far (newest first). *)
Record browser : Type := mkBrowser {
  br_launch : list browser_event -> result unit;
  br_new_context : list browser_event -> result unit;
  br_new_page : list browser_event -> result unit;
  br_context_close : list browser_event -> result unit;
  br_close : list browser_event -> result unit
}.

(** The store on disk, the interactions with the pages and those with the
    browser. *)
Record monitor_state : Type := mkState {
  store : Database.t;
  page_trace : trace;
  browser_log : list browser_event
}.

Section Run.
Variable E : environment.
Variable cfg : Config.t.
Variable B : browser.

(** The store as the loop of [check_category] leaves it, however the loop
    ends: every snapshot is committed when it is written, so a failure
    later in the scan does not take it back. *)
Fixpoint written_by_scan (db : Database.t) (cats : list string) (t : trace)
    : Database.t :=
  match cats with
  | [] => db
  | category :: rest =>
      match try_category E cfg db category t with
      | (Ok attempt, t1) =>
          if snd attempt : bool
          then written_by_scan (fst attempt) rest t1
          else
            match (take_screenshot E cfg ;;; enter_category_selection E cfg)
                    t1 with
            | (Ok _, t2) => written_by_scan (fst attempt) rest t2
            | (Raise _, _) => fst attempt
            end
      | (Raise _, _) => db
      end
  end.

(** The store after the purge and the scan of one cycle, however the scan
    ends. *)
Definition written_by_cycle (db : Database.t) (t : trace) : Database.t :=
  let db1 := fst (remove_old_subscriptions cfg db (env_now E t)) in
  match enter_category_selection E cfg t with
  | (Ok _, t1) => written_by_scan db1 (Config.categories cfg) t1
  | (Raise _, _) => db1
  end.

(** [try: await context.close()  except Exception: pass] *)
Definition close_context (log : list browser_event) : list browser_event :=
  EvContextClose (br_context_close B log) :: log.

(** One pass of the inner loop (lines 729-764), and whether the loop goes
    on.  After an exception the context, if there is one, is closed by the
    handler and again by the [finally]. *)
Definition cycle (s : monitor_state) : monitor_state * bool :=
  let r1 := br_new_context B (browser_log s) in
  let log1 := EvNewContext r1 :: browser_log s in
  match r1 with
  | Raise _ => (mkState (store s) (page_trace s) (EvSleep 2 :: log1), false)
  | Ok _ =>
      let r2 := br_new_page B log1 in
      let log2 := EvNewPage r2 :: log1 in
      match r2 with
      | Raise _ =>
          (mkState (store s) (page_trace s)
                   (EvSleep 2 :: close_context (close_context log2)), false)
      | Ok _ =>
          let run := run_cycle E cfg (store s) (page_trace s) in
          match fst run with
          | Ok db =>
              (mkState db (snd run) (EvSleep 2 :: close_context log2), true)
          | Raise _ =>
              (mkState (written_by_cycle (store s) (page_trace s)) (snd run)
                       (EvSleep 2 :: close_context (close_context log2)),
               false)
          end
      end
  end.

(** [while cycles_count < max_cycles]: the counter goes up by one in every
    pass that does not leave the loop. *)
Fixpoint cycles (remaining : nat) (s : monitor_state) : monitor_state :=
  match remaining with
  | O => s
  | S n =>
      let (s1, again) := cycle s in
      if again : bool then cycles n s1 else s1
  end.

(** One pass of the outer loop (lines 721-778): a browser from launch to
    close. *)
Definition browser_session (s : monitor_state) : monitor_state :=
  let r := br_launch B (browser_log s) in
  let log0 := EvLaunch r :: browser_log s in
  match r with
  | Raise _ => mkState (store s) (page_trace s) (EvSleep 5 :: log0)
  | Ok _ =>
      let s1 := cycles (Z.to_nat (Config.max_cycles_before_restart cfg))
                       (mkState (store s) (page_trace s) log0) in
      mkState (store s1) (page_trace s1)
              (EvSleep 5 :: EvBrowserClose (br_close B (browser_log s1))
                 :: browser_log s1)
  end.

(** The first [n] passes of [while True]. *)
Fixpoint run (n : nat) (s : monitor_state) : monitor_state :=
  match n with
  | O => s
  | S n' => run n' (browser_session s)
  end.

End Run.

(** Counting in the log of the browser. *)
Definition count_log (p : browser_event -> bool) (log : list browser_event)
    : nat :=
  length (filter p log).

Definition is_new_context (ev : browser_event) : bool :=
  match ev with EvNewContext _ => true | _ => false end.
Definition is_context_opened (ev : browser_event) : bool :=
  match ev with EvNewContext (Ok _) => true | _ => false end.
Definition is_context_close (ev : browser_event) : bool :=
  match ev with EvContextClose _ => true | _ => false end.
Definition is_launched (ev : browser_event) : bool :=
  match ev with EvLaunch (Ok _) => true | _ => false end.
Definition is_browser_close (ev : browser_event) : bool :=
  match ev with EvBrowserClose _ => true | _ => false end.

(** What the monitor may do to the store: remove subscriptions and write
    snapshots, keeping the key constraints. *)
Definition store_evolves (db db' : Database.t) : Prop :=
  (forall s, In s (Database.subscriptions db') ->
             In s (Database.subscriptions db))
  /\ (unique_users db -> unique_users db')
  /\ (unique_keys (Database.last_check db) ->
      unique_keys (Database.last_check db'))
  /\ (unique_ids (Database.last_check db) ->
      unique_ids (Database.last_check db'))
  /\ (forall cat loc,
        (count_rows cat loc (Database.last_check db)
         <= count_rows cat loc (Database.last_check db'))%nat).

(** What a stretch of the browser's log shows when at most [n] contexts
    were asked for, every context that was opened was closed, once or
    twice, and the browser was closed as often as it was launched. *)
Definition supervised (n : nat) (new : list browser_event) : Prop :=
  (count_log is_new_context new <= n)%nat
  /\ (count_log is_context_opened new <= count_log is_context_close new)%nat
  /\ (count_log is_context_close new
      <= 2 * count_log is_context_opened new)%nat
  /\ count_log is_browser_close new = count_log is_launched new.

Definition is_launch (ev : browser_event) : bool :=
  match ev with EvLaunch _ => true | _ => false end.

(** A browser that works, and one whose second context cannot be
    opened. *)
Definition steady_browser : browser :=
  mkBrowser (fun _ => Ok tt) (fun _ => Ok tt) (fun _ => Ok tt)
            (fun _ => Ok tt) (fun _ => Ok tt).

Definition start_state : monitor_state := mkState two_subscribers [] [].


(** ** What a successful click has seen *)

(** The trace ends with the evidence [safe_click] returns [True] on: the
    expected element was visible before any click, or the click went
    through and, when something is expected, the wait for it did too. *)
Definition click_evidence (click_locator : locator)
    (expected_locator : option locator) (t : trace) : Prop :=
  match expected_locator, t with
  | Some el, EvIsVisible l 3000 (Ok true) :: _ => l = el
  | Some el, EvWaitFor l WaitDefault 5000 (Ok _) :: EvClick c 5000 (Ok _) :: _ =>
      l = el /\ c = click_locator
  | None, EvClick c 5000 (Ok _) :: _ => c = click_locator
  | _, _ => False
  end.

(** ** A subscription from the endpoint to the monitor *)

Definition example_request : Endpoints.SubscriptionRequest :=
  Endpoints.mkSubscriptionRequest "new" (Some mozilla_push)
                                  ["fees"; "permits"] ["Cary"] 14.

Definition subscribed : Database.t * Endpoints.response
                                       Endpoints.SubscriptionResponse :=
  Endpoints.create_subscription two_subscribers purge_time purge_time
                                example_request.

(** * Properties *)

(** ** The trace monad *)

Lemma bind_ok {A B} (m : M A) (k : A -> M B) t a t1 :
  m t = (Ok a, t1) -> bind m k t = k a t1.
Proof. unfold bind; intros ->; reflexivity. Qed.

Lemma bind_raise {A B} (m : M A) (k : A -> M B) t e t1 :
  m t = (Raise e, t1) -> bind m k t = (Raise e, t1).
Proof. unfold bind; intros ->; reflexivity. Qed.

Lemma try_except_ok {A} (m : M A) h t a t1 :
  m t = (Ok a, t1) -> try_except m h t = (Ok a, t1).
Proof. unfold try_except; intros ->; reflexivity. Qed.

Lemma try_except_raise {A} (m : M A) h t e t1 :
  m t = (Raise e, t1) -> try_except m h t = h e t1.
Proof. unfold try_except; intros ->; reflexivity. Qed.

Lemma count_events_cons p ev t :
  count_events p (ev :: t) = ((if p ev then 1 else 0) + count_events p t)%nat.
Proof. unfold count_events; simpl; destruct (p ev); reflexivity. Qed.

(** ** [take_screenshot] *)

(** It always returns, and counts as exactly one request. *)
Lemma take_screenshot_returns E cfg t :
  exists t', take_screenshot E cfg t = (Ok tt, t')
             /\ screenshot_requests t' = S (screenshot_requests t).
Proof.
  unfold take_screenshot.
  destruct (Config.screenshot_switch cfg); simpl.
  - unfold try_except, bind, is_closed, page_screenshot, call, ret.
    destruct (env_is_closed E (EvTakeScreenshot :: t)) as [[|]|e]; simpl.
    + eexists; split; [reflexivity|].
      unfold screenshot_requests; rewrite !count_events_cons; reflexivity.
    + destruct (env_page_screenshot E _) as [[]|e];
        (eexists; split; [reflexivity|]);
        unfold screenshot_requests; rewrite !count_events_cons; reflexivity.
    + eexists; split; [reflexivity|].
      unfold screenshot_requests; rewrite !count_events_cons; reflexivity.
  - eexists; split; [reflexivity|].
    unfold screenshot_requests; rewrite !count_events_cons; reflexivity.
Qed.

(** ** [safe_click] *)

Lemma range_pos_cons n :
  (0 < n)%Z -> Py.range n = 0%Z :: map Z.of_nat (seq 1 (Z.to_nat n - 1)).
Proof.
  intros H. unfold Py.range.
  destruct (Z.to_nat n) as [|k] eqn:Hk; [lia|].
  simpl. rewrite Nat.sub_0_r. reflexivity.
Qed.

(** C8.  When [safe_click] is given an expected state and that state is
    already visible when the first attempt starts, the call returns [True]
    at once: the only interaction with the page is the visibility check,
    and no element is clicked. *)
Theorem safe_click_already_satisfied E cfg tg expected_text timeout max_attempts
    el t :
  (0 < max_attempts)%Z ->
  expected_locator_of (Some expected_text) = Some el ->
  env_is_visible E t el 3000 = Ok true ->
  safe_click E cfg tg (Some expected_text) timeout max_attempts t
  = (Ok true, EvIsVisible el 3000 (Ok true) :: t)
  /\ clicks (snd (safe_click E cfg tg (Some expected_text) timeout
                             max_attempts t)) = clicks t.
Proof.
  intros Hpos Hel Hvis.
  assert (Hrun : safe_click E cfg tg (Some expected_text) timeout max_attempts t
                 = (Ok true, EvIsVisible el 3000 (Ok true) :: t)).
  { unfold safe_click. rewrite (range_pos_cons _ Hpos), Hel. simpl.
    cbv [try_except bind safe_click_try is_visible call ret].
    rewrite Hvis. reflexivity. }
  split; [exact Hrun|].
  rewrite Hrun. simpl. unfold clicks. rewrite count_events_cons. reflexivity.
Qed.

Lemma safe_click_already_satisfied_witness :
  safe_click settled_page_env Config.default (TargetStr "Fees")
             (Some "Select a Location") 15000 3 []
  = (Ok true,
     [EvIsVisible (First (ByText "Select a Location")) 3000 (Ok true)])
  /\ clicks (snd (safe_click settled_page_env Config.default (TargetStr "Fees")
                             (Some "Select a Location") 15000 3 [])) = clicks [].
Proof.
  apply (safe_click_already_satisfied settled_page_env Config.default
           (TargetStr "Fees") "Select a Location" 15000 3
           (First (ByText "Select a Location")) []);
    [lia | reflexivity | reflexivity].
Defined.

(** The attempts never ask for a screenshot themselves. *)
Lemma safe_click_try_screenshots E cl el timeout t r t1 :
  safe_click_try E cl el timeout t = (r, t1) ->
  screenshot_requests t1 = screenshot_requests t.
Proof.
  unfold safe_click_try, bind, try_except, is_visible, wait_for, click, call,
         ret, raise.
  intros H.
  destruct el as [el|].
  - destruct (env_is_visible E t el 3000) as [[|]|e] eqn:Hv;
      [ injection H as <- <-; reflexivity | | injection H as <- <-; reflexivity ].
    destruct (env_wait_for E _ cl WaitVisible timeout) as [[]|e];
      [ | injection H as <- <-; reflexivity ].
    destruct (env_click E _ cl 5000) as [[]|e];
      [ | injection H as <- <-; reflexivity ].
    destruct (env_wait_for E _ el WaitDefault 5000) as [[]|e];
      injection H as <- <-; reflexivity.
  - destruct (env_wait_for E _ cl WaitVisible timeout) as [[]|e];
      [ | injection H as <- <-; reflexivity ].
    destruct (env_click E _ cl 5000) as [[]|e];
      injection H as <- <-; reflexivity.
Qed.

Lemma attempt_fails_screenshots E cl el timeout t b t1 :
  attempt_fails E cl el timeout t = Some (b, t1) ->
  screenshot_requests t1 = screenshot_requests t.
Proof.
  unfold attempt_fails.
  destruct (safe_click_try E cl el timeout t) as [[a|e] t0] eqn:Htry;
    [discriminate|].
  intros H; injection H as _ <-.
  unfold screenshot_requests; rewrite count_events_cons; simpl.
  apply (safe_click_try_screenshots _ _ _ _ _ _ _ Htry).
Qed.

Lemma quiet_failures_screenshots E cl el timeout n : forall t t1,
  quiet_failures E cl el timeout n t = Some t1 ->
  screenshot_requests t1 = screenshot_requests t.
Proof.
  induction n as [|n IH]; simpl; intros t t1 H.
  - injection H as <-; reflexivity.
  - destruct (attempt_fails E cl el timeout t) as [[[|] t0]|] eqn:Ha;
      try discriminate.
    rewrite (IH _ _ H). eapply attempt_fails_screenshots; eassumption.
Qed.

(** What one iteration of the loop does when its attempt fails. *)
Lemma safe_click_attempts_failed E cfg cl el timeout max_attempts attempt rest
    t b t1 :
  attempt_fails E cl el timeout t = Some (b, t1) ->
  safe_click_attempts E cfg cl el timeout max_attempts (attempt :: rest) t
  = if b then (Raise ServerErrorException, t1)
    else if (attempt =? max_attempts - 1)%Z
         then (Raise RestartRequiredException, snd (take_screenshot E cfg t1))
         else safe_click_attempts E cfg cl el timeout max_attempts rest t1.
Proof.
  unfold attempt_fails. simpl.
  destruct (safe_click_try E cl el timeout t) as [[a|e] t0] eqn:Htry;
    [discriminate|].
  intros H; injection H as <- <-.
  unfold bind at 1. unfold try_except at 1. unfold bind at 1. rewrite Htry.
  unfold safe_click_except, bind, try_except, content, call, ret, raise.
  destruct (env_content E t0) as [page|e'].
  - destruct (Py.str_in error_banner page); [reflexivity|].
    destruct (attempt =? max_attempts - 1)%Z; [|reflexivity].
    destruct (take_screenshot_returns E cfg (EvContent (Ok page) :: t0))
      as (t' & -> & _).
    reflexivity.
  - simpl.
    destruct (attempt =? max_attempts - 1)%Z; [|reflexivity].
    destruct (take_screenshot_returns E cfg (EvContent (Raise e') :: t0))
      as (t' & -> & _).
    reflexivity.
Qed.

Lemma safe_click_attempts_exhausted E cfg cl el timeout max_attempts n :
  forall a t t1,
  max_attempts = Z.of_nat (a + S n) ->
  quiet_failures E cl el timeout (S n) t = Some t1 ->
  safe_click_attempts E cfg cl el timeout max_attempts
                      (map Z.of_nat (seq a (S n))) t
  = (Raise RestartRequiredException, snd (take_screenshot E cfg t1)).
Proof.
  induction n as [|n IH]; intros a t t1 Hmax Hq.
  - simpl in Hq.
    destruct (attempt_fails E cl el timeout t) as [[[|] t0]|] eqn:Ha;
      try discriminate.
    injection Hq as <-.
    simpl map. rewrite (safe_click_attempts_failed _ _ _ _ _ _ _ _ _ _ _ Ha).
    replace (Z.of_nat a =? max_attempts - 1)%Z with true
      by (symmetry; apply Z.eqb_eq; lia).
    reflexivity.
  - change (quiet_failures E cl el timeout (S (S n)) t) with
      (match attempt_fails E cl el timeout t with
       | Some (false, t0) => quiet_failures E cl el timeout (S n) t0
       | _ => None
       end) in Hq.
    destruct (attempt_fails E cl el timeout t) as [[[|] t0]|] eqn:Ha;
      try discriminate.
    change (map Z.of_nat (seq a (S (S n))))
      with (Z.of_nat a :: map Z.of_nat (seq (S a) (S n))).
    rewrite (safe_click_attempts_failed _ _ _ _ _ _ _ _ _ _ _ Ha).
    replace (Z.of_nat a =? max_attempts - 1)%Z with false
      by (symmetry; apply Z.eqb_neq; lia).
    apply IH; [lia | exact Hq].
Qed.

Lemma safe_click_attempts_banner E cfg cl el timeout max_attempts k :
  forall a rest t tk t2,
  (Z.of_nat (a + k) < max_attempts)%Z ->
  quiet_failures E cl el timeout k t = Some tk ->
  attempt_fails E cl el timeout tk = Some (true, t2) ->
  safe_click_attempts E cfg cl el timeout max_attempts
                      (map Z.of_nat (seq a (S k)) ++ rest) t
  = (Raise ServerErrorException, t2).
Proof.
  induction k as [|k IH]; intros a rest t tk t2 Hlt Hq Hb.
  - simpl in Hq. injection Hq as <-.
    simpl app. rewrite (safe_click_attempts_failed _ _ _ _ _ _ _ _ _ _ _ Hb).
    reflexivity.
  - simpl in Hq.
    destruct (attempt_fails E cl el timeout t) as [[[|] t0]|] eqn:Ha;
      try discriminate.
    change (map Z.of_nat (seq a (S (S k))) ++ rest)
      with (Z.of_nat a :: (map Z.of_nat (seq (S a) (S k)) ++ rest)).
    rewrite (safe_click_attempts_failed _ _ _ _ _ _ _ _ _ _ _ Ha).
    replace (Z.of_nat a =? max_attempts - 1)%Z with false
      by (symmetry; apply Z.eqb_neq; lia).
    apply (IH (S a) rest t0 tk t2); [lia | exact Hq | exact Hb].
Qed.

(** With no attempt to make ([max_attempts <= 0]) the loop body never
    runs and the call returns [False] without touching the page. *)
Lemma safe_click_no_attempts E cfg tg expected_text timeout max_attempts t :
  (max_attempts <= 0)%Z ->
  safe_click E cfg tg expected_text timeout max_attempts t = (Ok false, t).
Proof.
  intros H. unfold safe_click, Py.range.
  replace (Z.to_nat max_attempts) with 0%nat by lia. reflexivity.
Qed.

(** C3.  For a call of [safe_click] that makes at least one attempt:
    if every one of the [max_attempts] attempts fails and the page read
    after each failure shows no error banner, the call raises
    [RestartRequiredException], and [take_screenshot] has been called
    exactly once, after the last failure and before the raise; if instead
    some attempt fails and the page read after it shows the banner (the
    earlier ones having failed without it), the call raises
    [ServerErrorException] right there: the trace ends with that page read,
    so nothing is retried and no screenshot is requested. *)
Theorem safe_click_failure_modes E cfg tg expected_text timeout max_attempts t :
  (0 < max_attempts)%Z ->
  (forall t1,
      quiet_failures E (click_locator_of tg) (expected_locator_of expected_text)
                     timeout (Z.to_nat max_attempts) t = Some t1 ->
      safe_click E cfg tg expected_text timeout max_attempts t
      = (Raise RestartRequiredException, snd (take_screenshot E cfg t1))
      /\ screenshot_requests (snd (take_screenshot E cfg t1))
         = S (screenshot_requests t))
  /\ (forall k tk t2,
         (k < Z.to_nat max_attempts)%nat ->
         quiet_failures E (click_locator_of tg)
                        (expected_locator_of expected_text) timeout k t
         = Some tk ->
         attempt_fails E (click_locator_of tg)
                       (expected_locator_of expected_text) timeout tk
         = Some (true, t2) ->
         safe_click E cfg tg expected_text timeout max_attempts t
         = (Raise ServerErrorException, t2)
         /\ screenshot_requests t2 = screenshot_requests t).
Proof.
  intros Hpos. split.
  - intros t1 Hq. split.
    + unfold safe_click, Py.range.
      destruct (Z.to_nat max_attempts) as [|n] eqn:Hn; [lia|].
      apply safe_click_attempts_exhausted; [lia | exact Hq].
    + destruct (take_screenshot_returns E cfg t1) as (t' & Ht & Hs).
      rewrite Ht. simpl. rewrite Hs. f_equal.
      eapply quiet_failures_screenshots; eassumption.
  - intros k tk t2 Hk Hq Hb. split.
    + unfold safe_click, Py.range.
      replace (Z.to_nat max_attempts)
        with (S k + (Z.to_nat max_attempts - S k))%nat by lia.
      rewrite seq_app, map_app.
      eapply safe_click_attempts_banner; [lia | exact Hq | exact Hb].
    + rewrite (attempt_fails_screenshots _ _ _ _ _ _ _ Hb).
      eapply quiet_failures_screenshots; eassumption.
Qed.

Lemma safe_click_failure_modes_witness :
  (exists t1,
      safe_click dead_page_env Config.default (TargetStr "Fees")
                 (Some "Select a Location") 15000 3 []
      = (Raise RestartRequiredException,
         snd (take_screenshot dead_page_env Config.default t1))
      /\ screenshot_requests
           (snd (take_screenshot dead_page_env Config.default t1)) = 1%nat)
  /\ (exists t2,
         safe_click banner_later_env Config.default (TargetStr "Fees")
                    (Some "Select a Location") 15000 3 []
         = (Raise ServerErrorException, t2)
         /\ screenshot_requests t2 = 0%nat).
Proof.
  split.
  - eexists.
    apply (proj1 (safe_click_failure_modes dead_page_env Config.default
                    (TargetStr "Fees") (Some "Select a Location") 15000 3 []
                    ltac:(lia))).
    vm_compute. reflexivity.
  - eexists.
    eapply (proj2 (safe_click_failure_modes banner_later_env Config.default
                     (TargetStr "Fees") (Some "Select a Location") 15000 3 []
                     ltac:(lia)) 1%nat).
    + vm_compute. lia.
    + cbv. reflexivity.
    + cbv. reflexivity.
Defined.

(** ** Silent computations *)

Lemma count_events_app p a b :
  count_events p (a ++ b) = (count_events p a + count_events p b)%nat.
Proof. unfold count_events. rewrite filter_app, length_app. reflexivity. Qed.

Lemma silent_ret {A} p (a : A) : silent p (ret a).
Proof. intros t; exists []; split; reflexivity. Qed.

Lemma silent_raise {A} p e : silent p (@raise A e).
Proof. intros t; exists []; split; reflexivity. Qed.

Lemma silent_bind {A B} p (m : M A) (k : A -> M B) :
  silent p m -> (forall a, silent p (k a)) -> silent p (bind m k).
Proof.
  intros Hm Hk t. unfold bind.
  destruct (Hm t) as (n1 & E1 & C1).
  destruct (m t) as [[a|e] t1]; simpl in E1; subst t1.
  - destruct (Hk a (n1 ++ t)) as (n2 & E2 & C2).
    exists (n2 ++ n1). rewrite E2, app_assoc, count_events_app. split; [reflexivity|lia].
  - exists n1. split; [reflexivity|assumption].
Qed.

Lemma silent_try_except {A} p (m : M A) h :
  silent p m -> (forall e, silent p (h e)) -> silent p (try_except m h).
Proof.
  intros Hm Hh t. unfold try_except.
  destruct (Hm t) as (n1 & E1 & C1).
  destruct (m t) as [[a|e] t1]; simpl in E1; subst t1.
  - exists n1. split; [reflexivity|assumption].
  - destruct (Hh e (n1 ++ t)) as (n2 & E2 & C2).
    exists (n2 ++ n1). rewrite E2, app_assoc, count_events_app. split; [reflexivity|lia].
Qed.

Lemma silent_call {A} p (ask : trace -> result A) ev :
  (forall r, p (ev r) = false) -> silent p (call ask ev).
Proof.
  intros H t. exists [ev (ask t)]. split; [reflexivity|].
  rewrite count_events_cons, H. reflexivity.
Qed.

Lemma silent_now p E : silent p (now E).
Proof. intros t; exists []; split; reflexivity. Qed.

Lemma silent_take_screenshot p E cfg :
  p EvTakeScreenshot = false ->
  (forall r, p (EvIsClosed r) = false) ->
  (forall r, p (EvPageScreenshot r) = false) ->
  silent p (take_screenshot E cfg).
Proof.
  intros H1 H2 H3 t. unfold take_screenshot.
  destruct (Config.screenshot_switch cfg); simpl.
  - assert (Hs : silent p
              (try_except
                 (closed <- is_closed E;; (if closed then ret tt else page_screenshot E))
                 (fun _ => ret tt))).
    { apply silent_try_except; [|intros; apply silent_ret].
      apply silent_bind; [apply silent_call; assumption|].
      intros [|]; [apply silent_ret | apply silent_call; assumption]. }
    destruct (Hs (EvTakeScreenshot :: t)) as (n & En & Cn).
    exists (n ++ [EvTakeScreenshot]). rewrite En, <- app_assoc. split; [reflexivity|].
    rewrite count_events_app, Cn, count_events_cons, H1. reflexivity.
  - exists [EvTakeScreenshot]. split; [reflexivity|].
    rewrite count_events_cons, H1. reflexivity.
Qed.

Lemma silent_safe_click_try p E cl el timeout :
  apart_from_safe_click p cl -> silent p (safe_click_try E cl el timeout).
Proof.
  intros (Hv & Hw & Hc & _). unfold safe_click_try.
  apply silent_bind.
  - destruct el; [|apply silent_ret].
    apply silent_try_except; [apply silent_call; intros; apply Hv|].
    intros; apply silent_raise.
  - intros [|]; [apply silent_ret|].
    apply silent_bind; [apply silent_call; intros; apply Hw|]. intros _.
    apply silent_bind; [apply silent_call; intros; apply Hc|]. intros _.
    apply silent_bind; [|intros; apply silent_ret].
    destruct el; [apply silent_call; intros; apply Hw | apply silent_ret].
Qed.

Lemma silent_safe_click_attempts p E cfg cl el timeout max_attempts attempts :
  apart_from_safe_click p cl ->
  silent p (safe_click_attempts E cfg cl el timeout max_attempts attempts).
Proof.
  intros Hp. induction attempts as [|attempt rest IH]; simpl.
  - apply silent_ret.
  - apply silent_bind.
    + apply silent_try_except.
      * apply silent_bind; [apply silent_safe_click_try; exact Hp|].
        intros; apply silent_ret.
      * intros e. unfold safe_click_except.
        destruct Hp as (_ & _ & _ & Hc & Hs1 & Hs2 & Hs3).
        apply silent_bind.
        -- apply silent_try_except; [apply silent_call; exact Hc|].
           intros; apply silent_ret.
        -- intros page. destruct (Py.str_in error_banner page);
             [apply silent_raise|].
           destruct (attempt =? max_attempts - 1)%Z; [|apply silent_ret].
           apply silent_bind; [apply silent_take_screenshot; assumption|].
           intros; apply silent_raise.
    + intros [b|]; [apply silent_ret | exact IH].
Qed.

Lemma silent_safe_click p E cfg tg expected_text timeout max_attempts :
  apart_from_safe_click p (click_locator_of tg) ->
  silent p (safe_click E cfg tg expected_text timeout max_attempts).
Proof. intros; unfold safe_click; apply silent_safe_click_attempts; assumption. Qed.

Lemma silent_wait_for_spinner p E a d :
  (forall l s tmo r, p (EvWaitFor l s tmo r) = false) ->
  silent p (wait_for_spinner E a d).
Proof.
  intros Hw. unfold wait_for_spinner.
  apply silent_bind.
  - apply silent_try_except.
    + apply silent_bind; [apply silent_call; intros; apply Hw|].
      intros; apply silent_ret.
    + intros []; try apply silent_raise; apply silent_ret.
  - intros [|]; [apply silent_call; intros; apply Hw | apply silent_ret].
Qed.


(** ** [check_slots]: the two-month horizon *)

Lemma calendar_event_free new :
  count_events calendar_event new = 0%nat ->
  month_reads new = 0%nat /\ next_month_click_calls new = 0%nat
  /\ next_month_clicks new = 0%nat.
Proof.
  unfold month_reads, next_month_click_calls, next_month_clicks.
  induction new as [|ev new IH]; [intros; repeat split|].
  rewrite !count_events_cons. unfold calendar_event at 1.
  assert (Hc : is_next_month_clicked ev = true -> is_next_month_click ev = true).
  { destruct ev as [| | l tmo r | | | | | | | | |]; simpl; try discriminate.
    destruct l as [| | | l | |]; try discriminate.
    destruct l; try discriminate. destruct r; [auto|discriminate]. }
  destruct (is_month_read ev), (is_next_month_click ev),
           (is_next_month_clicked ev); simpl; intros H; try discriminate;
    try (specialize (Hc eq_refl); discriminate); auto.
Qed.

Lemma apart_calendar_other cl :
  (forall tmo r, calendar_event (EvClick cl tmo r) = false) ->
  apart_from_safe_click calendar_event cl.
Proof. intros H; repeat split; auto. Qed.

Lemma count_events_weaken (p q : event -> bool) new :
  (forall ev, q ev = true -> p ev = true) ->
  count_events p new = 0%nat -> count_events q new = 0%nat.
Proof.
  intros Hqp. induction new as [|ev new IH]; [reflexivity|].
  rewrite !count_events_cons.
  destruct (q ev) eqn:Hq.
  - rewrite (Hqp _ Hq). discriminate.
  - destruct (p ev); [discriminate|]. exact IH.
Qed.

Lemma silent_weaken {A} (p q : event -> bool) (m : M A) :
  (forall ev, q ev = true -> p ev = true) -> silent p m -> silent q m.
Proof.
  intros Hqp Hm t. destruct (Hm t) as (new & En & Cn).
  exists new. split; [exact En|].
  exact (count_events_weaken p q new Hqp Cn).
Qed.

Lemma silent_read_times_walk E indices : forall times,
  silent beyond_day_walk (read_times E indices times).
Proof.
  induction indices as [|i rest IH]; intros times; simpl.
  - apply silent_ret.
  - apply silent_bind; [apply silent_call; reflexivity|].
    intros raw.
    destruct (String.eqb (Py.strip raw) "" || String.eqb (Py.strip raw) "-");
      apply IH.
Qed.

Lemma silent_read_days_walk E cfg month_text year_text indices : forall slots,
  silent beyond_day_walk (read_days E cfg month_text year_text indices slots).
Proof.
  induction indices as [|idx rest IH]; intros slots; simpl.
  - apply silent_ret.
  - apply silent_bind; [apply silent_call; reflexivity|].
    intros raw. destruct (int_of_str E (Py.strip raw)); [|apply silent_raise].
    apply silent_bind.
    { apply silent_safe_click. repeat split; reflexivity. }
    intros _. apply silent_bind; [apply silent_wait_for_spinner; reflexivity|].
    intros _. apply silent_bind; [apply silent_call; reflexivity|].
    intros n. apply silent_bind; [apply silent_read_times_walk|].
    intros [|x xs]; apply IH.
Qed.

Lemma silent_read_days E cfg month_text year_text indices slots :
  silent calendar_event (read_days E cfg month_text year_text indices slots).
Proof.
  apply (silent_weaken beyond_day_walk); [|apply silent_read_days_walk].
  intros ev H. unfold beyond_day_walk. rewrite H. reflexivity.
Qed.

Lemma beyond_calendar_walk ev :
  beyond_calendar ev = true -> beyond_day_walk ev = true.
Proof. intros H. unfold beyond_day_walk. rewrite H. apply orb_true_r. Qed.

Lemma silent_check_month_slots E cfg location :
  silent beyond_calendar (check_month_slots E cfg location).
Proof.
  unfold check_month_slots. apply silent_bind.
  - apply silent_try_except.
    + apply silent_bind; [apply silent_call; reflexivity|]. intros month_raw.
      apply silent_bind; [apply silent_call; reflexivity|].
      intros; apply silent_ret.
    + intros e. apply silent_bind; [apply silent_now|].
      intros; apply silent_ret.
  - intros header. apply silent_bind; [apply silent_call; reflexivity|].
    intros n. destruct (n =? 0)%Z; [apply silent_ret|].
    apply (silent_weaken beyond_day_walk);
      [exact beyond_calendar_walk | apply silent_read_days_walk].
Qed.

Lemma apart_beyond_calendar cl : apart_from_safe_click beyond_calendar cl.
Proof. repeat split; reflexivity. Qed.

Lemma silent_check_slots E cfg location :
  silent beyond_calendar (check_slots E cfg location).
Proof.
  unfold check_slots.
  apply silent_bind; [apply silent_wait_for_spinner; reflexivity|]. intros _.
  apply silent_bind; [apply silent_call; reflexivity|]. intros n.
  apply silent_bind; [apply silent_check_month_slots|]. intros cur.
  destruct (0 <? n)%Z; [|apply silent_ret].
  apply silent_bind; [apply silent_safe_click, apart_beyond_calendar|].
  intros _.
  apply silent_bind; [apply silent_wait_for_spinner; reflexivity|]. intros _.
  apply silent_bind; [apply silent_check_month_slots|].
  intros; apply silent_ret.
Qed.

Lemma silent_enter_and_extract E cfg location :
  silent beyond_calendar (enter_and_extract E cfg location).
Proof.
  unfold enter_and_extract.
  apply silent_bind; [apply silent_safe_click, apart_beyond_calendar|].
  intros _. apply silent_check_slots.
Qed.

Lemma silent_slots_or_empty E cfg location :
  silent beyond_calendar (slots_or_empty E cfg location).
Proof.
  unfold slots_or_empty.
  apply silent_try_except; [apply silent_enter_and_extract|].
  intros e.
  assert (Hshot : silent beyond_calendar
                    (take_screenshot E cfg ;;;
                     ret ([] : Py.dict (list string)))).
  { apply silent_bind; [|intros; apply silent_ret].
    apply silent_take_screenshot; reflexivity. }
  destruct e; try exact Hshot. apply silent_ret.
Qed.

(** The first thing [_check_month_slots] does is to read the month
    header; nothing after that reads a month or touches the next-month
    control. *)
Lemma check_month_slots_reads_once E cfg location t :
  exists new,
    snd (check_month_slots E cfg location t) = new ++ t
    /\ month_reads new = 1%nat
    /\ next_month_click_calls new = 0%nat
    /\ next_month_clicks new = 0%nat.
Proof.
  set (r := env_inner_text E t month_header).
  set (rest := fun header : string * string =>
         total_active_days_num <- count E active_days ;;
         if (total_active_days_num =? 0)%Z then ret []
         else read_days E cfg (fst header) (snd header)
                        (Py.range total_active_days_num) []).
  set (h := fun _ : exn =>
         today <- now E ;;
         ret (nth (Z.to_nat (Datetime.month today - 1))
                  (Config.months_en cfg) ""%string,
              Py.str_of_Z (Datetime.year today))).
  set (k := fun month_raw : string =>
         year_raw <- inner_text E year_header ;;
         ret (Py.strip month_raw, Py.strip year_raw)).
  assert (Hstep : check_month_slots E cfg location t
                  = bind (try_except
                            (match r with Ok a => k a | Raise e => raise e end) h)
                         rest (EvInnerText month_header r :: t)).
  { unfold check_month_slots, bind at 1, try_except at 1, bind at 1,
           inner_text at 1, call.
    fold r. destruct r; reflexivity. }
  assert (Hs : silent calendar_event
                 (bind (try_except
                          (match r with Ok a => k a | Raise e => raise e end) h)
                       rest)).
  { apply silent_bind.
    - apply silent_try_except.
      + destruct r; [|apply silent_raise].
        apply silent_bind; [apply silent_call; reflexivity|].
        intros; apply silent_ret.
      + intros e. apply silent_bind; [apply silent_now|].
        intros; apply silent_ret.
    - intros header. apply silent_bind; [apply silent_call; reflexivity|].
      intros n. destruct (n =? 0)%Z; [apply silent_ret|apply silent_read_days]. }
  destruct (Hs (EvInnerText month_header r :: t)) as (new & En & Cn).
  apply calendar_event_free in Cn. destruct Cn as (C1 & C2 & C3).
  rewrite <- Hstep in En.
  exists (new ++ [EvInnerText month_header r]).
  split; [etransitivity; [exact En|]; rewrite <- app_assoc; reflexivity|].
  unfold month_reads, next_month_click_calls, next_month_clicks in *.
  rewrite !count_events_app, C1, C2, C3. repeat split.
Qed.

Lemma safe_click_attempts_succeeded E cfg cl el timeout max_attempts attempt
    rest t b t1 :
  safe_click_try E cl el timeout t = (Ok b, t1) ->
  safe_click_attempts E cfg cl el timeout max_attempts (attempt :: rest) t
  = (Ok b, t1).
Proof.
  intros H. simpl. unfold bind at 1, try_except at 1, bind at 1.
  rewrite H. reflexivity.
Qed.

(** With at least one attempt to make, [safe_click] never returns
    [False]: it returns [True] or raises. *)
Lemma safe_click_attempts_never_false E cfg cl el timeout max_attempts n :
  forall a t,
  max_attempts = Z.of_nat (a + S n) ->
  fst (safe_click_attempts E cfg cl el timeout max_attempts
                           (map Z.of_nat (seq a (S n))) t) <> Ok false.
Proof.
  induction n as [|n IH]; intros a t Hmax.
  - change (map Z.of_nat (seq a 1)) with [Z.of_nat a].
    destruct (safe_click_try E cl el timeout t) as [[b|e] t1] eqn:Htry.
    + rewrite (safe_click_attempts_succeeded _ _ _ _ _ _ _ _ _ _ _ Htry).
      simpl. intros Hb; injection Hb as ->.
      revert Htry. unfold safe_click_try, bind, try_except, ret, raise.
      destruct el as [el|].
      * destruct (is_visible E el 3000 t) as [[[|]|] ?]; try discriminate.
        destruct (wait_for E cl WaitVisible timeout _) as [[|] ?];
          try discriminate.
        destruct (click E cl 5000 _) as [[|] ?]; try discriminate.
        destruct (wait_for E el WaitDefault 5000 _) as [[|] ?]; discriminate.
      * destruct (wait_for E cl WaitVisible timeout _) as [[|] ?];
          try discriminate.
        destruct (click E cl 5000 _) as [[|] ?]; discriminate.
    + assert (Ha : exists b t2, attempt_fails E cl el timeout t = Some (b, t2)).
      { unfold attempt_fails. rewrite Htry. eauto. }
      destruct Ha as (b & t2 & Ha).
      rewrite (safe_click_attempts_failed _ _ _ _ _ _ _ _ _ _ _ Ha).
      destruct b; [simpl; discriminate|].
      replace (Z.of_nat a =? max_attempts - 1)%Z with true
        by (symmetry; apply Z.eqb_eq; lia).
      simpl; discriminate.
  - change (map Z.of_nat (seq a (S (S n))))
      with (Z.of_nat a :: map Z.of_nat (seq (S a) (S n))).
    destruct (safe_click_try E cl el timeout t) as [[b|e] t1] eqn:Htry.
    + rewrite (safe_click_attempts_succeeded _ _ _ _ _ _ _ _ _ _ _ Htry).
      simpl. intros Hb; injection Hb as ->.
      revert Htry. unfold safe_click_try, bind, try_except, ret, raise.
      destruct el as [el|].
      * destruct (is_visible E el 3000 t) as [[[|]|] ?]; try discriminate.
        destruct (wait_for E cl WaitVisible timeout _) as [[|] ?];
          try discriminate.
        destruct (click E cl 5000 _) as [[|] ?]; try discriminate.
        destruct (wait_for E el WaitDefault 5000 _) as [[|] ?]; discriminate.
      * destruct (wait_for E cl WaitVisible timeout _) as [[|] ?];
          try discriminate.
        destruct (click E cl 5000 _) as [[|] ?]; discriminate.
    + assert (Ha : exists b t2, attempt_fails E cl el timeout t = Some (b, t2)).
      { unfold attempt_fails. rewrite Htry. eauto. }
      destruct Ha as (b & t2 & Ha).
      rewrite (safe_click_attempts_failed _ _ _ _ _ _ _ _ _ _ _ Ha).
      destruct b; [simpl; discriminate|].
      replace (Z.of_nat a =? max_attempts - 1)%Z with false
        by (symmetry; apply Z.eqb_neq; lia).
      apply IH. lia.
Qed.

(** Clicking the next-month control: [safe_click] is called without an
    expected state, so the first click that goes through ends the call. *)
Lemma safe_click_next_month E cfg timeout max_attempts attempts : forall t,
  exists new,
    snd (safe_click_attempts E cfg (First next_button) None timeout
                             max_attempts attempts t) = new ++ t
    /\ month_reads new = 0%nat
    /\ ((fst (safe_click_attempts E cfg (First next_button) None timeout
                                  max_attempts attempts t) = Ok true
         /\ next_month_clicks new = 1%nat)
        \/ (fst (safe_click_attempts E cfg (First next_button) None timeout
                                     max_attempts attempts t) <> Ok true
            /\ next_month_clicks new = 0%nat)).
Proof.
  induction attempts as [|attempt rest IH]; intros t.
  - exists []. simpl. repeat split. right. split; [discriminate|reflexivity].
  - destruct (safe_click_try E (First next_button) None timeout t)
      as [[b|e] t1] eqn:Htry.
    + rewrite (safe_click_attempts_succeeded _ _ _ _ _ _ _ _ _ _ _ Htry).
      revert Htry.
      unfold safe_click_try, bind, try_except, ret, raise, wait_for, click, call.
      destruct (env_wait_for E t _ WaitVisible timeout) as [[]|e1];
        [|discriminate].
      destruct (env_click E _ _ 5000) as [[]|e2]; [|discriminate].
      intros H; injection H as <- <-.
      eexists [_; _]. simpl. split; [reflexivity|]. split; [reflexivity|].
      left. split; reflexivity.
    + assert (Ht1 : exists tried, t1 = tried ++ t
                     /\ month_reads tried = 0%nat
                     /\ next_month_clicks tried = 0%nat).
      { revert Htry.
        unfold safe_click_try, bind, try_except, ret, raise, wait_for, click, call.
        destruct (env_wait_for E t _ WaitVisible timeout) as [[]|e1].
        - destruct (env_click E _ _ 5000) as [[]|e2]; [discriminate|].
          intros H; injection H as _ <-.
          eexists [_; _]. simpl. repeat split.
        - intros H; injection H as _ <-.
          eexists [_]. simpl. repeat split. }
      destruct Ht1 as (tried & -> & Hm & Hc).
      assert (Ha : attempt_fails E (First next_button) None timeout t
                   = Some (match env_content E (tried ++ t) with
                           | Ok page => Py.str_in error_banner page
                           | Raise _ => false
                           end,
                           EvContent (env_content E (tried ++ t)) :: tried ++ t)).
      { unfold attempt_fails. rewrite Htry. reflexivity. }
      rewrite (safe_click_attempts_failed _ _ _ _ _ _ _ _ _ _ _ Ha).
      set (r := env_content E (tried ++ t)).
      assert (Hfail : forall extra,
                 month_reads extra = 0%nat -> next_month_clicks extra = 0%nat ->
                 month_reads (extra ++ EvContent r :: tried) = 0%nat
                 /\ next_month_clicks (extra ++ EvContent r :: tried) = 0%nat).
      { intros extra H1 H2. unfold month_reads, next_month_clicks in *.
        rewrite !count_events_app, !count_events_cons, H1, H2, Hm, Hc.
        split; reflexivity. }
      destruct (match r with Ok page => Py.str_in error_banner page
                        | Raise _ => false end).
      * exists (EvContent r :: tried). simpl. split; [reflexivity|].
        destruct (Hfail [] eq_refl eq_refl) as (H1 & H2).
        split; [exact H1|]. right. split; [discriminate|exact H2].
      * destruct (attempt =? max_attempts - 1)%Z.
        -- destruct (silent_take_screenshot calendar_event E cfg
                       eq_refl (fun _ => eq_refl) (fun _ => eq_refl)
                       (EvContent r :: tried ++ t)) as (shot & Es & Cs).
           apply calendar_event_free in Cs. destruct Cs as (Cs1 & _ & Cs3).
           exists (shot ++ EvContent r :: tried). simpl.
           split; [rewrite Es, <- app_assoc; reflexivity|].
           destruct (Hfail shot Cs1 Cs3) as (H1 & H2).
           split; [exact H1|]. right. split; [discriminate|exact H2].
        -- destruct (IH (EvContent r :: tried ++ t)) as (more & Em & Hm' & Hor).
           exists (more ++ EvContent r :: tried).
           split; [rewrite Em, <- app_assoc; reflexivity|].
           unfold month_reads, next_month_clicks in *.
           rewrite !count_events_app, !count_events_cons, Hm, Hc, Hm'.
           split; [reflexivity|].
           destruct Hor as [(Hr & Hn)|(Hr & Hn)]; [left|right];
             (split; [exact Hr|]); rewrite Hn; reflexivity.
Qed.

(** Every attempt of [safe_click] calls [click()] at most once. *)
Lemma safe_click_next_month_calls E cfg timeout max_attempts attempts :
  forall t,
  exists new,
    snd (safe_click_attempts E cfg (First next_button) None timeout
                             max_attempts attempts t) = new ++ t
    /\ (next_month_click_calls new <= length attempts)%nat.
Proof.
  induction attempts as [|attempt rest IH]; intros t.
  - exists []. simpl. split; [reflexivity|apply Nat.le_0_l].
  - destruct (safe_click_try E (First next_button) None timeout t)
      as [[b|e] t1] eqn:Htry.
    + rewrite (safe_click_attempts_succeeded _ _ _ _ _ _ _ _ _ _ _ Htry).
      revert Htry.
      unfold safe_click_try, bind, try_except, ret, raise, wait_for, click, call.
      destruct (env_wait_for E t _ WaitVisible timeout) as [[]|e1];
        [|discriminate].
      destruct (env_click E _ _ 5000) as [[]|e2]; [|discriminate].
      intros H; injection H as <- <-.
      eexists [_; _]. simpl. split; [reflexivity|].
      apply (Nat.le_trans _ 1); [apply Nat.eq_le_incl; reflexivity|lia].
    + assert (Ht1 : exists tried, t1 = tried ++ t
                     /\ (next_month_click_calls tried <= 1)%nat).
      { revert Htry.
        unfold safe_click_try, bind, try_except, ret, raise, wait_for, click, call.
        destruct (env_wait_for E t _ WaitVisible timeout) as [[]|e1].
        - destruct (env_click E _ _ 5000) as [[]|e2]; [discriminate|].
          intros H; injection H as _ <-.
          eexists [_; _]. simpl. split; [reflexivity|].
          apply Nat.eq_le_incl. reflexivity.
        - intros H; injection H as _ <-.
          eexists [_]. simpl. split; [reflexivity|].
          apply (Nat.le_trans _ 0); [apply Nat.eq_le_incl; reflexivity|lia]. }
      destruct Ht1 as (tried & -> & Hc).
      assert (Ha : attempt_fails E (First next_button) None timeout t
                   = Some (match env_content E (tried ++ t) with
                           | Ok page => Py.str_in error_banner page
                           | Raise _ => false
                           end,
                           EvContent (env_content E (tried ++ t)) :: tried ++ t)).
      { unfold attempt_fails. rewrite Htry. reflexivity. }
      rewrite (safe_click_attempts_failed _ _ _ _ _ _ _ _ _ _ _ Ha).
      set (r := env_content E (tried ++ t)).
      assert (Hfail : forall extra n,
                 (next_month_click_calls extra <= n)%nat ->
                 (next_month_click_calls (extra ++ EvContent r :: tried)
                  <= S n)%nat).
      { intros extra n H. unfold next_month_click_calls in *.
        rewrite count_events_app, count_events_cons. simpl. lia. }
      destruct (match r with Ok page => Py.str_in error_banner page
                        | Raise _ => false end).
      * exists (EvContent r :: tried). simpl. split; [reflexivity|].
        apply (Hfail [] (length rest)), Nat.le_0_l.
      * destruct (attempt =? max_attempts - 1)%Z.
        -- destruct (silent_take_screenshot calendar_event E cfg
                       eq_refl (fun _ => eq_refl) (fun _ => eq_refl)
                       (EvContent r :: tried ++ t)) as (shot & Es & Cs).
           apply calendar_event_free in Cs. destruct Cs as (_ & Cs2 & _).
           exists (shot ++ EvContent r :: tried). simpl.
           split; [rewrite Es, <- app_assoc; reflexivity|].
           apply Hfail. rewrite Cs2. apply Nat.le_0_l.
        -- destruct (IH (EvContent r :: tried ++ t)) as (more & Em & Hm').
           exists (more ++ EvContent r :: tried).
           split; [rewrite Em, <- app_assoc; reflexivity|].
           apply Hfail, Hm'.
Qed.

Ltac count_up :=
  unfold month_reads, next_month_clicks, next_month_click_calls in *;
  repeat match goal with
         | H : context [count_events _ (_ ++ _)] |- _ =>
             rewrite count_events_app in H
         | H : context [count_events _ (_ :: _)] |- _ =>
             rewrite count_events_cons in H; simpl in H
         end;
  rewrite ?count_events_app, ?count_events_cons; simpl; try lia.

Lemma check_slots_run E cfg location t :
  exists new res,
    check_slots E cfg location t = (res, new ++ t)
    /\ (month_reads new <= 2)%nat
    /\ (next_month_clicks new <= 1)%nat
    /\ (next_month_click_calls new <= 3)%nat
    /\ (month_reads new = 2%nat ->
        next_month_available E t = true /\ next_month_clicks new = 1%nat)
    /\ (next_month_available E t = false ->
        (month_reads new <= 1)%nat /\ next_month_click_calls new = 0%nat)
    /\ (next_month_available E t = true -> is_ok res = true ->
        month_reads new = 2%nat /\ next_month_clicks new = 1%nat)
    /\ (next_month_available E t = false -> is_ok res = true ->
        month_reads new = 1%nat).
Proof.
  unfold check_slots, next_month_available.
  destruct (silent_wait_for_spinner calendar_event E 1000 20000
              (fun _ _ _ _ => eq_refl) t) as (n0 & E0 & C0).
  apply calendar_event_free in C0. destruct C0 as (M0 & K0 & L0).
  destruct (wait_for_spinner E 1000 20000 t) as [[[]|e] t0] eqn:H0;
    simpl in E0; subst t0.
  2:{ rewrite (bind_raise _ _ _ _ _ H0).
      exists n0, (Raise e). repeat split; try discriminate; count_up. }
  rewrite (bind_ok _ _ _ _ _ H0).
  assert (Hc : count E next_button (n0 ++ t)
               = (env_count E (n0 ++ t) next_button,
                  EvCount next_button (env_count E (n0 ++ t) next_button)
                  :: n0 ++ t)) by reflexivity.
  destruct (env_count E (n0 ++ t) next_button) as [n|e].
  2:{ rewrite (bind_raise _ _ _ _ _ Hc).
      exists (EvCount next_button (Raise e) :: n0), (Raise e).
      repeat split; try discriminate; count_up. }
  rewrite (bind_ok _ _ _ _ _ Hc).
  destruct (check_month_slots_reads_once E cfg location
              (EvCount next_button (Ok n) :: n0 ++ t))
    as (n1 & E1 & M1 & K1 & L1).
  destruct (check_month_slots E cfg location _) as [[cur|e] t1] eqn:H1;
    simpl in E1; subst t1.
  2:{ rewrite (bind_raise _ _ _ _ _ H1).
      exists (n1 ++ EvCount next_button (Ok n) :: n0), (Raise e).
      rewrite <- app_assoc. simpl.
      repeat split; try discriminate; count_up. }
  rewrite (bind_ok _ _ _ _ _ H1).
  destruct (0 <? n)%Z.
  2:{ exists (n1 ++ EvCount next_button (Ok n) :: n0),
             (Ok (Py.dict_update [] cur)).
      rewrite <- app_assoc. simpl.
      repeat split; try discriminate; count_up. }
  destruct (safe_click_next_month E cfg default_timeout default_max_attempts
              (Py.range default_max_attempts)
              (n1 ++ EvCount next_button (Ok n) :: n0 ++ t))
    as (n2 & E2 & M2 & Hclick).
  destruct (safe_click_next_month_calls E cfg default_timeout
              default_max_attempts (Py.range default_max_attempts)
              (n1 ++ EvCount next_button (Ok n) :: n0 ++ t))
    as (n2' & E2' & K2).
  rewrite E2 in E2'. apply app_inv_tail in E2'. subst n2'.
  change (length (Py.range default_max_attempts)) with 3%nat in K2.
  pose proof (safe_click_attempts_never_false E cfg (First next_button) None
                default_timeout default_max_attempts 2 0
                (n1 ++ EvCount next_button (Ok n) :: n0 ++ t) eq_refl)
    as Hnf.
  change (map Z.of_nat (seq 0 3)) with (Py.range default_max_attempts) in Hnf.
  assert (H2 : safe_click E cfg (TargetLocator next_button) None
                 default_timeout default_max_attempts
                 (n1 ++ EvCount next_button (Ok n) :: n0 ++ t)
               = safe_click_attempts E cfg (First next_button) None
                   default_timeout default_max_attempts
                   (Py.range default_max_attempts)
                   (n1 ++ EvCount next_button (Ok n) :: n0 ++ t))
    by reflexivity.
  destruct (safe_click_attempts E cfg (First next_button) None default_timeout
              default_max_attempts (Py.range default_max_attempts) _)
    as [[b|e] t2]; simpl in E2, Hnf, Hclick; subst t2.
  2:{ rewrite (bind_raise _ _ _ _ _ H2).
      exists (n2 ++ n1 ++ EvCount next_button (Ok n) :: n0), (Raise e).
      rewrite <- !app_assoc. simpl.
      destruct Hclick as [(Hr & Hn)|(Hr & Hn)];
        repeat split; try discriminate; count_up. }
  rewrite (bind_ok _ _ _ _ _ H2).
  destruct b; [|congruence].
  destruct Hclick as [(_ & L2)|(Hr & _)]; [|congruence].
  destruct (silent_wait_for_spinner calendar_event E 1000 20000
              (fun _ _ _ _ => eq_refl)
              (n2 ++ n1 ++ EvCount next_button (Ok n) :: n0 ++ t))
    as (n3 & E3 & C3).
  apply calendar_event_free in C3. destruct C3 as (M3 & K3 & L3).
  destruct (wait_for_spinner E 1000 20000
              (n2 ++ n1 ++ EvCount next_button (Ok n) :: n0 ++ t))
    as [[[]|e] t3] eqn:H3; simpl in E3; subst t3.
  2:{ rewrite (bind_raise _ _ _ _ _ H3).
      exists (n3 ++ n2 ++ n1 ++ EvCount next_button (Ok n) :: n0), (Raise e).
      rewrite <- !app_assoc. simpl.
      repeat split; try discriminate; count_up. }
  rewrite (bind_ok _ _ _ _ _ H3).
  destruct (check_month_slots_reads_once E cfg location
              (n3 ++ n2 ++ n1 ++ EvCount next_button (Ok n) :: n0 ++ t))
    as (n4 & E4 & M4 & K4 & L4).
  destruct (check_month_slots E cfg location
              (n3 ++ n2 ++ n1 ++ EvCount next_button (Ok n) :: n0 ++ t))
    as [[nxt|e] t4] eqn:H4; simpl in E4; subst t4.
  - rewrite (bind_ok _ _ _ _ _ H4).
    exists (n4 ++ n3 ++ n2 ++ n1 ++ EvCount next_button (Ok n) :: n0),
           (Ok (Py.dict_update (Py.dict_update [] cur) nxt)).
    rewrite <- !app_assoc. simpl.
    repeat split; try discriminate; count_up.
  - rewrite (bind_raise _ _ _ _ _ H4).
    exists (n4 ++ n3 ++ n2 ++ n1 ++ EvCount next_button (Ok n) :: n0), (Raise e).
    rewrite <- !app_assoc. simpl.
    repeat split; try discriminate; count_up.
Qed.

(** What [check_slots] returns: the dates of the month on display and,
    when the control was found and clicked, those of the month after,
    merged in that order. *)
Lemma check_slots_months E cfg location t total_slots t' :
  check_slots E cfg location t = (Ok total_slots, t') ->
  exists t0 n slots_current_month t1,
    wait_for_spinner E 1000 20000 t = (Ok tt, t0)
    /\ env_count E t0 next_button = Ok n
    /\ next_month_available E t = (0 <? n)%Z
    /\ check_month_slots E cfg location (EvCount next_button (Ok n) :: t0)
       = (Ok slots_current_month, t1)
    /\ if (0 <? n)%Z
       then exists t2 t3 slots_next_month,
              safe_click E cfg (TargetLocator next_button) None
                         default_timeout default_max_attempts t1
              = (Ok true, t2)
              /\ wait_for_spinner E 1000 20000 t2 = (Ok tt, t3)
              /\ check_month_slots E cfg location t3
                 = (Ok slots_next_month, t')
              /\ total_slots
                 = Py.dict_update (Py.dict_update [] slots_current_month)
                                  slots_next_month
       else t' = t1 /\ total_slots = Py.dict_update [] slots_current_month.
Proof.
  unfold check_slots, next_month_available.
  destruct (wait_for_spinner E 1000 20000 t) as [[[]|e] t0] eqn:H0.
  2:{ rewrite (bind_raise _ _ _ _ _ H0). discriminate. }
  rewrite (bind_ok _ _ _ _ _ H0).
  unfold bind at 1, count at 1, call.
  destruct (env_count E t0 next_button) as [n|e] eqn:Hn; [|discriminate].
  unfold bind at 1.
  destruct (check_month_slots E cfg location _) as [[cur|e] t1] eqn:H1;
    [|discriminate].
  intros H. exists t0, n, cur, t1.
  split; [reflexivity|]. split; [exact Hn|]. split; [reflexivity|].
  split; [exact H1|].
  destruct (0 <? n)%Z.
  - pose proof (safe_click_attempts_never_false E cfg (First next_button) None
                  default_timeout default_max_attempts 2 0 t1 eq_refl) as Hnf.
    change (safe_click_attempts E cfg (First next_button) None default_timeout
              default_max_attempts (map Z.of_nat (seq 0 3)) t1)
      with (safe_click E cfg (TargetLocator next_button) None default_timeout
              default_max_attempts t1) in Hnf.
    unfold bind at 1 in H.
    destruct (safe_click E cfg (TargetLocator next_button) None
                default_timeout default_max_attempts t1) as [[b|e] t2]
      eqn:H2; [|discriminate].
    destruct b; [|exfalso; apply Hnf; reflexivity].
    unfold bind at 1 in H.
    destruct (wait_for_spinner E 1000 20000 t2) as [[[]|e] t3] eqn:H3;
      [|discriminate].
    unfold bind at 1 in H.
    destruct (check_month_slots E cfg location t3) as [[nxt|e] t4] eqn:H4;
      [|discriminate].
    injection H as <- <-. exists t2, t3, nxt.
    split; [reflexivity|]. split; [exact H3|]. split; [exact H4|reflexivity].
  - injection H as <- <-. split; reflexivity.
Qed.

(** C7.  One extraction ([check_slots]) reads the month that is displayed
    and, only when the check at its start found a next-month control that
    is not disabled, one more month: it never reads more than two months,
    at most one click on the next-month control goes through, [click()] is
    called on it at most three times (once in each attempt of
    [safe_click]), a second month is read only after a click that went
    through, and without the control the control is never clicked and at
    most one month is read.  When the extraction returns, exactly two
    months were read if the control was there and exactly one if it was
    not, and the result is made of what [check_month_slots] returned for
    the month on display, followed in the first case by what it returned
    after the click for the month after. *)
Theorem check_slots_two_months E cfg location t :
  exists new,
    snd (check_slots E cfg location t) = new ++ t
    /\ (month_reads new <= 2)%nat
    /\ (next_month_clicks new <= 1)%nat
    /\ (next_month_click_calls new <= 3)%nat
    /\ (month_reads new = 2%nat ->
        next_month_available E t = true /\ next_month_clicks new = 1%nat)
    /\ (next_month_available E t = false ->
        (month_reads new <= 1)%nat /\ next_month_click_calls new = 0%nat)
    /\ (next_month_available E t = true ->
        is_ok (fst (check_slots E cfg location t)) = true ->
        month_reads new = 2%nat /\ next_month_clicks new = 1%nat)
    /\ (next_month_available E t = false ->
        is_ok (fst (check_slots E cfg location t)) = true ->
        month_reads new = 1%nat)
    /\ (forall total_slots,
          fst (check_slots E cfg location t) = Ok total_slots ->
          exists t0 n slots_current_month t1,
            wait_for_spinner E 1000 20000 t = (Ok tt, t0)
            /\ env_count E t0 next_button = Ok n
            /\ next_month_available E t = (0 <? n)%Z
            /\ check_month_slots E cfg location
                 (EvCount next_button (Ok n) :: t0)
               = (Ok slots_current_month, t1)
            /\ if (0 <? n)%Z
               then exists t2 t3 slots_next_month,
                      safe_click E cfg (TargetLocator next_button) None
                                 default_timeout default_max_attempts t1
                      = (Ok true, t2)
                      /\ wait_for_spinner E 1000 20000 t2 = (Ok tt, t3)
                      /\ check_month_slots E cfg location t3
                         = (Ok slots_next_month, new ++ t)
                      /\ total_slots
                         = Py.dict_update
                             (Py.dict_update [] slots_current_month)
                             slots_next_month
               else new ++ t = t1
                    /\ total_slots = Py.dict_update [] slots_current_month).
Proof.
  destruct (check_slots_run E cfg location t)
    as (new & res & Hrun & H1 & H2 & H3 & H4 & H5 & H6 & H7).
  exists new. rewrite Hrun. simpl.
  split; [reflexivity|]. split; [exact H1|]. split; [exact H2|].
  split; [exact H3|]. split; [exact H4|]. split; [exact H5|].
  split; [exact H6|]. split; [exact H7|].
  intros total_slots ->. exact (check_slots_months _ _ _ _ _ _ Hrun).
Qed.

(** ** [check_locations]: failures stay inside their location *)

Lemma silent_send_push p E cfg subscription_json title body :
  (forall c r, p (EvWebpush c r) = false) ->
  silent p (send_push E cfg subscription_json title body).
Proof.
  intros Hp. unfold send_push.
  apply silent_try_except; [|intros; apply silent_ret].
  destruct (json_endpoint E subscription_json) as [endpoint|e];
    [|apply silent_raise].
  destruct (String.eqb endpoint ""); [apply silent_ret|].
  destruct (send_push_audience E endpoint) as [aud|e]; [|apply silent_raise].
  apply silent_bind; [apply silent_call; intros; apply Hp|].
  intros; apply silent_ret.
Qed.

Lemma silent_send_to_all p E cfg interested title body : forall sent_count,
  (forall c r, p (EvWebpush c r) = false) ->
  silent p (send_to_all E cfg interested title body sent_count).
Proof.
  induction interested as [|sub rest IH]; intros sent_count Hp; simpl.
  - apply silent_ret.
  - apply silent_bind.
    + apply silent_try_except; [apply silent_send_push; exact Hp|].
      intros; apply silent_ret.
    + intros ok. apply IH. exact Hp.
Qed.

Lemma silent_send_notification p E cfg db category location_name total_slots :
  (forall c r, p (EvWebpush c r) = false) ->
  silent p (send_notification E cfg db category location_name total_slots).
Proof.
  intros Hp. unfold send_notification.
  destruct total_slots; [apply silent_ret|].
  destruct (load_subscriptions db); [apply silent_ret|].
  destruct (Py.dict_get (Config.category_map cfg) category);
    [|apply silent_ret].
  destruct (String.eqb _ ""); [apply silent_ret|].
  destruct (select_interested _ _ _); [apply silent_ret|].
  apply silent_send_to_all. exact Hp.
Qed.

(** [go_back] sends the browser back exactly once, whatever follows. *)
Lemma go_back_once E expected_text t :
  exists new,
    snd (go_back E expected_text t) = new ++ t
    /\ back_navigations new = 1%nat.
Proof.
  unfold go_back, try_except, bind, page_go_back, wait_for, call, raise.
  destruct (env_go_back E t) as [[]|e].
  - destruct (env_wait_for E _ _ WaitVisible 15000) as [[]|e].
    + eexists [_; _]. split; reflexivity.
    + destruct e; eexists [_; _]; split; reflexivity.
  - destruct e; eexists [_]; split; reflexivity.
Qed.

Lemma beyond_calendar_free new :
  count_events beyond_calendar new = 0%nat -> back_navigations new = 0%nat.
Proof.
  apply count_events_weaken. intros ev H. unfold beyond_calendar.
  rewrite H. reflexivity.
Qed.

Lemma process_location_goes_back E cfg db category location slots_data t :
  back_navigations
    (snd (process_location E cfg db category location slots_data t))
  = S (back_navigations t).
Proof.
  unfold process_location, try_finally.
  set (body :=
         total_slots <- slots_or_empty E cfg location ;;
         send_notification E cfg db category location total_slots ;;;
         ret (slots_data ++ [(location, Py.total_len total_slots)])).
  assert (Hbody : silent is_go_back body).
  { apply silent_bind.
    - apply (silent_weaken beyond_calendar); [|apply silent_slots_or_empty].
      intros ev H. unfold beyond_calendar. rewrite H. reflexivity.
    - intros total_slots.
      apply silent_bind; [apply silent_send_notification; reflexivity|].
      intros; apply silent_ret. }
  destruct (Hbody t) as (n1 & E1 & C1).
  destruct (body t) as [[a|e] t1]; simpl in E1; subst t1;
    destruct (go_back_once E (Config.location_page_text cfg) (n1 ++ t))
      as (n2 & E2 & C2);
    destruct (go_back E (Config.location_page_text cfg) (n1 ++ t))
      as [[[]|e'] t2]; simpl in E2; subst t2; simpl;
    unfold back_navigations in *; rewrite !count_events_app; lia.
Qed.

(** A failure while entering the location or reading its calendar is
    turned into an empty result. *)
Lemma slots_or_empty_absorbs E cfg location t e t1 :
  enter_and_extract E cfg location t = (Raise e, t1) ->
  exists t2,
    slots_or_empty E cfg location t = (Ok [], t2)
    /\ (e = ServerErrorException -> t2 = t1).
Proof.
  intros H. unfold slots_or_empty.
  rewrite (try_except_raise _ _ _ _ _ H).
  destruct (take_screenshot_returns E cfg t1) as (t' & Ht & _).
  destruct e;
    try (exists t'; split; [unfold bind; rewrite Ht; reflexivity|discriminate]).
  exists t1. split; [reflexivity|auto].
Qed.

(** C4.  For every location that [check_locations] processes, the
    browser is sent back to the location list exactly once, whether the
    location was read or not.  When entering the location or reading its
    calendar raises [ServerErrorException] or any other exception, the
    exception is absorbed: the location is recorded with zero slots, and
    what happens next depends on the back navigation alone; when that
    succeeds the scan goes on with the next location, the entry recorded. *)
Theorem check_locations_isolates_failures E cfg db category location
    slots_data t :
  back_navigations
    (snd (process_location E cfg db category location slots_data t))
  = S (back_navigations t)
  /\ (forall rest visited n e t1,
         Py.list_in location visited = false ->
         env_count E t (location_panel location) = Ok n ->
         n <> 0%Z ->
         enter_and_extract E cfg location
           (EvCount (location_panel location) (Ok n) :: t) = (Raise e, t1) ->
         exists t2,
           slots_or_empty E cfg location
             (EvCount (location_panel location) (Ok n) :: t) = (Ok [], t2)
           /\ (e = ServerErrorException -> t2 = t1)
           /\ match go_back E (Config.location_page_text cfg) t2 with
              | (Ok _, t3) =>
                  scan_locations E cfg db category (location :: rest) visited
                                 slots_data t
                  = scan_locations E cfg db category rest (location :: visited)
                                   (slots_data ++ [(location, 0%Z)]) t3
              | (Raise e', t3) =>
                  scan_locations E cfg db category (location :: rest) visited
                                 slots_data t
                  = (Raise e', t3)
              end).
Proof.
  split; [apply process_location_goes_back|].
  intros rest visited n e t1 Hin Hcount Hn Hraise.
  destruct (slots_or_empty_absorbs _ _ _ _ _ _ Hraise) as (t2 & Hs & Ht2).
  exists t2. split; [exact Hs|]. split; [exact Ht2|].
  assert (Hproc : process_location E cfg db category location slots_data
                    (EvCount (location_panel location) (Ok n) :: t)
                  = match go_back E (Config.location_page_text cfg) t2 with
                    | (Ok _, t3) => (Ok (slots_data ++ [(location, 0%Z)]), t3)
                    | (Raise e', t3) => (Raise e', t3)
                    end).
  { unfold process_location, try_finally.
    rewrite (bind_ok _ _ _ _ _ Hs). simpl.
    destruct (go_back E (Config.location_page_text cfg) t2) as [[[]|e'] t3];
      reflexivity. }
  assert (Hstep : scan_locations E cfg db category (location :: rest) visited
                    slots_data t
                  = bind (process_location E cfg db category location slots_data)
                         (scan_locations E cfg db category rest
                                         (location :: visited))
                         (EvCount (location_panel location) (Ok n) :: t)).
  { simpl scan_locations. rewrite Hin.
    unfold bind at 1, count at 1, call. rewrite Hcount.
    replace (n =? 0)%Z with false by (symmetry; apply Z.eqb_neq; exact Hn).
    reflexivity. }
  rewrite Hstep. unfold bind. rewrite Hproc.
  destruct (go_back E (Config.location_page_text cfg) t2) as [[[]|e'] t3];
    reflexivity.
Qed.

Lemma check_locations_isolates_failures_witness :
  exists t2,
    slots_or_empty error_page_env Config.default "Cary"
      [EvCount (location_panel "Cary") (Ok 1%Z)] = (Ok [], t2)
    /\ (ServerErrorException = ServerErrorException ->
        t2 = [EvContent (Ok ("<p>" ++ error_banner ++ "</p>")%string);
              EvWaitFor (First (location_panel "Cary")) WaitVisible 15000
                        (Raise PlaywrightTimeoutError);
              EvIsVisible (First (ByText "Choose a Date")) 3000 (Ok false);
              EvCount (location_panel "Cary") (Ok 1%Z)])
    /\ match go_back error_page_env "Select a Location" t2 with
       | (Ok _, t3) =>
           scan_locations error_page_env Config.default Database.empty "Fees"
                          ["Cary"; "Durham East"] [] [] []
           = scan_locations error_page_env Config.default Database.empty "Fees"
                            ["Durham East"] ["Cary"] ([] ++ [("Cary", 0%Z)]) t3
       | (Raise e', t3) =>
           scan_locations error_page_env Config.default Database.empty "Fees"
                          ["Cary"; "Durham East"] [] [] []
           = (Raise e', t3)
       end.
Proof.
  apply (proj2 (check_locations_isolates_failures error_page_env Config.default
                  Database.empty "Fees" "Cary" [] [])
               ["Durham East"] [] 1%Z ServerErrorException);
    [reflexivity | reflexivity | discriminate | reflexivity].
Defined.

(** ** [send_notification]: who is selected *)

Lemma list_in_In x xs : Py.list_in x xs = true <-> In x xs.
Proof.
  unfold Py.list_in. rewrite existsb_exists. split.
  - intros (y & Hy & Heq). apply String.eqb_eq in Heq. subst y. exact Hy.
  - intros H. exists x. split; [exact H|apply String.eqb_refl].
Qed.

Lemma select_interested_filter mapped_category location_name subs :
  select_interested mapped_category location_name subs
  = filter (matches mapped_category location_name) subs.
Proof.
  unfold select_interested.
  enough (H : forall acc,
             fold_left
               (fun interested item =>
                  if String.eqb (Database.push_subscription item) ""
                  then interested
                  else if Py.list_in mapped_category (Database.categories item)
                          && Py.list_in location_name (Database.locations item)
                       then interested ++ [item]
                       else interested)
               subs acc
             = acc ++ filter (matches mapped_category location_name) subs)
    by (apply (H [])).
  induction subs as [|item rest IH]; intros acc; simpl.
  - rewrite app_nil_r. reflexivity.
  - rewrite IH. unfold matches at 2.
    destruct (String.eqb (Database.push_subscription item) ""); simpl;
      [reflexivity|].
    destruct (Py.list_in mapped_category (Database.categories item)
              && Py.list_in location_name (Database.locations item));
      [rewrite <- app_assoc|]; reflexivity.
Qed.

(** With slots to report and a key for the category, [send_notification]
    is the sending loop over the selected subscriptions. *)
Lemma send_notification_selected E cfg db category location_name total_slots
    mapped_category :
  total_slots <> [] ->
  Py.dict_get (Config.category_map cfg) category = Some mapped_category ->
  mapped_category <> ""%string ->
  send_notification E cfg db category location_name total_slots
  = send_to_all E cfg
      (select_interested mapped_category location_name
                         (Database.subscriptions db))
      notification_title
      (notification_body category location_name total_slots) 0%Z.
Proof.
  intros Hslots Hkey Hne.
  unfold send_notification, load_subscriptions, Database.get_all_subscriptions.
  destruct total_slots as [|s slots]; [congruence|].
  rewrite Hkey.
  replace (String.eqb mapped_category "") with false
    by (symmetry; apply String.eqb_neq; exact Hne).
  destruct (Database.subscriptions db) as [|sub subs] eqn:Hsubs;
    [reflexivity|].
  destruct (select_interested mapped_category location_name (sub :: subs));
    reflexivity.
Qed.

(** C5.  A loaded subscription that carries a push descriptor is
    selected for an event exactly when its categories contain the stable
    key of the event's category and its locations contain the event's
    location, both at once; the selected subscriptions are the ones the
    push is then sent to.  The subscription for fees at Cary is selected
    for (fees, Cary), and neither for (fees, Durham East) nor for
    (permits, Cary). *)
Theorem subscription_matching :
  (forall mapped_category location_name subs item,
      In item subs ->
      Database.push_subscription item <> ""%string ->
      (In item (select_interested mapped_category location_name subs)
       <-> In mapped_category (Database.categories item)
           /\ In location_name (Database.locations item)))
  /\ (forall E cfg db category location_name total_slots mapped_category,
         total_slots <> [] ->
         Py.dict_get (Config.category_map cfg) category = Some mapped_category ->
         mapped_category <> ""%string ->
         send_notification E cfg db category location_name total_slots
         = send_to_all E cfg
             (select_interested mapped_category location_name
                                (Database.subscriptions db))
             notification_title
             (notification_body category location_name total_slots) 0%Z)
  /\ select_interested "fees" "Cary" [fees_at_cary] = [fees_at_cary]
  /\ select_interested "fees" "Durham East" [fees_at_cary] = []
  /\ select_interested "permits" "Cary" [fees_at_cary] = [].
Proof.
  split; [|split; [|repeat split]].
  - intros key loc subs item Hin Hpush.
    rewrite select_interested_filter, filter_In. unfold matches.
    rewrite <- !list_in_In.
    assert (Hp : String.eqb (Database.push_subscription item) "" = false)
      by (apply String.eqb_neq; exact Hpush).
    rewrite Hp. simpl. rewrite andb_true_iff. tauto.
  - intros E cfg db category loc slots key Hslots Hkey Hne.
    apply send_notification_selected; assumption.
Qed.

Lemma subscription_matching_witness :
  (In fees_at_cary (select_interested "fees" "Cary" [fees_at_cary])
   <-> In "fees"%string (Database.categories fees_at_cary)
       /\ In "Cary"%string (Database.locations fees_at_cary))
  /\ (In fees_at_cary (select_interested "fees" "Durham East" [fees_at_cary])
      <-> In "fees"%string (Database.categories fees_at_cary)
          /\ In "Durham East"%string (Database.locations fees_at_cary)).
Proof.
  split;
    apply (proj1 subscription_matching);
    solve [ left; reflexivity | discriminate ].
Defined.

(** ** [send_notification]: the message *)

Lemma append_nil_r (s : string) : (s ++ "")%string = s.
Proof. induction s as [|c s IH]; simpl; [|rewrite IH]; reflexivity. Qed.

Lemma append_assoc (a b c : string) :
  ((a ++ b) ++ c)%string = (a ++ (b ++ c))%string.
Proof. induction a as [|x a IH]; simpl; [|rewrite IH]; reflexivity. Qed.

Lemma fold_left_snoc_map {A B} (f : A -> B) (l : list A) : forall acc,
  fold_left (fun acc x => acc ++ [f x]) l acc = acc ++ map f l.
Proof.
  induction l as [|x l IH]; intros acc; simpl.
  - rewrite app_nil_r. reflexivity.
  - rewrite IH, <- app_assoc. reflexivity.
Qed.

Lemma slots_lines_map total_slots :
  slots_lines total_slots = map spec_date_line total_slots.
Proof.
  unfold slots_lines.
  etransitivity;
    [apply (fold_left_snoc_map
              (fun kv : string * list string =>
                 (fst kv ++ ": " ++
                  (if (2 <? length (snd kv))%nat
                   then Py.join ", " (firstn 2 (snd kv)) ++ " (+" ++
                        Py.str_of_nat (length (snd kv) - 2) ++ " more)"
                   else Py.join ", " (firstn 2 (snd kv))))%string))|].
  simpl. apply map_ext. intros kv. unfold spec_date_line.
  destruct (2 <? length (snd kv))%nat; [reflexivity|].
  rewrite append_nil_r. reflexivity.
Qed.

(** C6.  The lines of the message are the date lines of the slots in
    their insertion order; a date line shows the date and at most two of
    its times, followed by [(+K more)] when it has more than two.  The
    message shows at most three date lines and, when there are more than
    three dates, a final [(+M more dates)].  For the four June dates with
    three times each this gives the three lines
    [June n: 9:00, 10:00 (+1 more)] and then [(+1 more dates)]. *)
Theorem message_composition :
  (forall total_slots,
      slots_lines total_slots = map spec_date_line total_slots
      /\ display_lines (slots_lines total_slots)
         = map spec_date_line (firstn 3 total_slots)
      /\ (length (display_lines (slots_lines total_slots)) <= 3)%nat
      /\ more_dates_suffix (slots_lines total_slots)
         = spec_more_dates (length total_slots))
  /\ (forall category location_name total_slots,
         notification_body category location_name total_slots
         = ("📋 " ++ category ++ Py.newline
            ++ "📍 " ++ location_name ++ Py.newline
            ++ "📅 Available slots:" ++ Py.newline
            ++ Py.join Py.newline (map spec_date_line (firstn 3 total_slots))
            ++ spec_more_dates (length total_slots))%string)
  /\ (forall date times,
         (length times <= 2)%nat ->
         spec_date_line (date, times)
         = (date ++ ": " ++ Py.join ", " times)%string)
  /\ (forall date time1 time2 more,
         more <> [] ->
         spec_date_line (date, time1 :: time2 :: more)
         = (date ++ ": " ++ time1 ++ ", " ++ time2 ++ " (+"
            ++ Py.str_of_nat (length more) ++ " more)")%string)
  /\ notification_body "Fees" "Cary" june_slots = june_body.
Proof.
  assert (Hlines : forall total_slots,
             display_lines (slots_lines total_slots)
             = map spec_date_line (firstn 3 total_slots)).
  { intros. unfold display_lines. rewrite slots_lines_map.
    apply firstn_map. }
  assert (Hmore : forall total_slots,
             more_dates_suffix (slots_lines total_slots)
             = spec_more_dates (length total_slots)).
  { intros. unfold more_dates_suffix, spec_more_dates.
    rewrite slots_lines_map, length_map. reflexivity. }
  split; [|split; [|split; [|split]]].
  - intros total_slots. split; [apply slots_lines_map|].
    split; [apply Hlines|]. split; [|apply Hmore].
    rewrite Hlines, length_map, length_firstn. lia.
  - intros. unfold notification_body. rewrite Hlines, Hmore. reflexivity.
  - intros date times Hlen. unfold spec_date_line. simpl fst. simpl snd.
    replace (2 <? length times)%nat with false
      by (symmetry; apply Nat.ltb_ge; exact Hlen).
    rewrite firstn_all2 by exact Hlen.
    rewrite append_nil_r. reflexivity.
  - intros date time1 time2 more Hne. unfold spec_date_line.
    simpl fst. simpl snd.
    destruct more as [|time3 more]; [congruence|].
    simpl. rewrite !append_assoc. reflexivity.
  - vm_compute. reflexivity.
Qed.

(** ** The audience of a push message *)








(** ** The snapshot table *)

Section Upsert.
Variables (cat loc : string) (slots : Z) (timestamp : string).

Lemma same_key_updated c l r :
  Database.same_key c l (Database.set_slots cat loc slots timestamp r) = Database.same_key c l r.
Proof.
  unfold Database.set_slots. destruct (Database.same_key cat loc r); reflexivity.
Qed.

Lemma count_rows_updated c l rows :
  count_rows c l (map (Database.set_slots cat loc slots timestamp) rows) = count_rows c l rows.
Proof.
  unfold count_rows. induction rows as [|r rows IH]; [reflexivity|].
  simpl. rewrite same_key_updated.
  destruct (Database.same_key c l r); simpl; rewrite IH; reflexivity.
Qed.

Lemma same_key_both c l r :
  Database.same_key cat loc r = true ->
  Database.same_key c l r = (String.eqb c cat && String.eqb l loc)%bool.
Proof.
  unfold Database.same_key. rewrite andb_true_iff, !String.eqb_eq.
  intros (-> & ->). rewrite (String.eqb_sym c), (String.eqb_sym l).
  reflexivity.
Qed.

Lemma count_rows_none rows :
  existsb (Database.same_key cat loc) rows = false ->
  count_rows cat loc rows = 0%nat.
Proof.
  unfold count_rows. induction rows as [|r rows IH]; [reflexivity|].
  simpl. destruct (Database.same_key cat loc r); simpl; [discriminate|].
  exact IH.
Qed.

Lemma count_rows_some rows :
  existsb (Database.same_key cat loc) rows = true ->
  (1 <= count_rows cat loc rows)%nat.
Proof.
  unfold count_rows. induction rows as [|r rows IH]; [discriminate|].
  simpl. destruct (Database.same_key cat loc r); simpl; [lia|]. exact IH.
Qed.

(** An upsert adds one row for a new key and none otherwise. *)
Lemma count_rows_upsert c l rows :
  count_rows c l (Database.upsert rows cat loc slots timestamp)
  = if (String.eqb c cat && String.eqb l loc)%bool
    then Nat.max 1 (count_rows c l rows)
    else count_rows c l rows.
Proof.
  unfold Database.upsert.
  destruct (existsb (Database.same_key cat loc) rows) eqn:Hex.
  - rewrite count_rows_updated.
    destruct (String.eqb c cat && String.eqb l loc)%bool eqn:Hk; [|reflexivity].
    apply andb_true_iff in Hk. destruct Hk as (Hc & Hl).
    apply String.eqb_eq in Hc, Hl. subst c l.
    pose proof (count_rows_some rows Hex). lia.
  - unfold count_rows at 1. rewrite filter_app, length_app. simpl.
    unfold Database.same_key at 2. simpl.
    rewrite (String.eqb_sym cat c), (String.eqb_sym loc l).
    destruct (String.eqb c cat && String.eqb l loc)%bool eqn:Hk; simpl.
    + apply andb_true_iff in Hk. destruct Hk as (Hc & Hl).
      apply String.eqb_eq in Hc, Hl. subst c l.
      fold (count_rows cat loc rows). rewrite (count_rows_none rows Hex).
      reflexivity.
    + fold (count_rows c l rows). lia.
Qed.

Lemma unique_keys_upsert rows :
  unique_keys rows ->
  unique_keys (Database.upsert rows cat loc slots timestamp).
Proof.
  intros H c l. rewrite count_rows_upsert. specialize (H c l).
  destruct (String.eqb c cat && String.eqb l loc)%bool; lia.
Qed.

Lemma row_of_updated_same rows :
  existsb (Database.same_key cat loc) rows = true ->
  row_of (map (Database.set_slots cat loc slots timestamp) rows) cat loc = Some (slots, timestamp).
Proof.
  unfold row_of. induction rows as [|r rows IH]; [discriminate|].
  simpl. rewrite same_key_updated.
  destruct (Database.same_key cat loc r) eqn:Hr.
  - intros _. unfold Database.set_slots. rewrite Hr. reflexivity.
  - simpl. exact IH.
Qed.

Lemma row_of_updated_other c l rows :
  (String.eqb c cat && String.eqb l loc)%bool = false ->
  row_of (map (Database.set_slots cat loc slots timestamp) rows) c l = row_of rows c l.
Proof.
  intros Hk. unfold row_of. induction rows as [|r rows IH]; [reflexivity|].
  simpl. rewrite same_key_updated.
  destruct (Database.same_key c l r) eqn:Hr; [|exact IH].
  unfold Database.set_slots.
  destruct (Database.same_key cat loc r) eqn:Hr'; [|reflexivity].
  rewrite (same_key_both c l r Hr'), Hk in Hr. discriminate.
Qed.

Lemma find_app_none {A} (f : A -> bool) l1 l2 :
  existsb f l1 = false -> find f (l1 ++ l2) = find f l2.
Proof.
  induction l1 as [|x l1 IH]; [reflexivity|]. simpl.
  destruct (f x); [discriminate|]. exact IH.
Qed.

Lemma find_app_left {A} (f : A -> bool) l1 x :
  f x = false -> find f (l1 ++ [x]) = find f l1.
Proof.
  intros Hx. induction l1 as [|y l1 IH]; simpl; [rewrite Hx; reflexivity|].
  destruct (f y); [reflexivity|exact IH].
Qed.

(** After an upsert the row of the key shows the new count and time... *)
Lemma row_of_upsert_same rows :
  row_of (Database.upsert rows cat loc slots timestamp) cat loc
  = Some (slots, timestamp).
Proof.
  unfold Database.upsert.
  destruct (existsb (Database.same_key cat loc) rows) eqn:Hex.
  - apply row_of_updated_same. exact Hex.
  - unfold row_of. rewrite (find_app_none _ _ _ Hex). simpl.
    unfold Database.same_key. simpl. rewrite !String.eqb_refl. reflexivity.
Qed.

(** ... and every other row is as before. *)
Lemma row_of_upsert_other c l rows :
  (String.eqb c cat && String.eqb l loc)%bool = false ->
  row_of (Database.upsert rows cat loc slots timestamp) c l = row_of rows c l.
Proof.
  intros Hk. unfold Database.upsert.
  destruct (existsb (Database.same_key cat loc) rows) eqn:Hex.
  - apply row_of_updated_other. exact Hk.
  - unfold row_of. rewrite find_app_left; [reflexivity|].
    unfold Database.same_key. simpl.
    rewrite (String.eqb_sym cat c), (String.eqb_sym loc l). exact Hk.
Qed.

End Upsert.

Lemma count_rows_upsert_ge c l rows cat loc slots timestamp :
  (count_rows c l rows
   <= count_rows c l (Database.upsert rows cat loc slots timestamp))%nat.
Proof.
  rewrite count_rows_upsert.
  destruct (String.eqb c cat && String.eqb l loc)%bool; lia.
Qed.

(** The first loop of [save_slots_info]. *)
Lemma zero_all_locations cat timestamp locs : forall rows,
  unique_keys rows ->
  let zeroed :=
    fold_left (fun rows location =>
                 Database.upsert rows cat location 0%Z timestamp) locs rows in
  unique_keys zeroed
  /\ (forall c l, (count_rows c l rows <= count_rows c l zeroed)%nat)
  /\ (forall loc, In loc locs ->
        row_of zeroed cat loc = Some (0%Z, timestamp)
        /\ (1 <= count_rows cat loc zeroed)%nat).
Proof.
  induction locs as [|x locs IH]; intros rows Hu; cbv zeta; simpl.
  - split; [exact Hu|]. split; [intros; lia | intros loc []].
  - destruct (IH (Database.upsert rows cat x 0%Z timestamp)
                 (unique_keys_upsert _ _ _ _ _ Hu)) as (Hu' & Hge & Hin).
    split; [exact Hu'|]. split.
    + intros c l. etransitivity; [|apply Hge]. apply count_rows_upsert_ge.
    + intros loc [->|Hloc]; [|apply Hin; exact Hloc].
      destruct (in_dec string_dec loc locs) as [Hl|Hl]; [apply Hin; exact Hl|].
      split.
      * clear IH Hu' Hge Hin.
        assert (Hrow : row_of (Database.upsert rows cat loc 0%Z timestamp)
                              cat loc = Some (0%Z, timestamp))
          by apply row_of_upsert_same.
        revert Hrow. generalize (Database.upsert rows cat loc 0%Z timestamp).
        induction locs as [|y locs IH]; intros rows' Hrow; [exact Hrow|].
        simpl. apply IH; [intros H; apply Hl; right; exact H|].
        rewrite row_of_upsert_other; [exact Hrow|].
        rewrite String.eqb_refl. simpl. apply String.eqb_neq.
        intros ->. apply Hl. left. reflexivity.
      * etransitivity; [|apply Hge]. rewrite count_rows_upsert.
        rewrite !String.eqb_refl. cbn [andb]. apply Nat.le_max_l.
Qed.

(** The second loop of [save_slots_info]. *)
Lemma set_observed_counts cat timestamp slots_data : forall rows,
  unique_keys rows ->
  let updated :=
    fold_left (fun rows slot =>
                 Database.upsert rows cat (fst slot) (snd slot) timestamp)
              slots_data rows in
  unique_keys updated
  /\ (forall c l, (count_rows c l rows <= count_rows c l updated)%nat)
  /\ (forall loc v,
        row_of rows cat loc = Some (v, timestamp) ->
        row_of updated cat loc = Some (last_slots slots_data loc v, timestamp)).
Proof.
  induction slots_data as [|[l n] slots_data IH]; intros rows Hu;
    cbv zeta; simpl.
  - split; [exact Hu|]. split; [intros; lia | auto].
  - destruct (IH (Database.upsert rows cat l n timestamp)
                 (unique_keys_upsert _ _ _ _ _ Hu)) as (Hu' & Hge & Hrow).
    split; [exact Hu'|]. split.
    + intros c l'. etransitivity; [|apply Hge]. apply count_rows_upsert_ge.
    + intros loc v Hv. unfold last_slots. simpl.
      destruct (String.eqb l loc) eqn:Hl.
      * apply String.eqb_eq in Hl. subst l.
        apply Hrow. apply row_of_upsert_same.
      * apply Hrow. rewrite row_of_upsert_other; [exact Hv|].
        rewrite String.eqb_refl, (String.eqb_sym loc l), Hl. reflexivity.
Qed.

Lemma last_slots_absent slots_data loc : forall v,
  ~ In loc (map fst slots_data) -> last_slots slots_data loc v = v.
Proof.
  unfold last_slots.
  induction slots_data as [|[l n] slots_data IH]; intros v Hn; [reflexivity|].
  simpl. destruct (String.eqb l loc) eqn:Hl.
  - apply String.eqb_eq in Hl. subst l. exfalso. apply Hn. left. reflexivity.
  - apply IH. intros H. apply Hn. right. exact H.
Qed.

Lemma last_slots_present slots_data loc n : forall v,
  NoDup (map fst slots_data) -> In (loc, n) slots_data ->
  last_slots slots_data loc v = n.
Proof.
  unfold last_slots.
  induction slots_data as [|[l m] slots_data IH]; intros v Hnd Hin;
    [contradiction|].
  simpl in *. inversion Hnd as [|? ? Hnotin Hnd']; subst.
  destruct Hin as [Heq|Hin].
  - injection Heq as -> ->. rewrite String.eqb_refl.
    apply (last_slots_absent slots_data loc n Hnotin).
  - destruct (String.eqb l loc) eqn:Hl.
    + apply String.eqb_eq in Hl. subst l. exfalso. apply Hnotin.
      apply (in_map fst _ _ Hin).
    + apply IH; assumption.
Qed.

(** ** [check_locations]: what is written to the snapshot *)

(** A location that was processed contributes one entry: the number of
    times in what [slots_or_empty] returned for it. *)
Lemma process_location_result E cfg db category location slots_data t
    slots_data' t' :
  process_location E cfg db category location slots_data t
  = (Ok slots_data', t') ->
  exists total_slots t1,
    slots_or_empty E cfg location t = (Ok total_slots, t1)
    /\ slots_data' = slots_data ++ [(location, Py.total_len total_slots)].
Proof.
  unfold process_location, try_finally, bind.
  destruct (slots_or_empty E cfg location t) as [[total_slots|e] t1].
  - destruct (send_notification E cfg db category location total_slots t1)
      as [[sent|e] t2].
    + unfold ret.
      destruct (go_back E (Config.location_page_text cfg) t2) as [[[]|e] t3];
        [|discriminate].
      intros H. injection H as <- <-. eauto.
    + destruct (go_back E (Config.location_page_text cfg) t2) as [[[]|e'] t3];
        discriminate.
  - destruct (go_back E (Config.location_page_text cfg) t1) as [[[]|e'] t3];
      discriminate.
Qed.

Lemma scan_locations_data E cfg db category locs :
  forall visited slots_data t slots_data' t',
  scan_locations E cfg db category locs visited slots_data t
  = (Ok slots_data', t') ->
  (forall l, In l (map fst slots_data) -> In l visited) ->
  NoDup (map fst slots_data) ->
  NoDup (map fst slots_data')
  /\ (forall l, In l (map fst slots_data') ->
        In l (map fst slots_data) \/ In l locs)
  /\ (forall l n, In (l, n) slots_data' ->
        In (l, n) slots_data
        \/ exists t0 present total_slots t2,
             env_count E t0 (location_panel l) = Ok present
             /\ present <> 0%Z
             /\ slots_or_empty E cfg l
                  (EvCount (location_panel l) (Ok present) :: t0)
                = (Ok total_slots, t2)
             /\ n = Py.total_len total_slots).
Proof.
  induction locs as [|location rest IH];
    intros visited slots_data t slots_data' t' Hscan Hvis Hnd.
  - simpl in Hscan. injection Hscan as <- <-.
    split; [exact Hnd|]. split; auto.
  - simpl in Hscan.
    destruct (Py.list_in location visited) eqn:Hin.
    { destruct (IH _ _ _ _ _ Hscan Hvis Hnd) as (H1 & H2 & H3).
      split; [exact H1|]. split; [|exact H3].
      intros l Hl. destruct (H2 l Hl); [left|right; right]; assumption. }
    unfold bind at 1, count at 1, call in Hscan.
    destruct (env_count E t (location_panel location)) as [present|e] eqn:Hcount;
      [|discriminate].
    destruct (present =? 0)%Z eqn:Hpresent.
    { destruct (IH _ _ _ _ _ Hscan Hvis Hnd) as (H1 & H2 & H3).
      split; [exact H1|]. split; [|exact H3].
      intros l Hl. destruct (H2 l Hl); [left|right; right]; assumption. }
    unfold bind at 1 in Hscan.
    destruct (process_location E cfg db category location slots_data _)
      as [[data1|e] t1] eqn:Hproc; [|discriminate].
    destruct (process_location_result _ _ _ _ _ _ _ _ _ Hproc)
      as (total_slots & t0 & Hslots & ->).
    assert (Hnotin : ~ In location (map fst slots_data)).
    { intros H. apply Hvis in H. apply list_in_In in H. congruence. }
    destruct (IH _ _ _ _ _ Hscan) as (H1 & H2 & H3).
    + intros l. rewrite map_app, in_app_iff. simpl.
      intros [H|[<-|[]]]; [right; apply Hvis; exact H | left; reflexivity].
    + rewrite map_app. simpl. apply NoDup_app; [exact Hnd | | ].
      * constructor; [intros []|constructor].
      * intros l Hl [<-|[]]. exact (Hnotin Hl).
    + split; [exact H1|]. split.
      * intros l Hl. destruct (H2 l Hl) as [H|H]; [|right; right; exact H].
        rewrite map_app, in_app_iff in H. simpl in H.
        destruct H as [H|[<-|[]]]; [left; exact H|right; left; reflexivity].
      * intros l n Hl. destruct (H3 l n Hl) as [H|H]; [|right; exact H].
        rewrite in_app_iff in H. simpl in H.
        destruct H as [H|[H|[]]]; [left; exact H|].
        injection H as <- <-. right.
        exists t, present, total_slots, t0.
        apply Z.eqb_neq in Hpresent. auto.
Qed.

Lemma save_slots_info_rows db timestamp cat locs slots_data loc :
  unique_keys (Database.last_check db) ->
  In loc locs ->
  unique_keys (Database.last_check
                 (Database.save_slots_info db timestamp cat locs slots_data))
  /\ count_rows cat loc
       (Database.last_check
          (Database.save_slots_info db timestamp cat locs slots_data))
     = 1%nat
  /\ row_of (Database.last_check
               (Database.save_slots_info db timestamp cat locs slots_data))
            cat loc
     = Some (last_slots slots_data loc 0%Z, timestamp).
Proof.
  intros Hu Hloc. unfold Database.save_slots_info. simpl.
  destruct (zero_all_locations cat timestamp locs _ Hu) as (Hu1 & _ & Hz).
  destruct (Hz loc Hloc) as (Hrow & Hcount).
  destruct (set_observed_counts cat timestamp slots_data _ Hu1)
    as (Hu2 & Hge & Hset).
  split; [exact Hu2|]. split.
  - specialize (Hge cat loc). specialize (Hu2 cat loc). lia.
  - apply Hset. exact Hrow.
Qed.

(** The loop only appends to the summaries, and only entries of locations
    it was given. *)
Lemma scan_locations_extends E cfg db category locs :
  forall visited slots_data t final t',
  scan_locations E cfg db category locs visited slots_data t = (Ok final, t') ->
  exists more,
    final = slots_data ++ more
    /\ (forall l, In l (map fst more) -> In l locs).
Proof.
  induction locs as [|location rest IH]; intros visited slots_data t final t';
    simpl.
  - unfold ret. intros H. injection H as <- _. exists [].
    split; [symmetry; apply app_nil_r|intros l []].
  - destruct (Py.list_in location visited).
    { intros H. destruct (IH _ _ _ _ _ H) as (more & Hf & Hin).
      exists more. split; [exact Hf|]. intros l Hl. right. apply Hin, Hl. }
    unfold bind at 1, count at 1, call.
    destruct (env_count E t (location_panel location)) as [present|e];
      [|discriminate].
    destruct (present =? 0)%Z.
    { intros H. destruct (IH _ _ _ _ _ H) as (more & Hf & Hin).
      exists more. split; [exact Hf|]. intros l Hl. right. apply Hin, Hl. }
    unfold bind at 1.
    destruct (process_location E cfg db category location slots_data _)
      as [[slots_data'|e] t1] eqn:Hp; [|discriminate].
    destruct (process_location_result _ _ _ _ _ _ _ _ _ Hp)
      as (total_slots & t2 & _ & ->).
    intros H. destruct (IH _ _ _ _ _ H) as (more & Hf & Hin).
    exists ((location, Py.total_len total_slots) :: more).
    split; [rewrite Hf, <- app_assoc; reflexivity|].
    intros l [<-|Hl]; [left; reflexivity|right; apply Hin, Hl].
Qed.

(** The loop over a list of locations is the loop over its first part
    followed by the loop over the rest, which starts from the locations
    visited, the summaries and the trace the first part leaves. *)
Lemma scan_locations_app E cfg db category before rest :
  forall visited slots_data t final t',
  scan_locations E cfg db category (before ++ rest) visited slots_data t
  = (Ok final, t') ->
  exists more t0,
    scan_locations E cfg db category before visited slots_data t
    = (Ok (slots_data ++ more), t0)
    /\ scan_locations E cfg db category rest
         (rev (map fst more) ++ visited) (slots_data ++ more) t0
       = (Ok final, t')
    /\ (forall l, In l (map fst more) -> In l before).
Proof.
  induction before as [|location before IH];
    intros visited slots_data t final t'; simpl.
  - intros H. exists [], t. rewrite app_nil_r. unfold ret.
    split; [reflexivity|]. split; [exact H|intros l []].
  - destruct (Py.list_in location visited).
    { intros H. destruct (IH _ _ _ _ _ H) as (more & t0 & H1 & H2 & Hin).
      exists more, t0. split; [exact H1|]. split; [exact H2|].
      intros l Hl. right. apply Hin, Hl. }
    unfold bind at 1 3, count at 1 2, call.
    destruct (env_count E t (location_panel location)) as [present|e];
      [|discriminate].
    destruct (present =? 0)%Z.
    { intros H. destruct (IH _ _ _ _ _ H) as (more & t0 & H1 & H2 & Hin).
      exists more, t0. split; [exact H1|]. split; [exact H2|].
      intros l Hl. right. apply Hin, Hl. }
    unfold bind at 1 2.
    destruct (process_location E cfg db category location slots_data _)
      as [[slots_data'|e] t1] eqn:Hp; [|discriminate].
    destruct (process_location_result _ _ _ _ _ _ _ _ _ Hp)
      as (total_slots & t2 & _ & ->).
    intros H. destruct (IH _ _ _ _ _ H) as (more & t0 & H1 & H2 & Hin).
    exists ((location, Py.total_len total_slots) :: more), t0.
    rewrite <- app_assoc in H1, H2. simpl in H1, H2.
    split; [exact H1|]. split.
    + simpl. rewrite <- app_assoc. simpl. exact H2.
    + intros l [<-|Hl]; [left; reflexivity|right; apply Hin, Hl].
Qed.

Lemma list_in_false x xs : ~ In x xs -> Py.list_in x xs = false.
Proof.
  intros H. destruct (Py.list_in x xs) eqn:Hx; [|reflexivity].
  apply list_in_In in Hx. contradiction.
Qed.

(** What the loop does when it reaches a location for the first time. *)
Lemma scan_locations_reached E cfg db category location after visited
    slots_data t final t' :
  ~ In location visited ->
  (forall l, In l (map fst slots_data) -> In l visited) ->
  NoDup (map fst slots_data) ->
  scan_locations E cfg db category (location :: after) visited slots_data t
  = (Ok final, t') ->
  match env_count E t (location_panel location) with
  | Ok present =>
      if (present =? 0)%Z
      then ~ In location after -> ~ In location (map fst final)
      else exists total_slots t2,
             slots_or_empty E cfg location
               (EvCount (location_panel location) (Ok present) :: t)
             = (Ok total_slots, t2)
             /\ In (location, Py.total_len total_slots) final
             /\ last_slots final location 0%Z = Py.total_len total_slots
  | Raise _ => False
  end.
Proof.
  intros Hnew Hvis Hnd. simpl. rewrite (list_in_false _ _ Hnew).
  unfold bind at 1, count at 1, call.
  destruct (env_count E t (location_panel location)) as [present|e];
    [|discriminate].
  destruct (present =? 0)%Z.
  - intros H Hafter Hin.
    destruct (scan_locations_extends _ _ _ _ _ _ _ _ _ _ H)
      as (more & -> & Hmore).
    rewrite map_app, in_app_iff in Hin. destruct Hin as [Hin|Hin].
    + exact (Hnew (Hvis _ Hin)).
    + exact (Hafter (Hmore _ Hin)).
  - unfold bind at 1.
    destruct (process_location E cfg db category location slots_data _)
      as [[slots_data'|e] t1] eqn:Hp; [|discriminate].
    destruct (process_location_result _ _ _ _ _ _ _ _ _ Hp)
      as (total_slots & t2 & Hs & ->).
    intros H. exists total_slots, t2. split; [exact Hs|].
    destruct (scan_locations_extends _ _ _ _ _ _ _ _ _ _ H)
      as (more & Hf & _).
    assert (Hin : In (location, Py.total_len total_slots) final).
    { rewrite Hf. apply in_app_iff. left. apply in_app_iff. right.
      left. reflexivity. }
    split; [exact Hin|].
    apply last_slots_present; [|exact Hin].
    destruct (scan_locations_data _ _ _ _ _ _ _ _ _ _ H) as (Hnd' & _).
    + intros l Hl. rewrite map_app, in_app_iff in Hl.
      destruct Hl as [Hl|[<-|[]]]; [right; apply Hvis, Hl|left; reflexivity].
    + rewrite map_app. simpl. apply NoDup_app; [exact Hnd | constructor; [intros []|constructor] |].
      intros l0 Hl [<-|[]]. exact (Hnew (Hvis _ Hl)).
    + exact Hnd'.
Qed.

(** The write at the end of a scan, in terms of the summaries the loop
    returned: the category key and the configured locations are those of
    [save_slots_info]. *)
Lemma check_locations_rows E cfg db category t slots_data t' loc :
  unique_keys (Database.last_check db) ->
  scan_locations E cfg db category (Config.locations cfg) [] [] t
  = (Ok slots_data, t') ->
  In loc (Config.locations cfg) ->
  exists db',
    check_locations E cfg db category t = (Ok db', t')
    /\ unique_keys (Database.last_check db')
    /\ count_rows (category_key cfg category) loc (Database.last_check db')
       = 1%nat
    /\ row_of (Database.last_check db') (category_key cfg category) loc
       = Some (last_slots slots_data loc 0%Z,
               Datetime.isoformat (env_now E t')).
Proof.
  intros Hu Hscan Hloc.
  exists (save_slots_info cfg db (Datetime.isoformat (env_now E t'))
                          category slots_data).
  split.
  { unfold check_locations. rewrite (bind_ok _ _ _ _ _ Hscan). reflexivity. }
  unfold save_slots_info.
  apply save_slots_info_rows; assumption.
Qed.

(** C1.  After [save_slots_info] the table holds exactly one row for the
    category and each configured location; the row shows the count the
    slot summaries give for the location, 0 when they have no entry for
    it, and the time of this write.  The summaries a scan writes have one
    entry per location that was found on the page and processed, holding
    the number of times read there (which is 0 when entering or reading
    failed, since the result is then empty); a location without entry
    keeps the 0 of the first pass.  For the scan as a whole: when
    [check_locations] ends normally, the store it returns has, under the
    key the category maps to (the category itself when it has no mapping),
    exactly one row for a configured location; when the loop reaches the
    location, its panel is either on the page, and the row shows the
    number of times [slots_or_empty] returned for it there, or it is not,
    and the row shows 0; the subscriptions are as before. *)
Theorem snapshot_after_scan :
  (forall db timestamp cat locs slots_data loc,
      unique_keys (Database.last_check db) ->
      In loc locs ->
      unique_keys (Database.last_check
                     (Database.save_slots_info db timestamp cat locs slots_data))
      /\ count_rows cat loc
           (Database.last_check
              (Database.save_slots_info db timestamp cat locs slots_data))
         = 1%nat
      /\ row_of (Database.last_check
                   (Database.save_slots_info db timestamp cat locs slots_data))
                cat loc
         = Some (last_slots slots_data loc 0%Z, timestamp))
  /\ (forall E cfg db category t slots_data t',
         scan_locations E cfg db category (Config.locations cfg) [] [] t
         = (Ok slots_data, t') ->
         check_locations E cfg db category t
         = (Ok (save_slots_info cfg db (Datetime.isoformat (env_now E t'))
                                category slots_data), t')
         /\ NoDup (map fst slots_data)
         /\ (forall loc n,
                In (loc, n) slots_data ->
                In loc (Config.locations cfg)
                /\ last_slots slots_data loc 0%Z = n
                /\ exists t0 present total_slots t2,
                     env_count E t0 (location_panel loc) = Ok present
                     /\ present <> 0%Z
                     /\ slots_or_empty E cfg loc
                          (EvCount (location_panel loc) (Ok present) :: t0)
                        = (Ok total_slots, t2)
                     /\ n = Py.total_len total_slots)
         /\ (forall loc,
                ~ In loc (map fst slots_data) ->
                last_slots slots_data loc 0%Z = 0%Z))
  /\ (forall E cfg db category t slots_data t' before location after,
         unique_keys (Database.last_check db) ->
         scan_locations E cfg db category (Config.locations cfg) [] [] t
         = (Ok slots_data, t') ->
         Config.locations cfg = before ++ location :: after ->
         ~ In location before ->
         exists db' reached t0,
           check_locations E cfg db category t = (Ok db', t')
           /\ Database.subscriptions db' = Database.subscriptions db
           /\ unique_keys (Database.last_check db')
           /\ count_rows (category_key cfg category) location
                         (Database.last_check db') = 1%nat
           /\ scan_locations E cfg db category before [] [] t
              = (Ok reached, t0)
           /\ match env_count E t0 (location_panel location) with
              | Ok present =>
                  if (present =? 0)%Z
                  then ~ In location after ->
                       row_of (Database.last_check db')
                              (category_key cfg category) location
                       = Some (0%Z, Datetime.isoformat (env_now E t'))
                  else exists total_slots t2,
                         slots_or_empty E cfg location
                           (EvCount (location_panel location) (Ok present)
                            :: t0)
                         = (Ok total_slots, t2)
                         /\ row_of (Database.last_check db')
                                   (category_key cfg category) location
                            = Some (Py.total_len total_slots,
                                    Datetime.isoformat (env_now E t'))
              | Raise _ => False
              end).
Proof.
  split; [|split].
  - intros db timestamp cat locs slots_data loc Hu Hloc.
    apply save_slots_info_rows; assumption.
  - intros E cfg db category t slots_data t' Hscan.
    destruct (scan_locations_data _ _ _ _ _ _ _ _ _ _ Hscan)
      as (Hnd & Hincl & Horigin); [intros l [] | constructor |].
    split.
    { unfold check_locations. rewrite (bind_ok _ _ _ _ _ Hscan). reflexivity. }
    split; [exact Hnd|]. split.
    + intros loc n Hin. split.
      * destruct (Hincl loc (in_map fst _ _ Hin)) as [[]|H]; exact H.
      * split; [apply last_slots_present; assumption|].
        destruct (Horigin loc n Hin) as [[]|H]; exact H.
    + intros loc Hloc. apply last_slots_absent. exact Hloc.
  - intros E cfg db category t slots_data t' before location after
           Hu Hscan Hlocs Hnew.
    assert (Hloc : In location (Config.locations cfg)).
    { rewrite Hlocs. apply in_app_iff. right. left. reflexivity. }
    destruct (check_locations_rows _ _ _ _ _ _ _ _ Hu Hscan Hloc)
      as (db' & Hcheck & Hu' & Hcount & Hrow).
    pose proof Hscan as Hsplit. rewrite Hlocs in Hsplit.
    destruct (scan_locations_app _ _ _ _ _ _ _ _ _ _ _ Hsplit)
      as (reached & t0 & Hbefore & Hrest & Hin).
    simpl in Hbefore, Hrest. rewrite app_nil_r in Hrest.
    exists db', reached, t0.
    split; [exact Hcheck|]. split.
    { unfold check_locations in Hcheck.
      rewrite (bind_ok _ _ _ _ _ Hscan) in Hcheck.
      injection Hcheck as <-. reflexivity. }
    split; [exact Hu'|]. split; [exact Hcount|]. split; [exact Hbefore|].
    assert (Hreached :
      match env_count E t0 (location_panel location) with
      | Ok present =>
          if (present =? 0)%Z
          then ~ In location after -> ~ In location (map fst slots_data)
          else exists total_slots t2,
                 slots_or_empty E cfg location
                   (EvCount (location_panel location) (Ok present) :: t0)
                 = (Ok total_slots, t2)
                 /\ In (location, Py.total_len total_slots) slots_data
                 /\ last_slots slots_data location 0%Z
                    = Py.total_len total_slots
      | Raise _ => False
      end).
    { refine (scan_locations_reached _ _ _ _ _ _ _ _ _ _ _ _ _ _ Hrest).
      - intros H. apply in_rev in H. exact (Hnew (Hin _ H)).
      - intros l Hl. apply in_rev. rewrite rev_involutive. exact Hl.
      - destruct (scan_locations_data _ _ _ _ _ _ _ _ _ _ Hbefore)
          as (Hnd & _); [intros l [] | constructor | exact Hnd]. }
    destruct (env_count E t0 (location_panel location)) as [present|e];
      [|exact Hreached].
    destruct (present =? 0)%Z.
    + intros Hafter. rewrite Hrow.
      rewrite (last_slots_absent _ _ 0%Z (Hreached Hafter)). reflexivity.
    + destruct Hreached as (total_slots & t2 & Hs & _ & Hlast).
      exists total_slots, t2. split; [exact Hs|].
      rewrite Hrow, Hlast. reflexivity.
Qed.

Lemma snapshot_after_scan_witness :
  exists db' t',
    check_locations open_slot_env Config.default one_subscriber "Fees" []
    = (Ok db', t')
    /\ count_rows "fees" "Cary" (Database.last_check db') = 1%nat
    /\ row_of (Database.last_check db') "fees" "Cary"
       = Some (1%Z, "2025-06-01T12:00:00"%string).
Proof.
  destruct (proj2 (proj2 snapshot_after_scan)
              open_slot_env Config.default one_subscriber "Fees" []
              [("Cary", 1%Z)]
              (snd (scan_locations open_slot_env Config.default
                      one_subscriber "Fees"
                      (Config.locations Config.default) [] [] []))
              (firstn 12 (Config.locations Config.default))
              "Cary"
              (skipn 13 (Config.locations Config.default)))
    as (db' & reached & t0 & Hcheck & _ & _ & Hcount & Hbefore & Hrow).
  - intros cat loc. apply Nat.le_0_l.
  - vm_compute. reflexivity.
  - vm_compute. reflexivity.
  - simpl. intuition discriminate.
  - vm_compute in Hbefore. injection Hbefore as <- <-.
    vm_compute in Hrow. destruct Hrow as (total_slots & t2 & Hslots & Hrow).
    injection Hslots as <- _.
    exists db', (snd (scan_locations open_slot_env Config.default
                        one_subscriber "Fees"
                        (Config.locations Config.default) [] [] [])).
    split; [exact Hcheck|]. split; [exact Hcount|exact Hrow].
Defined.

(** ** Repeated scans *)





(** ** Timestamps as text

    The store compares [created_at] with the cutoff as strings.  For the
    texts [isoformat] produces, that comparison is the comparison of the
    moments. *)

Lemma compare_append_same_length a b x y :
  String.length a = String.length b ->
  String.compare (a ++ x) (b ++ y)
  = match String.compare a b with
    | Eq => String.compare x y
    | c => c
    end.
Proof.
  revert b. induction a as [|c a IH]; intros [|c' b] H; try discriminate.
  - reflexivity.
  - simpl in *. destruct (Ascii.compare c c'); try reflexivity.
    apply IH. lia.
Qed.

Lemma compare_refl s : String.compare s s = Eq.
Proof.
  induction s as [|c s IH]; [reflexivity|]. simpl.
  unfold Ascii.compare. rewrite N.compare_refl. exact IH.
Qed.

Lemma length_append a b :
  String.length (a ++ b) = (String.length a + String.length b)%nat.
Proof. induction a as [|c a IH]; simpl; [|rewrite IH]; reflexivity. Qed.

Lemma length_digits_fixed w : forall z,
  String.length (Datetime.digits_fixed w z) = w.
Proof.
  induction w as [|w IH]; intros z; [reflexivity|]. simpl.
  rewrite length_append, IH. simpl. lia.
Qed.

Lemma digit_compare x y :
  (0 <= x < 10)%Z -> (0 <= y < 10)%Z ->
  Ascii.compare (Datetime.digit x) (Datetime.digit y) = Z.compare x y.
Proof.
  intros Hx Hy.
  assert (Cx : (x = 0 \/ x = 1 \/ x = 2 \/ x = 3 \/ x = 4 \/ x = 5 \/ x = 6
                \/ x = 7 \/ x = 8 \/ x = 9)%Z) by lia.
  assert (Cy : (y = 0 \/ y = 1 \/ y = 2 \/ y = 3 \/ y = 4 \/ y = 5 \/ y = 6
                \/ y = 7 \/ y = 8 \/ y = 9)%Z) by lia.
  clear Hx Hy.
  repeat (destruct Cx as [Cx|Cx]).
  all: subst x.
  all: repeat (destruct Cy as [Cy|Cy]).
  all: subst y.
  all: vm_compute; reflexivity.
Qed.

Lemma compare_by_last_digit a b :
  (0 <= a)%Z -> (0 <= b)%Z ->
  Z.compare a b
  = match Z.compare (a / 10) (b / 10) with
    | Eq => Z.compare (a mod 10) (b mod 10)
    | c => c
    end.
Proof.
  intros Ha Hb.
  pose proof (Z.div_mod a 10 ltac:(lia)) as Da.
  pose proof (Z.div_mod b 10 ltac:(lia)) as Db.
  pose proof (Z.mod_pos_bound a 10 ltac:(lia)) as Ma.
  pose proof (Z.mod_pos_bound b 10 ltac:(lia)) as Mb.
  destruct (Z.compare_spec (a / 10) (b / 10)) as [Hq|Hq|Hq].
  - destruct (Z.compare_spec (a mod 10) (b mod 10)) as [Hr|Hr|Hr];
      [apply Z.compare_eq_iff | apply Z.compare_lt_iff | apply Z.compare_gt_iff];
      lia.
  - apply Z.compare_lt_iff. lia.
  - apply Z.compare_gt_iff. lia.
Qed.

(** Numbers printed with the same number of digits compare as numbers. *)
Lemma digits_fixed_compare w : forall a b,
  (0 <= a < 10 ^ Z.of_nat w)%Z -> (0 <= b < 10 ^ Z.of_nat w)%Z ->
  String.compare (Datetime.digits_fixed w a) (Datetime.digits_fixed w b)
  = Z.compare a b.
Proof.
  induction w as [|w IH]; intros a b Ha Hb.
  - simpl in *. symmetry. apply Z.compare_eq_iff. lia.
  - simpl Datetime.digits_fixed.
    rewrite compare_append_same_length
      by (rewrite !length_digits_fixed; reflexivity).
    rewrite Nat2Z.inj_succ, Z.pow_succ_r in Ha, Hb by lia.
    rewrite IH by (split; [apply Z.div_pos; lia
                          | apply Z.div_lt_upper_bound; lia]).
    rewrite (compare_by_last_digit a b) by lia.
    destruct (Z.compare (a / 10) (b / 10)); try reflexivity.
    cbn [String.compare].
    rewrite digit_compare by (apply Z.mod_pos_bound; lia).
    destruct (Z.compare (a mod 10) (b mod 10)); reflexivity.
Qed.

Lemma fmt_d_fixed w z :
  (0 <= z < 10 ^ Z.of_nat w)%Z ->
  Datetime.fmt_d w z = Datetime.digits_fixed w z.
Proof.
  intros H. unfold Datetime.fmt_d.
  replace (z <? 10 ^ Z.of_nat w)%Z with true
    by (symmetry; apply Z.ltb_lt; lia).
  reflexivity.
Qed.

Lemma compare_cons_same c x y :
  String.compare (String c x) (String c y) = String.compare x y.
Proof.
  cbn [String.compare]. unfold Ascii.compare. rewrite N.compare_refl.
  reflexivity.
Qed.

Lemma days_in_month_bounds y m :
  (1 <= m <= 12)%Z -> (28 <= Datetime.days_in_month y m <= 31)%Z.
Proof.
  intros Hm. unfold Datetime.days_in_month.
  assert (Cm : (m = 1 \/ m = 2 \/ m = 3 \/ m = 4 \/ m = 5 \/ m = 6 \/ m = 7
                \/ m = 8 \/ m = 9 \/ m = 10 \/ m = 11 \/ m = 12)%Z) by lia.
  clear Hm. repeat (destruct Cm as [Cm|Cm]).
  all: subst m; destruct (Datetime.is_leap y); simpl; lia.
Qed.

Lemma valid_bounds d :
  Datetime.valid d = true ->
  (1 <= Datetime.year d <= 9999
   /\ 1 <= Datetime.month d <= 12
   /\ 1 <= Datetime.day d
           <= Datetime.days_in_month (Datetime.year d) (Datetime.month d)
   /\ 0 <= Datetime.hour d <= 23
   /\ 0 <= Datetime.minute d <= 59
   /\ 0 <= Datetime.second d <= 59
   /\ 0 <= Datetime.microsecond d <= 999999)%Z.
Proof.
  unfold Datetime.valid. rewrite !andb_true_iff, !Z.leb_le. tauto.
Qed.

(** The optional fraction of [isoformat]. *)
Lemma fraction_compare u v :
  (0 <= u <= 999999)%Z -> (0 <= v <= 999999)%Z ->
  String.compare
    (if (u =? 0)%Z then "" else "." ++ Datetime.fmt_d 6 u)%string
    (if (v =? 0)%Z then "" else "." ++ Datetime.fmt_d 6 v)%string
  = Z.compare u v.
Proof.
  intros Hu Hv.
  destruct (Z.eqb_spec u 0) as [->|Hu0]; destruct (Z.eqb_spec v 0) as [->|Hv0].
  - reflexivity.
  - cbn [append String.compare]. symmetry. apply Z.compare_lt_iff. lia.
  - cbn [append String.compare]. symmetry. apply Z.compare_gt_iff. lia.
  - cbn [append]. rewrite compare_cons_same.
    rewrite !fmt_d_fixed by (simpl; lia).
    apply digits_fixed_compare; simpl; lia.
Qed.

(** [isoformat] texts compare as the field tuples do. *)
Lemma isoformat_compare a b :
  Datetime.valid a = true -> Datetime.valid b = true ->
  String.compare (Datetime.isoformat a) (Datetime.isoformat b)
  = lex_compare (Datetime.fields a) (Datetime.fields b).
Proof.
  intros Va Vb.
  apply valid_bounds in Va, Vb.
  destruct Va as (Ya & Ma & Da & Ha & Mia & Sa & Ua).
  destruct Vb as (Yb & Mb & Db & Hb & Mib & Sb & Ub).
  pose proof (days_in_month_bounds (Datetime.year a) (Datetime.month a) Ma).
  pose proof (days_in_month_bounds (Datetime.year b) (Datetime.month b) Mb).
  unfold Datetime.isoformat, Datetime.fields.
  rewrite !(fmt_d_fixed 4), !(fmt_d_fixed 2) by (simpl; lia).
  cbn [lex_compare].
  repeat (rewrite compare_append_same_length
            by (rewrite !length_digits_fixed; reflexivity);
          rewrite digits_fixed_compare by (simpl; lia);
          match goal with
          | |- context [Z.compare ?x ?y] =>
              destruct (Z.compare x y); try reflexivity
          end;
          cbn [append]; try rewrite compare_cons_same).
  etransitivity; [exact (fraction_compare _ _ Ua Ub)|].
  destruct (Z.compare (Datetime.microsecond a) (Datetime.microsecond b));
    reflexivity.
Qed.

Lemma lex_lt_compare a b :
  Datetime.lex_lt a b
  = match lex_compare a b with Lt => true | _ => false end.
Proof.
  revert b. induction a as [|x a IH]; intros [|y b]; try reflexivity.
  simpl. rewrite IH.
  destruct (Z.compare_spec x y) as [->|H|H].
  - rewrite Z.ltb_irrefl, Z.eqb_refl. reflexivity.
  - replace (x <? y)%Z with true by (symmetry; apply Z.ltb_lt; exact H).
    reflexivity.
  - replace (x <? y)%Z with false by (symmetry; apply Z.ltb_ge; lia).
    replace (x =? y)%Z with false by (symmetry; apply Z.eqb_neq; lia).
    reflexivity.
Qed.

(** The comparison the store makes is the comparison of the datetimes. *)
Lemma isoformat_ltb a b :
  Datetime.valid a = true -> Datetime.valid b = true ->
  String.ltb (Datetime.isoformat a) (Datetime.isoformat b) = Datetime.lt a b.
Proof.
  intros Va Vb. unfold String.ltb, Datetime.lt.
  rewrite (isoformat_compare a b Va Vb), lex_lt_compare.
  destruct (lex_compare (Datetime.fields a) (Datetime.fields b)); reflexivity.
Qed.

(** ** Timestamps as moments

    The tuple order of valid datetimes is the order of their positions
    on the time line. *)

Lemma is_leap_cases y :
  (Datetime.is_leap y = true
   /\ y mod 4 = 0 /\ (y mod 100 <> 0 \/ y mod 400 = 0))%Z
  \/ (Datetime.is_leap y = false
      /\ (y mod 4 <> 0 \/ (y mod 100 = 0 /\ y mod 400 <> 0)))%Z.
Proof.
  unfold Datetime.is_leap.
  destruct (Z.eqb_spec (y mod 4) 0), (Z.eqb_spec (y mod 100) 0),
           (Z.eqb_spec (y mod 400) 0); simpl; intuition lia.
Qed.

Lemma days_before_year_step y :
  Datetime.days_before_year (y + 1)
  = (Datetime.days_before_year y + 365
     + (if Datetime.is_leap y then 1 else 0))%Z.
Proof.
  unfold Datetime.days_before_year.
  replace (y + 1 - 1)%Z with y by lia.
  destruct (is_leap_cases y) as [(-> & H4 & H)|(-> & H)];
    Z.div_mod_to_equations; lia.
Qed.

Lemma days_before_year_mono y (k : nat) :
  (Datetime.days_before_year y + 365 * Z.of_nat k
   <= Datetime.days_before_year (y + Z.of_nat k))%Z.
Proof.
  induction k as [|k IH].
  - replace (y + Z.of_nat 0)%Z with y by lia. lia.
  - rewrite Nat2Z.inj_succ.
    replace (y + Z.succ (Z.of_nat k))%Z with (y + Z.of_nat k + 1)%Z by lia.
    rewrite days_before_year_step.
    destruct (Datetime.is_leap (y + Z.of_nat k)); lia.
Qed.

Lemma days_before_next_year y y' :
  (y < y')%Z ->
  (Datetime.days_before_year y + 365 + (if Datetime.is_leap y then 1 else 0)
   <= Datetime.days_before_year y')%Z.
Proof.
  intros H. rewrite <- days_before_year_step.
  pose proof (days_before_year_mono (y + 1) (Z.to_nat (y' - (y + 1)))) as Hm.
  rewrite Z2Nat.id in Hm by lia.
  replace (y + 1 + (y' - (y + 1)))%Z with y' in Hm by lia. lia.
Qed.

Ltac each_month m Hm :=
  let C := fresh "C" in
  assert (C : (m = 1 \/ m = 2 \/ m = 3 \/ m = 4 \/ m = 5 \/ m = 6 \/ m = 7
               \/ m = 8 \/ m = 9 \/ m = 10 \/ m = 11 \/ m = 12)%Z) by lia;
  clear Hm; repeat (destruct C as [C|C]); subst m.

Ltac eval_tables :=
  repeat match goal with
         | |- context [nth (Z.to_nat ?k) ?l 0%Z] =>
             let v := eval vm_compute in (nth (Z.to_nat k) l 0%Z) in
             change (nth (Z.to_nat k) l 0%Z) with v
         end;
  cbn -[Z.add Z.sub Z.mul].

Lemma day_of_year_bounds y m d :
  (1 <= m <= 12)%Z -> (1 <= d <= Datetime.days_in_month y m)%Z ->
  (1 <= Datetime.days_before_month y m + d
   <= 365 + (if Datetime.is_leap y then 1 else 0))%Z.
Proof.
  intros Hm. unfold Datetime.days_before_month, Datetime.days_in_month.
  each_month m Hm; destruct (Datetime.is_leap y); eval_tables; lia.
Qed.

Lemma day_of_year_mono y m d m' d' :
  (1 <= m <= 12)%Z -> (1 <= m' <= 12)%Z ->
  (d <= Datetime.days_in_month y m)%Z -> (1 <= d')%Z -> (m < m')%Z ->
  (Datetime.days_before_month y m + d
   < Datetime.days_before_month y m' + d')%Z.
Proof.
  intros Hm Hm'. unfold Datetime.days_before_month, Datetime.days_in_month.
  each_month m Hm; each_month m' Hm'; destruct (Datetime.is_leap y);
    eval_tables; lia.
Qed.

(** Earlier in the tuple order means earlier on the time line. *)
Lemma lt_to_micros a b :
  Datetime.valid a = true -> Datetime.valid b = true ->
  Datetime.lt a b = true ->
  (Datetime.to_micros a < Datetime.to_micros b)%Z.
Proof.
  intros Va Vb.
  apply valid_bounds in Va, Vb.
  destruct Va as (Ya & Ma & Da & Ha & Mia & Sa & Ua).
  destruct Vb as (Yb & Mb & Db & Hb & Mib & Sb & Ub).
  pose proof (day_of_year_bounds _ _ _ Ma Da) as Oa.
  pose proof (day_of_year_bounds _ _ _ Mb Db) as Ob.
  unfold Datetime.lt, Datetime.fields, Datetime.to_micros, Datetime.ymd2ord,
         Datetime.US_PER_DAY, Datetime.US_PER_SECOND.
  cbn [Datetime.lex_lt].
  repeat (rewrite orb_true_iff || rewrite andb_true_iff).
  rewrite !Z.ltb_lt, !Z.eqb_eq.
  intros [Hy|(Hy & [Hm|(Hm & Hrest)])].
  - pose proof (days_before_next_year _ _ Hy). lia.
  - rewrite <- Hy in *.
    pose proof (day_of_year_mono (Datetime.year a) _ (Datetime.day a) _
                  (Datetime.day b) Ma Mb ltac:(lia) ltac:(lia) Hm).
    lia.
  - rewrite <- Hy, <- Hm in *. lia.
Qed.

Lemma lex_lt_total a : forall b,
  length a = length b ->
  Datetime.lex_lt a b = false -> a = b \/ Datetime.lex_lt b a = true.
Proof.
  induction a as [|x a IH]; intros [|y b] Hlen; try discriminate.
  - auto.
  - simpl. intros H. apply orb_false_iff in H. destruct H as (Hlt & Hrest).
    apply Z.ltb_ge in Hlt.
    destruct (Z.eqb_spec x y) as [->|Hne].
    + simpl in Hrest. destruct (IH b ltac:(simpl in Hlen; lia) Hrest)
        as [->|Hb]; [left; reflexivity|].
      right. rewrite Z.ltb_irrefl, Z.eqb_refl. exact Hb.
    + right. replace (y <? x)%Z with true by (symmetry; apply Z.ltb_lt; lia).
      reflexivity.
Qed.

Lemma fields_injective a b : Datetime.fields a = Datetime.fields b -> a = b.
Proof.
  destruct a, b. unfold Datetime.fields. simpl. intros H.
  injection H as -> -> -> -> -> -> ->. reflexivity.
Qed.

(** The tuple order is the order of the time line. *)
Lemma lt_iff_to_micros a b :
  Datetime.valid a = true -> Datetime.valid b = true ->
  (Datetime.lt a b = true <-> (Datetime.to_micros a < Datetime.to_micros b)%Z).
Proof.
  intros Va Vb. split; [apply lt_to_micros; assumption|].
  intros Hlt. destruct (Datetime.lt a b) eqn:Hab; [reflexivity|].
  destruct (lex_lt_total (Datetime.fields a) (Datetime.fields b) eq_refl Hab)
    as [Heq|Hba].
  - apply fields_injective in Heq. subst b. lia.
  - pose proof (lt_to_micros b a Vb Va Hba). lia.
Qed.

(** ** From ordinals back to dates *)

Lemma month_and_day_checked leapyear :
  forallb (month_and_day_ok leapyear) (map Z.of_nat (seq 0 365)) = true.
Proof. destruct leapyear; vm_compute; reflexivity. Qed.

Lemma month_and_day_correct y n :
  (0 <= n < 365)%Z ->
  (1 <= fst (Datetime.month_and_day (Datetime.is_leap y) n) <= 12
   /\ 1 <= snd (Datetime.month_and_day (Datetime.is_leap y) n)
        <= Datetime.days_in_month y
             (fst (Datetime.month_and_day (Datetime.is_leap y) n))
   /\ Datetime.days_before_month y
        (fst (Datetime.month_and_day (Datetime.is_leap y) n))
      + snd (Datetime.month_and_day (Datetime.is_leap y) n) = n + 1)%Z.
Proof.
  intros Hn.
  pose proof (month_and_day_checked (Datetime.is_leap y)) as Hall.
  rewrite forallb_forall in Hall.
  specialize (Hall n).
  assert (Hin : In n (map Z.of_nat (seq 0 365))).
  { apply in_map_iff. exists (Z.to_nat n). split; [lia|].
    apply in_seq. lia. }
  specialize (Hall Hin). unfold month_and_day_ok in Hall.
  unfold Datetime.days_in_month, Datetime.days_before_month.
  destruct (Datetime.month_and_day (Datetime.is_leap y) n) as [m d].
  cbn [fst snd].
  rewrite !andb_true_iff, !Z.leb_le, Z.eqb_eq in Hall.
  lia.
Qed.

(** The years before year [400a + 100b + 4c + d + 1] hold whole cycles. *)
Lemma year_arithmetic a b c d :
  (0 <= a)%Z -> (0 <= b <= 3)%Z -> (0 <= c <= 24)%Z -> (0 <= d <= 3)%Z ->
  Datetime.days_before_year (400 * a + 100 * b + 4 * c + d + 1)
  = (146097 * a + 36524 * b + 1461 * c + 365 * d)%Z
  /\ Datetime.is_leap (400 * a + 100 * b + 4 * c + d + 1)
     = ((d =? 3) && (negb (c =? 24) || (b =? 3)))%Z.
Proof.
  intros Ha Hb Hc Hd. split.
  - unfold Datetime.days_before_year.
    replace (400 * a + 100 * b + 4 * c + d + 1 - 1)%Z
      with (400 * a + 100 * b + 4 * c + d)%Z by lia.
    Z.div_mod_to_equations. lia.
  - destruct (is_leap_cases (400 * a + 100 * b + 4 * c + d + 1))
      as [(-> & H4 & H)|(-> & H)];
      destruct (Z.eqb_spec d 3), (Z.eqb_spec c 24), (Z.eqb_spec b 3);
      simpl; try reflexivity; exfalso;
      Z.div_mod_to_equations; lia.
Qed.

(** [date.fromordinal] yields a date, the one with that ordinal. *)
Lemma ord2ymd_correct n :
  (1 <= n <= Datetime.MAXORDINAL)%Z ->
  (1 <= fst (fst (Datetime.ord2ymd n)) <= 9999
   /\ 1 <= snd (fst (Datetime.ord2ymd n)) <= 12
   /\ 1 <= snd (Datetime.ord2ymd n)
        <= Datetime.days_in_month (fst (fst (Datetime.ord2ymd n)))
                                  (snd (fst (Datetime.ord2ymd n)))
   /\ Datetime.ymd2ord (fst (fst (Datetime.ord2ymd n)))
                       (snd (fst (Datetime.ord2ymd n)))
                       (snd (Datetime.ord2ymd n)) = n)%Z.
Proof.
  unfold Datetime.MAXORDINAL. intros Hn.
  unfold Datetime.ord2ymd, Datetime.DI400Y, Datetime.DI100Y, Datetime.DI4Y.
  pose proof (Z.div_mod (n - 1) 146097 ltac:(lia)) as D400.
  pose proof (Z.mod_pos_bound (n - 1) 146097 ltac:(lia)) as B400.
  set (a := ((n - 1) / 146097)%Z) in *.
  set (r400 := ((n - 1) mod 146097)%Z) in *.
  pose proof (Z.div_mod r400 36524 ltac:(lia)) as D100.
  pose proof (Z.mod_pos_bound r400 36524 ltac:(lia)) as B100.
  set (b := (r400 / 36524)%Z) in *.
  set (r100 := (r400 mod 36524)%Z) in *.
  pose proof (Z.div_mod r100 1461 ltac:(lia)) as D4.
  pose proof (Z.mod_pos_bound r100 1461 ltac:(lia)) as B4.
  set (c := (r100 / 1461)%Z) in *.
  set (r4 := (r100 mod 1461)%Z) in *.
  pose proof (Z.div_mod r4 365 ltac:(lia)) as D1.
  pose proof (Z.mod_pos_bound r4 365 ltac:(lia)) as B1.
  set (d1 := (r4 / 365)%Z) in *.
  set (r1 := (r4 mod 365)%Z) in *.
  clearbody a r400 b r100 c r4 d1 r1.
  assert (Ha : (0 <= a <= 24)%Z) by lia.
  assert (Hb : (0 <= b <= 4)%Z) by lia.
  assert (Hc : (0 <= c <= 24)%Z) by lia.
  assert (Hd : (0 <= d1 <= 4)%Z) by lia.
  destruct (Z.eqb_spec d1 4) as [Hd4|Hd4]; cbn [orb].
  - (* the last day of a cycle of four years *)
    assert (Hb3 : (b <= 3)%Z) by lia.
    assert (Hc23 : (c <= 23)%Z) by lia.
    destruct (year_arithmetic a b c 3 ltac:(lia) ltac:(lia) ltac:(lia)
                ltac:(lia)) as (Hdby & Hleap).
    replace (a * 400 + 1 + b * 100 + c * 4 + d1 - 1)%Z
      with (400 * a + 100 * b + 4 * c + 3 + 1)%Z by lia.
    cbn [fst snd].
    unfold Datetime.ymd2ord, Datetime.days_in_month,
           Datetime.days_before_month.
    rewrite Hdby, Hleap.
    replace (c =? 24)%Z with false by (symmetry; apply Z.eqb_neq; lia).
    eval_tables. lia.
  - destruct (Z.eqb_spec b 4) as [Hb4|Hb4].
    + (* the last day of a cycle of four hundred years *)
      destruct (year_arithmetic a 3 24 3 ltac:(lia) ltac:(lia) ltac:(lia)
                  ltac:(lia)) as (Hdby & Hleap).
      replace (a * 400 + 1 + b * 100 + c * 4 + d1 - 1)%Z
        with (400 * a + 100 * 3 + 4 * 24 + 3 + 1)%Z by lia.
      cbn [fst snd].
      unfold Datetime.ymd2ord, Datetime.days_in_month,
             Datetime.days_before_month.
      rewrite Hdby, Hleap.
      eval_tables. lia.
    + destruct (year_arithmetic a b c d1 ltac:(lia) ltac:(lia) ltac:(lia)
                  ltac:(lia)) as (Hdby & Hleap).
      replace (a * 400 + 1 + b * 100 + c * 4 + d1)%Z
        with (400 * a + 100 * b + 4 * c + d1 + 1)%Z by lia.
      rewrite <- Hleap.
      pose proof (month_and_day_correct
                    (400 * a + 100 * b + 4 * c + d1 + 1) r1 B1)
        as (Hm & Hday & Hdoy).
      destruct (Datetime.month_and_day
                  (Datetime.is_leap (400 * a + 100 * b + 4 * c + d1 + 1)) r1)
        as [m d].
      cbn [fst snd] in *.
      unfold Datetime.ymd2ord. rewrite Hdby. lia.
Qed.

(** ** The purge of old subscriptions *)

Lemma of_micros_correct total r :
  Datetime.of_micros total = Some r ->
  Datetime.valid r = true /\ Datetime.to_micros r = total.
Proof.
  unfold Datetime.of_micros, Datetime.US_PER_DAY, Datetime.US_PER_SECOND.
  pose proof (Z.div_mod total (86400 * 1000000) ltac:(lia)) as Dd.
  pose proof (Z.mod_pos_bound total (86400 * 1000000) ltac:(lia)) as Bd.
  set (days := (total / (86400 * 1000000))%Z) in *.
  set (rest := (total mod (86400 * 1000000))%Z) in *.
  pose proof (Z.div_mod rest 1000000 ltac:(lia)) as Ds.
  pose proof (Z.mod_pos_bound rest 1000000 ltac:(lia)) as Bs.
  set (seconds := (rest / 1000000)%Z) in *.
  set (us := (rest mod 1000000)%Z) in *.
  pose proof (Z.div_mod seconds 3600 ltac:(lia)) as Dh.
  pose proof (Z.mod_pos_bound seconds 3600 ltac:(lia)) as Bh.
  set (hours := (seconds / 3600)%Z) in *.
  set (in_hour := (seconds mod 3600)%Z) in *.
  pose proof (Z.div_mod in_hour 60 ltac:(lia)) as Dm.
  pose proof (Z.mod_pos_bound in_hour 60 ltac:(lia)) as Bm.
  set (minutes := (in_hour / 60)%Z) in *.
  set (secs := (in_hour mod 60)%Z) in *.
  clearbody days rest seconds us hours in_hour minutes secs.
  destruct ((0 <? days)%Z && (days <=? Datetime.MAXORDINAL)%Z) eqn:Hrange;
    [|discriminate].
  apply andb_true_iff in Hrange. destruct Hrange as (Hlo & Hhi).
  apply Z.ltb_lt in Hlo. apply Z.leb_le in Hhi.
  pose proof (ord2ymd_correct days ltac:(lia)) as (Hy & Hm & Hday & Hord).
  destruct (Datetime.ord2ymd days) as [[y m] dd]. cbn [fst snd] in *.
  intros H. injection H as <-.
  unfold Datetime.valid, Datetime.to_micros, Datetime.US_PER_DAY,
         Datetime.US_PER_SECOND.
  cbn [Datetime.year Datetime.month Datetime.day Datetime.hour
       Datetime.minute Datetime.second Datetime.microsecond].
  split.
  - rewrite !andb_true_iff, !Z.leb_le. repeat split; lia.
  - rewrite Hord. lia.
Qed.

(** The rows the purge keeps are those not created before the cutoff. *)
Lemma purge_keeps db now max_age_hours cutoff s created :
  Datetime.sub_hours now max_age_hours = Some cutoff ->
  In s (Database.subscriptions db) ->
  Datetime.valid created = true ->
  Database.created_at s = Datetime.isoformat created ->
  exists db' removed,
    Database.remove_old_subscriptions db now max_age_hours
    = Some (db', removed)
    /\ Database.last_check db' = Database.last_check db
    /\ (In s (Database.subscriptions db')
        <-> (Datetime.to_micros now
             - max_age_hours * 3600 * Datetime.US_PER_SECOND
             <= Datetime.to_micros created)%Z).
Proof.
  intros Hcut Hin Hvalid Hcreated.
  unfold Database.remove_old_subscriptions. rewrite Hcut.
  eexists. eexists. split; [reflexivity|]. split; [reflexivity|].
  cbn [Database.subscriptions].
  unfold Datetime.sub_hours in Hcut.
  destruct (of_micros_correct _ _ Hcut) as (Vcut & Tcut).
  rewrite filter_In, Hcreated, (isoformat_ltb created cutoff Hvalid Vcut).
  rewrite <- Tcut.
  pose proof (lt_iff_to_micros created cutoff Hvalid Vcut) as Hlt.
  destruct (Datetime.lt created cutoff); simpl.
  - split; [intros (_ & H); discriminate|].
    intros H. pose proof (proj1 Hlt eq_refl). lia.
  - split; [|intros _; split; [exact Hin|reflexivity]].
    intros _. destruct (Z.le_gt_cases (Datetime.to_micros cutoff)
                                      (Datetime.to_micros created)) as [H|H];
      [exact H|].
    pose proof (proj2 Hlt ltac:(lia)). discriminate.
Qed.

(** C9.  The purge at the start of a scan cycle removes a subscription
    exactly when its [created_at] lies strictly before the cutoff, the
    purge time minus [max_subscription_age_hours]; a subscription created
    one second after the cutoff is kept, and the snapshot is not
    touched. *)
Theorem purge_by_age E cfg db t cutoff s created :
  Datetime.sub_hours (env_now E t) (Config.max_subscription_age_hours cfg)
  = Some cutoff ->
  In s (Database.subscriptions db) ->
  Datetime.valid created = true ->
  Database.created_at s = Datetime.isoformat created ->
  run_cycle E cfg db t
  = check_category E cfg
      (fst (remove_old_subscriptions cfg db (env_now E t))) t
  /\ Database.last_check
       (fst (remove_old_subscriptions cfg db (env_now E t)))
     = Database.last_check db
  /\ (~ In s (Database.subscriptions
               (fst (remove_old_subscriptions cfg db (env_now E t))))
      <-> (Datetime.to_micros created
           < Datetime.to_micros (env_now E t)
             - Config.max_subscription_age_hours cfg * 3600
               * Datetime.US_PER_SECOND)%Z)
  /\ (Datetime.add_seconds cutoff 1 = Some created ->
      In s (Database.subscriptions
              (fst (remove_old_subscriptions cfg db (env_now E t))))).
Proof.
  intros Hcut Hin Hvalid Hcreated.
  destruct (purge_keeps db (env_now E t) _ cutoff s created
              Hcut Hin Hvalid Hcreated)
    as (db' & removed & Hrun & Hsnap & Hkeep).
  unfold remove_old_subscriptions. rewrite Hrun. cbn [fst].
  split; [|split; [exact Hsnap|split]].
  - unfold run_cycle, bind, now, remove_old_subscriptions.
    rewrite Hrun. reflexivity.
  - rewrite Hkeep. lia.
  - intros Hnext. apply Hkeep.
    unfold Datetime.sub_hours in Hcut. unfold Datetime.add_seconds in Hnext.
    destruct (of_micros_correct _ _ Hcut) as (_ & Tcut).
    destruct (of_micros_correct _ _ Hnext) as (_ & Tnext).
    unfold Datetime.US_PER_SECOND in *. lia.
Qed.

Lemma purge_by_age_witness :
  run_cycle purge_env Config.default two_subscribers []
  = check_category purge_env Config.default
      (fst (remove_old_subscriptions Config.default two_subscribers
              (env_now purge_env []))) []
  /\ Database.last_check
       (fst (remove_old_subscriptions Config.default two_subscribers
               (env_now purge_env [])))
     = Database.last_check two_subscribers
  /\ (~ In (subscribed_at "young" created_after_cutoff)
          (Database.subscriptions
             (fst (remove_old_subscriptions Config.default two_subscribers
                     (env_now purge_env []))))
      <-> (Datetime.to_micros created_after_cutoff
           < Datetime.to_micros (env_now purge_env [])
             - Config.max_subscription_age_hours Config.default * 3600
               * Datetime.US_PER_SECOND)%Z)
  /\ (Datetime.add_seconds (Datetime.mk 2025 6 1 12 0 0 0) 1
      = Some created_after_cutoff ->
      In (subscribed_at "young" created_after_cutoff)
         (Database.subscriptions
            (fst (remove_old_subscriptions Config.default two_subscribers
                    (env_now purge_env []))))).
Proof.
  apply (purge_by_age purge_env Config.default two_subscribers []
           (Datetime.mk 2025 6 1 12 0 0 0)
           (subscribed_at "young" created_after_cutoff) created_after_cutoff).
  - vm_compute. reflexivity.
  - right. left. reflexivity.
  - vm_compute. reflexivity.
  - reflexivity.
Defined.

(** The purge at noon of 4 June 2025 removes the subscription created one
    second before the cutoff and keeps the one created one second after. *)
Example purge_around_cutoff :
  Datetime.sub_hours purge_time 72 = Some (Datetime.mk 2025 6 1 12 0 0 0)
  /\ Datetime.add_seconds (Datetime.mk 2025 6 1 12 0 0 0) 1
     = Some created_after_cutoff
  /\ Datetime.add_seconds (Datetime.mk 2025 6 1 12 0 0 0) (-1)
     = Some created_before_cutoff
  /\ remove_old_subscriptions Config.default two_subscribers purge_time
     = (Database.mk [subscribed_at "young" created_after_cutoff] [], 1%Z).
Proof. vm_compute. repeat split. Qed.

(** ** Examples *)

Example check_slots_one_month :
  fst (check_slots open_slot_env Config.default "Cary" [])
  = Ok [("June 3, 2025", ["9:00 AM"])]
  /\ month_reads (snd (check_slots open_slot_env Config.default "Cary" []))
     = 1%nat
  /\ next_month_click_calls
       (snd (check_slots open_slot_env Config.default "Cary" [])) = 0%nat.
Proof. vm_compute. repeat split. Qed.

Example check_slots_next_month :
  fst (check_slots two_month_env Config.default "Cary" [])
  = Ok [("June 3, 2025", ["9:00 AM"]); ("July 3, 2025", ["9:00 AM"])]
  /\ month_reads (snd (check_slots two_month_env Config.default "Cary" []))
     = 2%nat
  /\ next_month_clicks
       (snd (check_slots two_month_env Config.default "Cary" [])) = 1%nat.
Proof. vm_compute. repeat split. Qed.

(** With a control that is there but cannot be clicked, [click()] is
    called once in each of the three attempts of [safe_click], no click
    goes through, and the extraction ends after the first month. *)
Example check_slots_stuck_control :
  fst (check_slots stuck_control_env Config.default "Cary" [])
  = Raise RestartRequiredException
  /\ month_reads (snd (check_slots stuck_control_env Config.default "Cary" []))
     = 1%nat
  /\ next_month_click_calls
       (snd (check_slots stuck_control_env Config.default "Cary" [])) = 3%nat
  /\ next_month_clicks
       (snd (check_slots stuck_control_env Config.default "Cary" [])) = 0%nat.
Proof. vm_compute. repeat split. Qed.

Lemma check_slots_two_months_witness :
  (exists new,
      snd (check_slots two_month_env Config.default "Cary" []) = new ++ []
      /\ month_reads new = 2%nat
      /\ next_month_clicks new = 1%nat)
  /\ (exists new,
         snd (check_slots open_slot_env Config.default "Cary" []) = new ++ []
         /\ month_reads new = 1%nat
         /\ next_month_click_calls new = 0%nat)
  /\ (exists slots_current_month t1,
         check_month_slots open_slot_env Config.default "Cary"
           [EvCount next_button (Ok 0%Z);
            EvWaitFor spinner WaitHidden 20000 (Ok tt);
            EvWaitFor spinner WaitVisible 1000 (Ok tt)]
         = (Ok slots_current_month, t1)
         /\ fst (check_slots open_slot_env Config.default "Cary" [])
            = Ok (Py.dict_update [] slots_current_month)).
Proof.
  split; [|split].
  - destruct (check_slots_two_months two_month_env Config.default "Cary" [])
      as (new & Hnew & _ & _ & _ & _ & _ & Hboth & _).
    exists new. split; [exact Hnew|].
    apply Hboth; reflexivity.
  - destruct (check_slots_two_months open_slot_env Config.default "Cary" [])
      as (new & Hnew & _ & _ & _ & _ & Hnone & _ & Hone & _).
    exists new. split; [exact Hnew|]. split.
    + apply Hone; reflexivity.
    + apply Hnone. reflexivity.
  - destruct (check_slots_two_months open_slot_env Config.default "Cary" [])
      as (new & _ & _ & _ & _ & _ & _ & _ & _ & Hres).
    destruct (Hres [("June 3, 2025", ["9:00 AM"])] eq_refl)
      as (t0 & n & cur & t1 & H0 & Hn & _ & Hcur & Hrest).
    vm_compute in H0. injection H0 as <-.
    vm_compute in Hn. injection Hn as <-.
    destruct Hrest as (_ & Htotal).
    exists cur, t1. split; [exact Hcur|].
    rewrite <- Htotal. reflexivity.
Defined.

Lemma message_composition_witness :
  spec_date_line ("June 1", ["9:00"; "10:00"; "11:00"])
  = ("June 1" ++ ": " ++ "9:00" ++ ", " ++ "10:00" ++ " (+"
     ++ Py.str_of_nat (length ["11:00"]) ++ " more)")%string
  /\ notification_body "Fees" "Cary" june_slots = june_body.
Proof.
  split.
  - apply (proj1 (proj2 (proj2 (proj2 message_composition)))).
    discriminate.
  - apply (proj2 (proj2 (proj2 (proj2 message_composition)))).
Defined.

(** * Further properties *)

(** ** The subscription table *)

Lemma has_user_other u v s :
  v <> u -> Db.has_user u s = true -> Db.has_user v s = false.
Proof.
  unfold Db.has_user. intros Hne Hu. apply String.eqb_eq in Hu.
  apply String.eqb_neq. congruence.
Qed.

Lemma find_without_user_same u subs :
  find (Db.has_user u) (filter (fun s => negb (Db.has_user u s)) subs) = None.
Proof.
  induction subs as [|s subs IH]; [reflexivity|]. simpl.
  destruct (Db.has_user u s) eqn:Hs; simpl; [exact IH|].
  rewrite Hs. exact IH.
Qed.

Lemma find_without_user_other u v subs :
  v <> u ->
  find (Db.has_user v) (filter (fun s => negb (Db.has_user u s)) subs)
  = find (Db.has_user v) subs.
Proof.
  intros Hne. induction subs as [|s subs IH]; [reflexivity|]. simpl.
  destruct (Db.has_user u s) eqn:Hs; simpl.
  - rewrite (has_user_other u v s Hne Hs). exact IH.
  - destruct (Db.has_user v s); [reflexivity|exact IH].
Qed.

Lemma find_app {A} (f : A -> bool) l1 l2 :
  find f (l1 ++ l2)
  = match find f l1 with Some x => Some x | None => find f l2 end.
Proof.
  induction l1 as [|x l1 IH]; [reflexivity|]. simpl.
  destruct (f x); [reflexivity|exact IH].
Qed.

Lemma save_subscription_ok db n1 n2 u p cats locs d db' row :
  Db.save_subscription db n1 n2 u p cats locs d = Ok (db', row) ->
  exists push,
    p = Some push
    /\ Db.fits_integer d = true
    /\ row = Database.mkSubscription u push cats locs d
               (match Db.get_subscription db u with
                | Some old => Database.created_at old
                | None => Datetime.isoformat n1
                end) None (Datetime.isoformat n2)
    /\ db' = Database.mk
               (filter (fun s => negb (Db.has_user u s))
                       (Database.subscriptions db) ++ [row])
               (Database.last_check db).
Proof.
  unfold Db.save_subscription.
  destruct (Db.fits_integer d); simpl; [|discriminate].
  destruct p as [push|]; [|discriminate].
  intros H. injection H as <- <-. exists push. repeat split.
Qed.

Lemma save_subscription_lookup db n1 n2 u p cats locs d db' row :
  Db.save_subscription db n1 n2 u p cats locs d = Ok (db', row) ->
  Db.get_subscription db' u = Some row.
Proof.
  intros H. destruct (save_subscription_ok _ _ _ _ _ _ _ _ _ _ H)
    as (push & -> & _ & Hrow & ->).
  unfold Db.get_subscription. cbn [Database.subscriptions].
  rewrite find_app, find_without_user_same. simpl.
  replace (Db.has_user u row) with true; [reflexivity|].
  rewrite Hrow. unfold Db.has_user. simpl. symmetry. apply String.eqb_refl.
Qed.

(** X1.  A subscription that was saved is the one a look-up of its user
    returns, with the values that were passed in; the look-up of any other
    user and the snapshot table are as before. *)
Theorem save_subscription_round_trip db n1 n2 u p cats locs d db' row :
  Db.save_subscription db n1 n2 u p cats locs d = Ok (db', row) ->
  Db.get_subscription db' u = Some row
  /\ (forall v, v <> u -> Db.get_subscription db' v = Db.get_subscription db v)
  /\ Database.user_id row = u
  /\ p = Some (Database.push_subscription row)
  /\ Database.categories row = cats
  /\ Database.locations row = locs
  /\ Database.date_range_days row = d
  /\ Database.last_notification_sent row = None
  /\ Database.last_check db' = Database.last_check db.
Proof.
  intros H. split; [exact (save_subscription_lookup _ _ _ _ _ _ _ _ _ _ H)|].
  destruct (save_subscription_ok _ _ _ _ _ _ _ _ _ _ H)
    as (push & -> & _ & Hrow & ->).
  unfold Db.get_subscription. cbn [Database.subscriptions Database.last_check].
  split.
  { intros v Hne. rewrite find_app, (find_without_user_other u v _ Hne).
    destruct (find (Db.has_user v) (Database.subscriptions db)); [reflexivity|].
    simpl. replace (Db.has_user v row) with false; [reflexivity|].
    rewrite Hrow. unfold Db.has_user. simpl. symmetry.
    apply String.eqb_neq. congruence. }
  rewrite Hrow. simpl. repeat split.
Qed.

Lemma save_subscription_round_trip_witness :
  Db.get_subscription (fst renewed) "old" = Some (snd renewed)
  /\ (forall v, v <> "old" ->
        Db.get_subscription (fst renewed) v
        = Db.get_subscription two_subscribers v)
  /\ Database.user_id (snd renewed) = "old"
  /\ Some mozilla_push = Some (Database.push_subscription (snd renewed))
  /\ Database.categories (snd renewed) = ["fees"; "permits"]
  /\ Database.locations (snd renewed) = ["Cary"]
  /\ Database.date_range_days (snd renewed) = 30%Z
  /\ Database.last_notification_sent (snd renewed) = None
  /\ Database.last_check (fst renewed) = Database.last_check two_subscribers.
Proof.
  apply (save_subscription_round_trip two_subscribers purge_time purge_time
           "old" (Some mozilla_push) ["fees"; "permits"] ["Cary"] 30
           (fst renewed) (snd renewed)).
  vm_compute. reflexivity.
Defined.

Lemma find_has_user_none u subs :
  ~ In u (map Database.user_id subs) -> find (Db.has_user u) subs = None.
Proof.
  induction subs as [|s subs IH]; [reflexivity|]. simpl. intros Hn.
  destruct (Db.has_user u s) eqn:Hs.
  - exfalso. apply Hn. left. apply String.eqb_eq. exact Hs.
  - apply IH. intros H. apply Hn. right. exact H.
Qed.

Lemma in_map_filter {A B} (f : A -> B) (p : A -> bool) l x :
  In x (map f (filter p l)) -> In x (map f l).
Proof.
  rewrite !in_map_iff. intros (a & Ha & Hin). exists a. split; [exact Ha|].
  apply filter_In in Hin. apply Hin.
Qed.

Lemma NoDup_map_filter {A B} (f : A -> B) (p : A -> bool) l :
  NoDup (map f l) -> NoDup (map f (filter p l)).
Proof.
  induction l as [|a l IH]; [intros; constructor|]. simpl. intros H.
  inversion H as [|? ? Hn Hnd]; subst.
  destruct (p a); simpl; [|apply IH; exact Hnd].
  constructor; [|apply IH; exact Hnd].
  intros Hin. apply Hn. eapply in_map_filter. exact Hin.
Qed.

Lemma without_user_absent u subs :
  ~ In u (map Database.user_id
              (filter (fun s => negb (Db.has_user u s)) subs)).
Proof.
  rewrite in_map_iff. intros (s & Hs & Hin). apply filter_In in Hin.
  destruct Hin as (_ & Hneg). unfold Db.has_user in Hneg.
  rewrite <- Hs, String.eqb_refl in Hneg. discriminate.
Qed.

Lemma NoDup_snoc {A} (l : list A) x : NoDup l -> ~ In x l -> NoDup (l ++ [x]).
Proof.
  intros Hnd Hn. induction Hnd as [|y l Hy Hnd IH]; simpl.
  - constructor; [intros []|constructor].
  - constructor.
    + rewrite in_app_iff. intros [H|[H|[]]]; [exact (Hy H)|].
      apply Hn. left. symmetry. exact H.
    + apply IH. intros H. apply Hn. right. exact H.
Qed.

Lemma find_filter_unique u old (keep : Database.subscription -> bool) subs :
  NoDup (map Database.user_id subs) ->
  find (Db.has_user u) subs = Some old ->
  find (Db.has_user u) (filter keep subs)
  = if keep old then Some old else None.
Proof.
  induction subs as [|s subs IH]; [discriminate|]. simpl. intros Hnd Hfind.
  inversion Hnd as [|? ? Hn Hnd']; subst.
  destruct (Db.has_user u s) eqn:Hs.
  - injection Hfind as ->.
    assert (Hu : Database.user_id old = u) by (apply String.eqb_eq; exact Hs).
    destruct (keep old); simpl; [rewrite Hs; reflexivity|].
    apply find_has_user_none. intros Hin. apply Hn. rewrite Hu.
    eapply in_map_filter. exact Hin.
  - destruct (keep s); simpl; [rewrite Hs|]; apply IH; assumption.
Qed.

Lemma removed_rows {A} (f : A -> bool) l :
  (length (filter (fun x => negb (f x)) l) < length l)%nat
  <-> find f l <> None.
Proof.
  induction l as [|x l IH]; simpl; [split; [lia|congruence]|].
  pose proof (filter_length_le (fun x => negb (f x)) l).
  destruct (f x); simpl; [split; [discriminate|lia]|].
  rewrite <- IH. lia.
Qed.

(** X2.  Saving again for a user who has a row does not renew the
    subscription: the new row keeps the creation time of the old one, so a
    purge removes the user after the update exactly when it would have
    removed the user before it. *)
Theorem update_keeps_expiry db n1 n2 u p cats locs d db' row old now h
    purged removed :
  unique_users db ->
  Db.get_subscription db u = Some old ->
  Db.save_subscription db n1 n2 u p cats locs d = Ok (db', row) ->
  Database.remove_old_subscriptions db now h = Some (purged, removed) ->
  Database.created_at row = Database.created_at old
  /\ exists purged' removed',
       Database.remove_old_subscriptions db' now h = Some (purged', removed')
       /\ (Db.get_subscription purged' u = None
           <-> Db.get_subscription purged u = None).
Proof.
  intros Hu Hold Hsave Hpurge.
  destruct (save_subscription_ok _ _ _ _ _ _ _ _ _ _ Hsave)
    as (push & -> & _ & Hrow & ->).
  rewrite Hold in Hrow.
  assert (Hc : Database.created_at row = Database.created_at old)
    by (rewrite Hrow; reflexivity).
  split; [exact Hc|].
  unfold Database.remove_old_subscriptions in *.
  destruct (Datetime.sub_hours now h) as [cutoff|]; [|discriminate].
  injection Hpurge as <- _. eexists. eexists. split; [reflexivity|].
  unfold Db.get_subscription in *.
  cbn [Database.subscriptions] in *.
  rewrite (find_filter_unique u old _ _ Hu Hold).
  rewrite filter_app, find_app.
  rewrite (find_has_user_none u
             (filter _ (filter (fun s => negb (Db.has_user u s)) _))).
  2:{ intros Hin. apply (without_user_absent u (Database.subscriptions db)).
      eapply in_map_filter. exact Hin. }
  simpl. rewrite Hc.
  destruct (String.ltb (Database.created_at old) (Datetime.isoformat cutoff));
    simpl; [tauto|].
  replace (Db.has_user u row) with true; [split; discriminate|].
  rewrite Hrow. unfold Db.has_user. simpl. symmetry. apply String.eqb_refl.
Qed.

Lemma two_subscribers_unique : unique_users two_subscribers.
Proof.
  unfold unique_users. simpl. repeat constructor; simpl.
  - intros [H|[]]. discriminate H.
  - intros [].
Qed.

Lemma update_keeps_expiry_witness :
  Database.created_at (snd renewed)
  = Database.created_at (subscribed_at "old" created_before_cutoff)
  /\ exists purged' removed',
       Database.remove_old_subscriptions (fst renewed) purge_time 72
       = Some (purged', removed')
       /\ (Db.get_subscription purged' "old" = None
           <-> Db.get_subscription (fst purged) "old" = None).
Proof.
  apply (update_keeps_expiry two_subscribers purge_time purge_time "old"
           (Some mozilla_push) ["fees"; "permits"] ["Cary"] 30
           (fst renewed) (snd renewed)
           (subscribed_at "old" created_before_cutoff) purge_time 72
           (fst purged) (snd purged)).
  - exact two_subscribers_unique.
  - vm_compute. reflexivity.
  - vm_compute. reflexivity.
  - vm_compute. reflexivity.
Defined.

(** X3.  No operation on the store gives a user two rows: saving,
    deleting, purging and writing a snapshot all keep the user ids of the
    subscription table distinct. *)
Theorem primary_key_preserved db :
  unique_users db ->
  (forall n1 n2 u p cats locs d db' row,
      Db.save_subscription db n1 n2 u p cats locs d = Ok (db', row) ->
      unique_users db')
  /\ (forall u, unique_users (fst (Db.delete_subscription db u)))
  /\ (forall now h db' removed,
         Database.remove_old_subscriptions db now h = Some (db', removed) ->
         unique_users db')
  /\ (forall timestamp cat locs slots_data,
         unique_users (Database.save_slots_info db timestamp cat locs
                                                slots_data)).
Proof.
  unfold unique_users. intros Hu. split; [|split; [|split]].
  - intros n1 n2 u p cats locs d db' row Hsave.
    destruct (save_subscription_ok _ _ _ _ _ _ _ _ _ _ Hsave)
      as (push & -> & _ & Hrow & ->).
    cbn [Database.subscriptions]. rewrite map_app. simpl.
    apply NoDup_snoc; [apply NoDup_map_filter; exact Hu|].
    replace (Database.user_id row) with u by (rewrite Hrow; reflexivity).
    apply without_user_absent.
  - intros u. simpl. apply NoDup_map_filter. exact Hu.
  - intros now h db' removed. unfold Database.remove_old_subscriptions.
    destruct (Datetime.sub_hours now h); [|discriminate].
    intros H. injection H as <- _. simpl. apply NoDup_map_filter. exact Hu.
  - intros. simpl. exact Hu.
Qed.

Lemma primary_key_preserved_witness :
  (forall n1 n2 u p cats locs d db' row,
      Db.save_subscription two_subscribers n1 n2 u p cats locs d
      = Ok (db', row) ->
      unique_users db')
  /\ (forall u, unique_users (fst (Db.delete_subscription two_subscribers u)))
  /\ (forall now h db' removed,
         Database.remove_old_subscriptions two_subscribers now h
         = Some (db', removed) ->
         unique_users db')
  /\ (forall timestamp cat locs slots_data,
         unique_users (Database.save_slots_info two_subscribers timestamp cat
                                                locs slots_data)).
Proof.
  apply (primary_key_preserved two_subscribers).
  unfold unique_users. simpl. repeat constructor; simpl.
  - intros [H|[]]. discriminate H.
  - intros [].
Defined.

(** X4.  Deleting reports success exactly when the user had a row;
    afterwards the user has none, and every other user and the snapshot
    table are as before. *)
Theorem delete_subscription_spec db u :
  (snd (Db.delete_subscription db u) = true
   <-> Db.get_subscription db u <> None)
  /\ Db.get_subscription (fst (Db.delete_subscription db u)) u = None
  /\ (forall v, v <> u ->
        Db.get_subscription (fst (Db.delete_subscription db u)) v
        = Db.get_subscription db v)
  /\ Database.last_check (fst (Db.delete_subscription db u))
     = Database.last_check db.
Proof.
  unfold Db.delete_subscription, Db.get_subscription. simpl.
  split; [|split; [|split]].
  - rewrite <- (removed_rows (Db.has_user u)). rewrite Z.ltb_lt. lia.
  - apply find_without_user_same.
  - intros v Hne. apply find_without_user_other. exact Hne.
  - reflexivity.
Qed.

(** ** The endpoints *)

Lemma create_subscription_cases db n1 n2 req :
  let valid :=
    negb (String.eqb (Endpoints.user_id req) "")
    && (0 <? length (Endpoints.categories req))%nat
    && negb (Endpoints.no_push (Endpoints.push_subscription req))
    && (0 <? length (Endpoints.locations req))%nat
    && Db.fits_integer (Endpoints.date_range_days req) in
  (valid = true
   /\ exists db' row,
        Db.save_subscription db n1 n2 (Endpoints.user_id req)
          (Endpoints.push_subscription req) (Endpoints.categories req)
          (Endpoints.locations req) (Endpoints.date_range_days req)
        = Ok (db', row)
        /\ Endpoints.create_subscription db n1 n2 req
           = (db', Endpoints.Http200 (Endpoints.response_of row)))
  \/ (valid = false
      /\ exists status_code detail,
           Endpoints.create_subscription db n1 n2 req
           = (db, Endpoints.HTTPException status_code detail)
           /\ (status_code = 400 \/ status_code = 500)%Z).
Proof.
  destruct req as [u p cats locs d]. unfold Endpoints.create_subscription.
  cbn [Endpoints.user_id Endpoints.push_subscription Endpoints.categories
       Endpoints.locations Endpoints.date_range_days].
  destruct (String.eqb u "") eqn:Hu; simpl.
  { right. split; [reflexivity|]. eexists. eexists. split; [reflexivity|].
    left. reflexivity. }
  destruct cats as [|c cats]; simpl.
  { right. split; [reflexivity|]. eexists. eexists. split; [reflexivity|].
    left. reflexivity. }
  destruct (Endpoints.no_push p) eqn:Hp; simpl.
  { right. split; [reflexivity|]. eexists. eexists. split; [reflexivity|].
    left. reflexivity. }
  destruct locs as [|l locs]; simpl.
  { right. split; [reflexivity|]. eexists. eexists. split; [reflexivity|].
    left. reflexivity. }
  unfold Db.save_subscription.
  destruct (Db.fits_integer d) eqn:Hd; simpl.
  - destruct p as [push|]; [|discriminate].
    left. split; [reflexivity|]. eexists. eexists. split; reflexivity.
  - right. split; [reflexivity|]. eexists. eexists. split; [reflexivity|].
    right. reflexivity.
Qed.

(** X5.  [POST /subscriptions] answers 200 exactly when the request names
    a user, at least one category, a push subscription, at least one
    location, and a day range that fits the column.  Any other request
    leaves the store as it was.  After a 200, [GET] for the same user
    answers with the same body, which repeats the values of the
    request. *)
Theorem create_subscription_accepts db n1 n2 req :
  (is_200 (snd (Endpoints.create_subscription db n1 n2 req)) = true
   <-> Endpoints.user_id req <> ""
       /\ Endpoints.categories req <> []
       /\ Endpoints.no_push (Endpoints.push_subscription req) = false
       /\ Endpoints.locations req <> []
       /\ Db.fits_integer (Endpoints.date_range_days req) = true)
  /\ (is_200 (snd (Endpoints.create_subscription db n1 n2 req)) = false ->
      fst (Endpoints.create_subscription db n1 n2 req) = db)
  /\ (forall body,
         snd (Endpoints.create_subscription db n1 n2 req)
         = Endpoints.Http200 body ->
         Endpoints.get_subscription
           (fst (Endpoints.create_subscription db n1 n2 req))
           (Endpoints.user_id req)
         = Endpoints.Http200 body
         /\ Endpoints.resp_user_id body = Endpoints.user_id req
         /\ Endpoints.resp_categories body = Endpoints.categories req
         /\ Endpoints.resp_locations body = Endpoints.locations req
         /\ Endpoints.resp_date_range_days body
            = Endpoints.date_range_days req).
Proof.
  destruct (create_subscription_cases db n1 n2 req)
    as [(Hv & db' & row & Hsave & ->)
       |(Hv & status_code & detail & -> & _)]; cbn [fst snd is_200].
  - repeat (rewrite andb_true_iff in Hv).
    destruct Hv as ((((Hu & Hc) & Hp) & Hl) & Hd).
    apply negb_true_iff in Hu, Hp. apply String.eqb_neq in Hu.
    apply Nat.ltb_lt in Hc, Hl.
    split; [|split; [discriminate|]].
    + split; [intros _|reflexivity].
      repeat split; try assumption.
      * intros H. rewrite H in Hc. simpl in Hc. lia.
      * intros H. rewrite H in Hl. simpl in Hl. lia.
    + intros body Hbody. injection Hbody as <-.
      pose proof (save_subscription_lookup _ _ _ _ _ _ _ _ _ _ Hsave) as Hget.
      destruct (save_subscription_ok _ _ _ _ _ _ _ _ _ _ Hsave)
        as (push & _ & _ & Hrow & _).
      unfold Endpoints.get_subscription. rewrite Hget.
      unfold Endpoints.response_of. rewrite Hrow. simpl. repeat split.
  - split; [|split; [reflexivity|discriminate]].
    split; [discriminate|]. intros (Hu & Hc & Hp & Hl & Hd).
    apply String.eqb_neq in Hu. rewrite Hu, Hp, Hd in Hv.
    destruct (Endpoints.categories req); [congruence|].
    destruct (Endpoints.locations req); [congruence|]. discriminate.
Qed.

Lemma complete_filter (p : Database.subscription -> bool) subs :
  forallb complete subs = true -> forallb complete (filter p subs) = true.
Proof.
  rewrite !forallb_forall. intros H s Hin. apply H.
  apply filter_In in Hin. apply Hin.
Qed.

(** X6.  Every subscription the endpoints store is complete: it names a
    user, a push subscription, a category and a location.  Creating,
    deleting and cleaning up keep the table that way, and on such a table
    the monitor's selection of the subscribers to notify is exactly the
    test of category and location. *)
Theorem stored_subscriptions_complete db :
  forallb complete (Database.subscriptions db) = true ->
  (forall n1 n2 req,
      forallb complete
        (Database.subscriptions
           (fst (Endpoints.create_subscription db n1 n2 req))) = true)
  /\ (forall u,
         forallb complete
           (Database.subscriptions
              (fst (Endpoints.delete_subscription db u))) = true)
  /\ (forall now x_admin_token admin_token max_age_hours,
         forallb complete
           (Database.subscriptions
              (fst (Endpoints.cleanup_old_subscriptions
                      db now x_admin_token admin_token max_age_hours)))
         = true)
  /\ (forall mapped_category location_name,
         select_interested mapped_category location_name
                           (Database.subscriptions db)
         = filter (fun s =>
                     Py.list_in mapped_category (Database.categories s)
                     && Py.list_in location_name (Database.locations s))
                  (Database.subscriptions db)).
Proof.
  intros Hc. split; [|split; [|split]].
  - intros n1 n2 req.
    destruct (create_subscription_cases db n1 n2 req)
      as [(Hv & db' & row & Hsave & ->)
         |(Hv & status_code & detail & -> & _)]; cbn [fst]; [|exact Hc].
    destruct (save_subscription_ok _ _ _ _ _ _ _ _ _ _ Hsave)
      as (push & Hp & _ & Hrow & ->).
    cbn [Database.subscriptions]. rewrite forallb_app.
    rewrite (complete_filter _ _ Hc). simpl. rewrite andb_true_r.
    repeat (rewrite andb_true_iff in Hv).
    destruct Hv as ((((Hu & Hcat) & Hpush) & Hl) & _).
    rewrite Hrow. unfold complete. simpl. rewrite Hu, Hcat, Hl. simpl.
    rewrite Hp in Hpush. simpl in Hpush. rewrite Hpush. reflexivity.
  - intros u. unfold Endpoints.delete_subscription, Db.delete_subscription.
    match goal with |- context [if ?b then _ else _] => destruct b end;
      simpl; apply complete_filter; exact Hc.
  - intros now x t h. unfold Endpoints.cleanup_old_subscriptions.
    destruct (Endpoints.require_admin x t); [|exact Hc].
    unfold Database.remove_old_subscriptions.
    destruct (Datetime.sub_hours now h); [|exact Hc].
    simpl. apply complete_filter. exact Hc.
  - intros mapped_category location_name. rewrite select_interested_filter.
    apply filter_ext_in. intros s Hin. unfold matches.
    rewrite forallb_forall in Hc. specialize (Hc s Hin). unfold complete in Hc.
    repeat (rewrite andb_true_iff in Hc).
    destruct Hc as (((_ & Hp) & _) & _). rewrite Hp. reflexivity.
Qed.

Lemma stored_subscriptions_complete_witness :
  (forall n1 n2 req,
      forallb complete
        (Database.subscriptions
           (fst (Endpoints.create_subscription two_subscribers n1 n2 req)))
      = true)
  /\ (forall u,
         forallb complete
           (Database.subscriptions
              (fst (Endpoints.delete_subscription two_subscribers u))) = true)
  /\ (forall now x_admin_token admin_token max_age_hours,
         forallb complete
           (Database.subscriptions
              (fst (Endpoints.cleanup_old_subscriptions
                      two_subscribers now x_admin_token admin_token
                      max_age_hours)))
         = true)
  /\ (forall mapped_category location_name,
         select_interested mapped_category location_name
                           (Database.subscriptions two_subscribers)
         = filter (fun s =>
                     Py.list_in mapped_category (Database.categories s)
                     && Py.list_in location_name (Database.locations s))
                  (Database.subscriptions two_subscribers)).
Proof.
  apply (stored_subscriptions_complete two_subscribers).
  vm_compute. reflexivity.
Defined.

(** X7.  The clean-up endpoint answers 401 exactly when the header
    differs from the configured admin token, and then leaves the store as
    it was; with neither of them set the request passes.  A request that
    passes with the monitor's age limit leaves the same store as the
    monitor's own purge at that time. *)
Theorem cleanup_requires_token db now max_age_hours :
  (forall x_admin_token admin_token,
      status_of (snd (Endpoints.cleanup_old_subscriptions
                        db now x_admin_token admin_token max_age_hours))
      = 401%Z
      <-> x_admin_token <> admin_token)
  /\ (forall x_admin_token admin_token,
         x_admin_token <> admin_token ->
         fst (Endpoints.cleanup_old_subscriptions
                db now x_admin_token admin_token max_age_hours) = db)
  /\ is_200 (Endpoints.require_admin None None) = true
  /\ (forall cfg token,
         fst (Endpoints.cleanup_old_subscriptions
                db now token token (Config.max_subscription_age_hours cfg))
         = fst (remove_old_subscriptions cfg db now)).
Proof.
  assert (Hadmin : forall x t,
             (x = t /\ Endpoints.require_admin x t = Endpoints.Http200 tt)
             \/ (x <> t
                 /\ Endpoints.require_admin x t
                    = Endpoints.HTTPException 401 "Unauthorized")).
  { intros [x|] [t|]; simpl.
    - destruct (String.eqb_spec x t) as [->|Hne]; [left|right]; split;
        congruence.
    - right. split; [discriminate|reflexivity].
    - right. split; [discriminate|reflexivity].
    - left. split; reflexivity. }
  split; [|split; [|split]].
  - intros x t. unfold Endpoints.cleanup_old_subscriptions.
    destruct (Hadmin x t) as [(-> & ->)|(Hne & ->)].
    + destruct (Database.remove_old_subscriptions db now max_age_hours)
        as [[db' removed]|]; simpl; split; intros H;
        solve [discriminate | exfalso; apply H; reflexivity].
    + simpl. split; [intros _; exact Hne|reflexivity].
  - intros x t Hne. unfold Endpoints.cleanup_old_subscriptions.
    destruct (Hadmin x t) as [(Heq & _)|(_ & ->)]; [contradiction|].
    reflexivity.
  - reflexivity.
  - intros cfg token.
    unfold Endpoints.cleanup_old_subscriptions, remove_old_subscriptions.
    destruct (Hadmin token token) as [(_ & ->)|(Hne & _)]; [|congruence].
    destruct (Database.remove_old_subscriptions db now
                (Config.max_subscription_age_hours cfg))
      as [[db' removed]|]; reflexivity.
Qed.

(** ** The snapshot table: what a write leaves alone *)

Lemma untouched_updated cat locs loc slots timestamp r :
  Py.list_in loc locs = true ->
  untouched cat locs (Database.set_slots cat loc slots timestamp r)
  = untouched cat locs r
  /\ (untouched cat locs r = true ->
      Database.set_slots cat loc slots timestamp r = r).
Proof.
  intros Hin. unfold Database.set_slots.
  destruct (Database.same_key cat loc r) eqn:Hk; [|split; reflexivity].
  unfold untouched. simpl. split; [reflexivity|].
  unfold Database.same_key in Hk. apply andb_true_iff in Hk.
  destruct Hk as (Hc & Hl). apply String.eqb_eq in Hl.
  rewrite Hc, Hl, Hin. discriminate.
Qed.

Lemma untouched_upsert cat locs loc slots timestamp rows :
  Py.list_in loc locs = true ->
  filter (untouched cat locs) (Database.upsert rows cat loc slots timestamp)
  = filter (untouched cat locs) rows.
Proof.
  intros Hin. unfold Database.upsert.
  destruct (existsb (Database.same_key cat loc) rows).
  - induction rows as [|r rows IH]; [reflexivity|]. simpl.
    destruct (untouched_updated cat locs loc slots timestamp r Hin)
      as (Hsame & Hfix).
    rewrite Hsame. destruct (untouched cat locs r).
    + rewrite (Hfix eq_refl), IH. reflexivity.
    + exact IH.
  - rewrite filter_app. simpl. unfold untouched at 2. simpl.
    rewrite String.eqb_refl, Hin. simpl. apply app_nil_r.
Qed.

Lemma list_in_app x a b :
  Py.list_in x (a ++ b) = Py.list_in x a || Py.list_in x b.
Proof. unfold Py.list_in. apply existsb_app. Qed.

Lemma untouched_fold {A} (key : A -> string) (slots : A -> Z) cat locs
    timestamp (items : list A) : forall rows,
  (forall x, In x items -> Py.list_in (key x) locs = true) ->
  filter (untouched cat locs)
    (fold_left (fun rows x => Database.upsert rows cat (key x) (slots x)
                                              timestamp) items rows)
  = filter (untouched cat locs) rows.
Proof.
  induction items as [|x items IH]; intros rows Hall; [reflexivity|]. simpl.
  rewrite IH by (intros y Hy; apply Hall; right; exact Hy).
  apply untouched_upsert. apply Hall. left. reflexivity.
Qed.

(** X8.  Writing a snapshot for a category changes neither the
    subscriptions nor any row of another category, nor a row of a
    location that is neither configured nor in the summaries. *)
Theorem save_slots_info_frame db timestamp cat locs slots_data :
  Database.subscriptions
    (Database.save_slots_info db timestamp cat locs slots_data)
  = Database.subscriptions db
  /\ filter (untouched cat (locs ++ map fst slots_data))
       (Database.last_check
          (Database.save_slots_info db timestamp cat locs slots_data))
     = filter (untouched cat (locs ++ map fst slots_data))
         (Database.last_check db)
  /\ (forall r, In r (Database.last_check db) ->
        Database.category r <> cat ->
        In r (Database.last_check
                (Database.save_slots_info db timestamp cat locs slots_data))).
Proof.
  assert (Hframe :
    filter (untouched cat (locs ++ map fst slots_data))
       (Database.last_check
          (Database.save_slots_info db timestamp cat locs slots_data))
     = filter (untouched cat (locs ++ map fst slots_data))
         (Database.last_check db)).
  { unfold Database.save_slots_info. cbn [Database.last_check].
    rewrite (untouched_fold fst snd).
    - rewrite (untouched_fold (fun l => l) (fun _ => 0%Z)); [reflexivity|].
      intros l Hl. rewrite list_in_app.
      apply orb_true_iff. left. apply list_in_In. exact Hl.
    - intros x Hx. rewrite list_in_app. apply orb_true_iff. right.
      apply list_in_In. apply in_map. exact Hx. }
  split; [reflexivity|]. split; [exact Hframe|].
  intros r Hin Hcat.
  assert (Hr : In r (filter (untouched cat (locs ++ map fst slots_data))
                            (Database.last_check db))).
  { apply filter_In. split; [exact Hin|]. unfold untouched.
    apply String.eqb_neq in Hcat. rewrite Hcat. reflexivity. }
  rewrite <- Hframe in Hr. apply filter_In in Hr. apply Hr.
Qed.

(** ** The snapshot table: row ids *)

Lemma fold_max_ge l : forall a,
  (a <= fold_left Z.max l a)%Z
  /\ (forall x, In x l -> (x <= fold_left Z.max l a)%Z).
Proof.
  induction l as [|y l IH]; intros a; simpl.
  - split; [lia|intros x []].
  - destruct (IH (Z.max a y)) as (Ha & Hl). split; [lia|].
    intros x [<-|Hx]; [lia|apply Hl; exact Hx].
Qed.

Lemma map_id_updated cat loc slots timestamp rows :
  map Database.id (map (Database.set_slots cat loc slots timestamp) rows)
  = map Database.id rows.
Proof.
  rewrite map_map. apply map_ext. intros r. unfold Database.set_slots.
  destruct (Database.same_key cat loc r); reflexivity.
Qed.

Lemma ids_upsert cat loc slots timestamp rows :
  unique_ids rows ->
  unique_ids (Database.upsert rows cat loc slots timestamp)
  /\ exists added,
       map Database.id (Database.upsert rows cat loc slots timestamp)
       = map Database.id rows ++ added.
Proof.
  unfold unique_ids, Database.upsert. intros Hu.
  destruct (existsb (Database.same_key cat loc) rows).
  - rewrite map_id_updated. split; [exact Hu|].
    exists []. symmetry. apply app_nil_r.
  - rewrite map_app. simpl. split; [|eexists; reflexivity].
    apply NoDup_snoc; [exact Hu|]. intros Hin.
    unfold Database.next_id in Hin.
    destruct (fold_max_ge (map Database.id rows) 0%Z) as (_ & Hmax).
    specialize (Hmax _ Hin). lia.
Qed.

Lemma ids_fold {A} (key : A -> string) (slots : A -> Z) cat timestamp
    (items : list A) : forall rows,
  unique_ids rows ->
  unique_ids (fold_left (fun rows x => Database.upsert rows cat (key x)
                                         (slots x) timestamp) items rows)
  /\ exists added,
       map Database.id
         (fold_left (fun rows x => Database.upsert rows cat (key x)
                                     (slots x) timestamp) items rows)
       = map Database.id rows ++ added.
Proof.
  induction items as [|x items IH]; intros rows Hu; simpl.
  - split; [exact Hu|]. exists []. symmetry. apply app_nil_r.
  - destruct (ids_upsert cat (key x) (slots x) timestamp rows Hu)
      as (Hu1 & a1 & H1).
    destruct (IH _ Hu1) as (Hu2 & a2 & H2). split; [exact Hu2|].
    exists (a1 ++ a2). rewrite H2, H1. symmetry. apply app_assoc.
Qed.

(** X9.  A snapshot write keeps the row ids distinct and never renumbers
    a row: the ids after the write are those before it, in the same
    order, followed by the ids of the rows that were added. *)
Theorem save_slots_info_ids db timestamp cat locs slots_data :
  unique_ids (Database.last_check db) ->
  unique_ids (Database.last_check
                (Database.save_slots_info db timestamp cat locs slots_data))
  /\ exists added,
       map Database.id
         (Database.last_check
            (Database.save_slots_info db timestamp cat locs slots_data))
       = map Database.id (Database.last_check db) ++ added.
Proof.
  intros Hu. unfold Database.save_slots_info. cbn [Database.last_check].
  destruct (ids_fold (fun l => l) (fun _ => 0%Z) cat timestamp locs _ Hu)
    as (Hu1 & a1 & H1).
  destruct (ids_fold fst snd cat timestamp slots_data _ Hu1)
    as (Hu2 & a2 & H2).
  split; [exact Hu2|]. exists (a1 ++ a2). rewrite H2, H1.
  symmetry. apply app_assoc.
Qed.

Lemma save_slots_info_ids_witness :
  unique_ids (Database.last_check
                (Database.save_slots_info earlier_snapshot
                   "2025-06-01T12:00:00" "fees" ["Cary"; "Durham East"]
                   [("Durham East", 2%Z)]))
  /\ exists added,
       map Database.id
         (Database.last_check
            (Database.save_slots_info earlier_snapshot
               "2025-06-01T12:00:00" "fees" ["Cary"; "Durham East"]
               [("Durham East", 2%Z)]))
       = map Database.id (Database.last_check earlier_snapshot) ++ added.
Proof.
  apply (save_slots_info_ids earlier_snapshot "2025-06-01T12:00:00" "fees"
           ["Cary"; "Durham East"] [("Durham East", 2%Z)]).
  unfold unique_ids. simpl. repeat constructor; simpl.
  - intros [H|[]]. discriminate H.
  - intros [].
Defined.

(** ** The snapshot table: the locations with slots *)

Lemma find_unique_key cat loc rows r :
  (count_rows cat loc rows <= 1)%nat ->
  In r rows -> Database.same_key cat loc r = true ->
  find (Database.same_key cat loc) rows = Some r.
Proof.
  unfold count_rows. induction rows as [|x rows IH]; [intros _ []|].
  simpl. intros Hc Hin Hk. destruct (Database.same_key cat loc x) eqn:Hx.
  - destruct Hin as [->|Hin]; [reflexivity|]. exfalso. simpl in Hc.
    assert (In r (filter (Database.same_key cat loc) rows))
      by (apply filter_In; split; assumption).
    destruct (filter (Database.same_key cat loc) rows); [contradiction|].
    simpl in Hc. lia.
  - destruct Hin as [->|Hin]; [congruence|]. apply IH; assumption.
Qed.

(** X10.  After a snapshot write, a configured location of the category
    is among the locations with slots exactly when the summaries give it a
    positive count; the row listed then shows that count and the time of
    the write. *)
Theorem listed_with_slots_after_save db timestamp cat locs slots_data loc :
  unique_keys (Database.last_check db) ->
  In loc locs ->
  ((exists r,
       In r (Database.get_locations_with_slots
               (Database.save_slots_info db timestamp cat locs slots_data))
       /\ Database.category r = cat /\ Database.location_name r = loc)
   <-> (0 < last_slots slots_data loc 0)%Z)
  /\ (forall r,
         In r (Database.get_locations_with_slots
                 (Database.save_slots_info db timestamp cat locs slots_data)) ->
         Database.category r = cat -> Database.location_name r = loc ->
         Database.has_slots r = last_slots slots_data loc 0%Z
         /\ Database.last_checked r = timestamp).
Proof.
  intros Hu Hloc.
  destruct (save_slots_info_rows db timestamp cat locs slots_data loc Hu Hloc)
    as (_ & Hcount & Hrow).
  unfold Database.get_locations_with_slots.
  set (rows := Database.last_check
                 (Database.save_slots_info db timestamp cat locs slots_data))
    in *.
  unfold row_of in Hrow.
  destruct (find (Database.same_key cat loc) rows) as [found|] eqn:Hfind;
    [|discriminate].
  simpl in Hrow. injection Hrow as Hslots Htime.
  assert (Hkey : forall r, In r rows -> Database.category r = cat ->
                           Database.location_name r = loc -> r = found).
  { intros r Hin Hc Hl.
    assert (Hk : Database.same_key cat loc r = true).
    { unfold Database.same_key. rewrite Hc, Hl, !String.eqb_refl.
      reflexivity. }
    pose proof (find_unique_key cat loc rows r ltac:(lia) Hin Hk) as H.
    congruence. }
  split.
  - split.
    + intros (r & Hin & Hc & Hl). apply filter_In in Hin.
      destruct Hin as (Hin & Hpos).
      rewrite (Hkey r Hin Hc Hl) in Hpos. rewrite Hslots in Hpos.
      apply Z.ltb_lt. exact Hpos.
    + intros Hpos. exists found. apply find_some in Hfind.
      destruct Hfind as (Hin & Hk). unfold Database.same_key in Hk.
      apply andb_true_iff in Hk. destruct Hk as (Hc & Hl).
      apply String.eqb_eq in Hc, Hl. split; [|split; assumption].
      apply filter_In. split; [exact Hin|]. rewrite Hslots.
      apply Z.ltb_lt. exact Hpos.
  - intros r Hin Hc Hl. apply filter_In in Hin. destruct Hin as (Hin & _).
    rewrite (Hkey r Hin Hc Hl). split; assumption.
Qed.

Lemma earlier_snapshot_unique :
  unique_keys (Database.last_check earlier_snapshot).
Proof.
  intros cat loc. unfold count_rows, earlier_snapshot, Database.same_key.
  cbn [Database.last_check filter Database.category Database.location_name].
  destruct (String.eqb_spec "fees" cat) as [<-|Hf].
  - replace (String.eqb "permits" "fees") with false by reflexivity.
    cbn [andb]. destruct (String.eqb "Cary" loc); simpl; lia.
  - cbn [andb]. destruct (String.eqb "permits" cat && String.eqb "Cary" loc);
      simpl; lia.
Qed.

Lemma listed_with_slots_after_save_witness :
  ((exists r,
       In r (Database.get_locations_with_slots
               (Database.save_slots_info earlier_snapshot
                  "2025-06-01T12:00:00" "fees" ["Cary"; "Durham East"]
                  [("Durham East", 2%Z)]))
       /\ Database.category r = "fees" /\ Database.location_name r = "Cary")
   <-> (0 < last_slots [("Durham East", 2%Z)] "Cary" 0)%Z)
  /\ (forall r,
         In r (Database.get_locations_with_slots
                 (Database.save_slots_info earlier_snapshot
                    "2025-06-01T12:00:00" "fees" ["Cary"; "Durham East"]
                    [("Durham East", 2%Z)])) ->
         Database.category r = "fees" -> Database.location_name r = "Cary" ->
         Database.has_slots r = last_slots [("Durham East", 2%Z)] "Cary" 0%Z
         /\ Database.last_checked r = "2025-06-01T12:00:00").
Proof.
  apply (listed_with_slots_after_save earlier_snapshot "2025-06-01T12:00:00"
           "fees" ["Cary"; "Durham East"] [("Durham East", 2%Z)] "Cary").
  - exact earlier_snapshot_unique.
  - left. reflexivity.
Defined.

(** ** Results and exceptions of the navigation *)

Lemma outcomes_any {A} (m : M A) : outcomes anything anything m.
Proof. intros t. destruct (fst (m t)); exact I. Qed.

Lemma outcomes_ret {A} (P : A -> Prop) Q a : P a -> outcomes P Q (ret a).
Proof. intros H t. exact H. Qed.

Lemma outcomes_raise {A} (P : A -> Prop) (Q : exn -> Prop) e :
  Q e -> outcomes P Q (@raise A e).
Proof. intros H t. exact H. Qed.

Lemma outcomes_weaken {A} (P P' : A -> Prop) (Q Q' : exn -> Prop) m :
  outcomes P Q m -> (forall a, P a -> P' a) -> (forall e, Q e -> Q' e) ->
  outcomes P' Q' m.
Proof.
  intros H HP HQ t. specialize (H t).
  destruct (fst (m t)); [apply HP|apply HQ]; exact H.
Qed.

Lemma outcomes_bind {A B} (P1 : A -> Prop) (P : B -> Prop) Q
    (m : M A) (k : A -> M B) :
  outcomes P1 Q m -> (forall a, P1 a -> outcomes P Q (k a)) ->
  outcomes P Q (bind m k).
Proof.
  intros Hm Hk t. unfold bind. specialize (Hm t).
  destruct (m t) as [[a|e] t1]; simpl in Hm; [|exact Hm].
  apply (Hk a Hm t1).
Qed.

Lemma outcomes_try_except {A} (P : A -> Prop) (Q1 Q : exn -> Prop)
    (m : M A) h :
  outcomes P Q1 m -> (forall e, Q1 e -> outcomes P Q (h e)) ->
  outcomes P Q (try_except m h).
Proof.
  intros Hm Hh t. unfold try_except. specialize (Hm t).
  destruct (m t) as [[a|e] t1]; simpl in Hm; [exact Hm|].
  apply (Hh e Hm t1).
Qed.

Lemma outcomes_try_finally {A} (P : A -> Prop) Q (m : M A) c :
  outcomes P Q m -> outcomes anything Q c -> outcomes P Q (try_finally m c).
Proof.
  intros Hm Hc t. unfold try_finally. specialize (Hm t).
  destruct (m t) as [[a|e] t1]; simpl in Hm; specialize (Hc t1);
    destruct (c t1) as [[u|e'] t2]; simpl in *; assumption.
Qed.

Lemma take_screenshot_never_raises E cfg :
  outcomes anything nothing (take_screenshot E cfg).
Proof.
  intros t. destruct (take_screenshot_returns E cfg t) as (t' & -> & _).
  exact I.
Qed.

Lemma safe_click_except_outcomes E cfg attempt max_attempts e :
  outcomes (fun r => r = None) restart_or_server_error
           (safe_click_except E cfg attempt max_attempts e).
Proof.
  unfold safe_click_except.
  apply (outcomes_bind anything); [|intros page_content _].
  { apply (outcomes_try_except _ anything).
    - eapply outcomes_weaken; [apply outcomes_any| |]; intros; exact I.
    - intros e0 _. apply outcomes_ret. exact I. }
  destruct (Py.str_in error_banner page_content).
  { apply outcomes_raise. right. reflexivity. }
  destruct (attempt =? max_attempts - 1)%Z.
  - apply (outcomes_bind anything).
    + eapply outcomes_weaken; [apply take_screenshot_never_raises| |];
        [intros; exact I|intros e0 []].
    + intros _ _. apply outcomes_raise. left. reflexivity.
  - apply outcomes_ret. reflexivity.
Qed.

Lemma safe_click_attempts_outcomes E cfg cl el timeout max_attempts attempts :
  outcomes anything restart_or_server_error
           (safe_click_attempts E cfg cl el timeout max_attempts attempts).
Proof.
  induction attempts as [|attempt rest IH]; simpl.
  - apply outcomes_ret. exact I.
  - apply (outcomes_bind anything).
    + apply (outcomes_try_except _ anything).
      * eapply outcomes_weaken; [apply outcomes_any| |]; intros; exact I.
      * intros e _. eapply outcomes_weaken;
          [apply safe_click_except_outcomes| |]; intros; try exact I;
          assumption.
    + intros [b|] _; [apply outcomes_ret; exact I|exact IH].
Qed.

Lemma safe_click_outcomes E cfg tg expected_text timeout max_attempts :
  outcomes anything restart_or_server_error
           (safe_click E cfg tg expected_text timeout max_attempts).
Proof. apply safe_click_attempts_outcomes. Qed.

Lemma open_main_page_outcomes E cfg url :
  outcomes anything (fun e => e = RestartRequiredException)
           (open_main_page E cfg url).
Proof.
  unfold open_main_page. apply (outcomes_try_except _ anything).
  - eapply outcomes_weaken; [apply outcomes_any| |]; intros; exact I.
  - intros e _. apply outcomes_raise. reflexivity.
Qed.

Lemma go_back_outcomes E expected_text :
  outcomes anything (fun e => e <> PlaywrightTimeoutError)
           (go_back E expected_text).
Proof.
  unfold go_back. apply (outcomes_try_except _ anything).
  - eapply outcomes_weaken; [apply outcomes_any| |]; intros; exact I.
  - intros e _. destruct e; apply outcomes_raise; discriminate.
Qed.

Lemma enter_category_selection_outcomes E cfg :
  outcomes anything restart_or_server_error (enter_category_selection E cfg).
Proof.
  unfold enter_category_selection. apply (outcomes_bind anything).
  - eapply outcomes_weaken; [apply open_main_page_outcomes| |];
      [intros; exact I|intros e ->; left; reflexivity].
  - intros _ _. apply (outcomes_bind anything);
      [apply safe_click_outcomes|].
    intros _ _. apply outcomes_ret. exact I.
Qed.

Lemma try_category_never_raises E cfg db category :
  outcomes anything nothing (try_category E cfg db category).
Proof.
  unfold try_category. apply (outcomes_try_except _ anything).
  - apply (outcomes_bind anything); [apply outcomes_any|]. intros _ _.
    apply (outcomes_bind anything); [apply outcomes_any|]. intros db1 _.
    apply (outcomes_try_except _ anything).
    + eapply outcomes_weaken; [apply outcomes_any| |]; intros; exact I.
    + intros e _. apply outcomes_ret. exact I.
  - intros e _. apply outcomes_ret. exact I.
Qed.

Lemma scan_categories_outcomes E cfg cats : forall db,
  outcomes anything restart_or_server_error (scan_categories E cfg db cats).
Proof.
  induction cats as [|category rest IH]; intros db; simpl.
  - apply outcomes_ret. exact I.
  - apply (outcomes_bind anything).
    + eapply outcomes_weaken; [apply try_category_never_raises| |];
        [intros; exact I|intros e []].
    + intros [db1 [|]] _; cbn [fst snd]; [apply IH|].
      apply (outcomes_bind anything).
      * eapply outcomes_weaken; [apply take_screenshot_never_raises| |];
          [intros; exact I|intros e []].
      * intros _ _. apply (outcomes_bind anything);
          [apply enter_category_selection_outcomes|].
        intros _ _. apply IH.
Qed.

Lemma check_category_outcomes E cfg db :
  outcomes anything restart_or_server_error (check_category E cfg db).
Proof.
  unfold check_category. apply (outcomes_bind anything);
    [apply enter_category_selection_outcomes|].
  intros _ _. apply scan_categories_outcomes.
Qed.

(** X11.  Whatever the page does, [safe_click] raises nothing but the
    monitor's two exceptions, [open_main_page] nothing but
    [RestartRequiredException], and [go_back] never lets a timeout of
    the browser through: a timeout of the navigation or of the wait for
    the expected page becomes [RestartRequiredException].  Taking a
    screenshot never raises. *)
Theorem navigation_exceptions E cfg :
  (forall tg expected_text timeout max_attempts t e t',
      safe_click E cfg tg expected_text timeout max_attempts t
      = (Raise e, t') ->
      e = RestartRequiredException \/ e = ServerErrorException)
  /\ (forall url t e t',
         open_main_page E cfg url t = (Raise e, t') ->
         e = RestartRequiredException)
  /\ (forall expected_text t e t',
         go_back E expected_text t = (Raise e, t') ->
         e <> PlaywrightTimeoutError)
  /\ (forall expected_text t,
         env_go_back E t = Raise PlaywrightTimeoutError ->
         fst (go_back E expected_text t) = Raise RestartRequiredException)
  /\ (forall expected_text t t1,
         (page_go_back E ;;;
          wait_for E (if is_selector expected_text then Css expected_text
                      else First (ByText expected_text)) WaitVisible 15000) t
         = (Raise PlaywrightTimeoutError, t1) ->
         go_back E expected_text t = (Raise RestartRequiredException, t1))
  /\ (forall t, fst (take_screenshot E cfg t) = Ok tt).
Proof.
  split; [|split; [|split; [|split; [|split]]]].
  - intros tg expected_text timeout max_attempts t e t' H.
    pose proof (safe_click_outcomes E cfg tg expected_text timeout
                                    max_attempts t) as Ho.
    rewrite H in Ho. exact Ho.
  - intros url t e t' H.
    pose proof (open_main_page_outcomes E cfg url t) as Ho.
    rewrite H in Ho. exact Ho.
  - intros expected_text t e t' H.
    pose proof (go_back_outcomes E expected_text t) as Ho.
    rewrite H in Ho. exact Ho.
  - intros expected_text t H.
    unfold go_back, try_except, bind, page_go_back, call. rewrite H.
    reflexivity.
  - intros expected_text t t1 H. unfold go_back, try_except.
    rewrite H. reflexivity.
  - intros t. destruct (take_screenshot_returns E cfg t) as (t' & -> & _).
    reflexivity.
Qed.

(** X12.  The only exceptions that can leave a scan, [check_category] or
    a whole cycle, are [RestartRequiredException] and
    [ServerErrorException]: every other failure of the browser is
    absorbed or turned into one of the two. *)
Theorem scan_exceptions E cfg db t e t' :
  (check_category E cfg db t = (Raise e, t') ->
   e = RestartRequiredException \/ e = ServerErrorException)
  /\ (run_cycle E cfg db t = (Raise e, t') ->
      e = RestartRequiredException \/ e = ServerErrorException).
Proof.
  split.
  - intros H. pose proof (check_category_outcomes E cfg db t) as Ho.
    rewrite H in Ho. exact Ho.
  - unfold run_cycle, bind, now. intros H.
    pose proof (check_category_outcomes E cfg
                  (fst (remove_old_subscriptions cfg db (env_now E t))) t)
      as Ho.
    rewrite H in Ho. exact Ho.
Qed.

(** ** Counting the events of a computation *)

Lemma at_most_silent {A} p (m : M A) : silent p m -> at_most p 0 m.
Proof.
  intros H t. destruct (H t) as (new & Hn & Hc). exists new.
  split; [exact Hn|lia].
Qed.

Lemma at_most_more {A} p n n' (m : M A) :
  at_most p n m -> (n <= n')%nat -> at_most p n' m.
Proof.
  intros H Hle t. destruct (H t) as (new & Hn & Hc). exists new.
  split; [exact Hn|lia].
Qed.

Lemma at_most_bind {A B} p n1 n2 (m : M A) (k : A -> M B) :
  at_most p n1 m -> (forall a, at_most p n2 (k a)) ->
  at_most p (n1 + n2) (bind m k).
Proof.
  intros Hm Hk t. unfold bind. destruct (Hm t) as (new1 & E1 & C1).
  destruct (m t) as [[a|e] t1]; simpl in E1; subst t1.
  - destruct (Hk a (new1 ++ t)) as (new2 & E2 & C2).
    exists (new2 ++ new1). rewrite E2, app_assoc, count_events_app.
    split; [reflexivity|lia].
  - exists new1. split; [reflexivity|lia].
Qed.

Lemma at_most_try_except {A} p n1 n2 (m : M A) h :
  at_most p n1 m -> (forall e, at_most p n2 (h e)) ->
  at_most p (n1 + n2) (try_except m h).
Proof.
  intros Hm Hh t. unfold try_except. destruct (Hm t) as (new1 & E1 & C1).
  destruct (m t) as [[a|e] t1]; simpl in E1; subst t1.
  - exists new1. split; [reflexivity|lia].
  - destruct (Hh e (new1 ++ t)) as (new2 & E2 & C2).
    exists (new2 ++ new1). rewrite E2, app_assoc, count_events_app.
    split; [reflexivity|lia].
Qed.

Lemma at_most_call {A} p (ask : trace -> result A) ev :
  at_most p 1 (call ask ev).
Proof.
  intros t. exists [ev (ask t)]. split; [reflexivity|].
  rewrite count_events_cons. unfold count_events. simpl.
  destruct (p (ev (ask t))); lia.
Qed.

Lemma at_most_ret {A} p n (a : A) : at_most p n (ret a).
Proof.
  apply (at_most_more p 0); [|lia]. apply at_most_silent, silent_ret.
Qed.

Lemma safe_click_try_clicks E cl el timeout :
  at_most is_click 1 (safe_click_try E cl el timeout).
Proof.
  unfold safe_click_try.
  apply (at_most_bind is_click 0 1).
  { apply at_most_silent. destruct el as [el|]; [|apply silent_ret].
    apply silent_try_except.
    - apply silent_call. reflexivity.
    - intros e. apply silent_raise. }
  intros [|]; [apply at_most_ret|].
  apply (at_most_bind is_click 0 1).
  { apply at_most_silent, silent_call. reflexivity. }
  intros _. apply (at_most_bind is_click 1 0); [apply at_most_call|].
  intros _. apply (at_most_bind is_click 0 0); [|intros; apply at_most_ret].
  apply at_most_silent. destruct el as [el|]; [|apply silent_ret].
  apply silent_call. reflexivity.
Qed.

Lemma safe_click_except_no_click E cfg attempt max_attempts e :
  silent is_click (safe_click_except E cfg attempt max_attempts e).
Proof.
  unfold safe_click_except. apply silent_bind.
  - apply silent_try_except; [apply silent_call; reflexivity|].
    intros e0. apply silent_ret.
  - intros page_content. destruct (Py.str_in error_banner page_content);
      [apply silent_raise|].
    destruct (attempt =? max_attempts - 1)%Z; [|apply silent_ret].
    apply silent_bind; [|intros; apply silent_raise].
    apply silent_take_screenshot; reflexivity.
Qed.

Lemma safe_click_attempts_clicks E cfg cl el timeout max_attempts attempts :
  at_most is_click (length attempts)
          (safe_click_attempts E cfg cl el timeout max_attempts attempts).
Proof.
  induction attempts as [|attempt rest IH]; simpl.
  - apply at_most_ret.
  - apply (at_most_bind is_click 1 (length rest)).
    + apply (at_most_try_except is_click 1 0).
      * apply (at_most_bind is_click 1 0); [apply safe_click_try_clicks|].
        intros b. apply at_most_ret.
      * intros e. apply at_most_silent, safe_click_except_no_click.
    + intros [b|]; [apply at_most_ret|exact IH].
Qed.

(** X13.  [safe_click] calls [click()] at most [max_attempts] times, and
    it returns [False] exactly when [max_attempts] is not positive: with
    at least one attempt it returns [True] or raises. *)
Theorem safe_click_bounded E cfg tg expected_text timeout max_attempts t :
  (exists new,
      snd (safe_click E cfg tg expected_text timeout max_attempts t)
      = new ++ t
      /\ (clicks new <= Z.to_nat max_attempts)%nat)
  /\ (fst (safe_click E cfg tg expected_text timeout max_attempts t)
      = Ok false
      <-> (max_attempts <= 0)%Z).
Proof.
  split.
  - destruct (safe_click_attempts_clicks E cfg (click_locator_of tg)
                (expected_locator_of expected_text) timeout max_attempts
                (Py.range max_attempts) t) as (new & Hn & Hc).
    exists new. split; [exact Hn|].
    unfold Py.range in Hc. rewrite length_map, length_seq in Hc. exact Hc.
  - split.
    + intros Hf. destruct (Z.le_gt_cases max_attempts 0) as [H|H]; [exact H|].
      exfalso. revert Hf. unfold safe_click, Py.range.
      replace (Z.to_nat max_attempts) with (S (Z.to_nat max_attempts - 1))
        by lia.
      apply safe_click_attempts_never_false. lia.
    + intros H. rewrite (safe_click_no_attempts _ _ _ _ _ _ _ H). reflexivity.
Qed.

(** ** The shape of the slots *)

Lemma dict_set_keys {V} (d : Py.dict V) k v x :
  In x (map fst (Py.dict_set d k v)) -> x = k \/ In x (map fst d).
Proof.
  induction d as [|[k' v'] d IH]; simpl.
  - intros [H|[]]. left. symmetry. exact H.
  - destruct (String.eqb k' k); simpl; [tauto|].
    intros [H|H]; [right; left; exact H|].
    destruct (IH H) as [H1|H1]; [left; exact H1|right; right; exact H1].
Qed.

Lemma dict_set_well_formed d k v :
  well_formed_slots d -> v <> [] -> Forall kept_time v ->
  well_formed_slots (Py.dict_set d k v).
Proof.
  unfold well_formed_slots. intros (Hnd & Hall) Hv Hk.
  induction d as [|[k' v'] d IH]; simpl.
  - split; [repeat constructor; intros []|].
    constructor; [split; assumption|constructor].
  - inversion Hnd as [|? ? Hn Hnd']; subst.
    inversion Hall as [|? ? Hhead Hall']; subst.
    destruct (String.eqb_spec k' k) as [->|Hne]; simpl.
    + split; [exact Hnd|]. constructor; [split; assumption|exact Hall'].
    + destruct (IH Hnd' Hall') as (IH1 & IH2). split.
      * constructor; [|exact IH1]. intros Hin.
        destruct (dict_set_keys _ _ _ _ Hin) as [H|H]; [congruence|].
        exact (Hn H).
      * constructor; assumption.
Qed.

Lemma dict_update_well_formed other : forall d,
  well_formed_slots d ->
  Forall (fun kv => snd kv <> [] /\ Forall kept_time (snd kv)) other ->
  well_formed_slots (Py.dict_update d other).
Proof.
  unfold Py.dict_update.
  induction other as [|[k v] other IH]; intros d Hd Ho; simpl; [exact Hd|].
  inversion Ho as [|? ? (Hv & Hk) Ho']; subst. apply IH; [|exact Ho'].
  apply dict_set_well_formed; assumption.
Qed.

Lemma well_formed_empty : well_formed_slots [].
Proof. split; constructor. Qed.

Lemma read_times_kept E indices : forall times,
  Forall kept_time times ->
  outcomes (Forall kept_time) anything (read_times E indices times).
Proof.
  induction indices as [|i rest IH]; intros times Hk; simpl.
  - apply outcomes_ret. exact Hk.
  - apply (outcomes_bind anything); [apply outcomes_any|]. intros raw _.
    destruct (String.eqb_spec (Py.strip raw) "") as [H1|H1]; simpl;
      [apply IH; exact Hk|].
    destruct (String.eqb_spec (Py.strip raw) "-") as [H2|H2]; simpl;
      [apply IH; exact Hk|].
    apply IH. apply Forall_app. split; [exact Hk|].
    constructor; [split; assumption|constructor].
Qed.

Lemma read_days_well_formed E cfg month_text year_text indices : forall slots,
  well_formed_slots slots ->
  outcomes well_formed_slots anything
           (read_days E cfg month_text year_text indices slots).
Proof.
  induction indices as [|idx rest IH]; intros slots Hw; simpl.
  - apply outcomes_ret. exact Hw.
  - apply (outcomes_bind anything); [apply outcomes_any|]. intros raw _.
    destruct (int_of_str E (Py.strip raw)) as [day|e];
      [|apply outcomes_raise; exact I].
    apply (outcomes_bind anything); [apply outcomes_any|]. intros _ _.
    apply (outcomes_bind anything); [apply outcomes_any|]. intros _ _.
    apply (outcomes_bind anything); [apply outcomes_any|].
    intros option_nums _.
    apply (outcomes_bind (Forall kept_time));
      [apply read_times_kept; constructor|].
    intros [|time times] Hk; [apply IH; exact Hw|].
    apply IH. apply dict_set_well_formed; [exact Hw|discriminate|exact Hk].
Qed.

Lemma check_month_slots_well_formed E cfg location :
  outcomes well_formed_slots anything (check_month_slots E cfg location).
Proof.
  unfold check_month_slots.
  apply (outcomes_bind anything); [apply outcomes_any|]. intros header _.
  apply (outcomes_bind anything); [apply outcomes_any|]. intros n _.
  destruct (n =? 0)%Z; [apply outcomes_ret; exact well_formed_empty|].
  apply read_days_well_formed. exact well_formed_empty.
Qed.

Lemma check_slots_outcomes E cfg location :
  outcomes well_formed_slots anything (check_slots E cfg location).
Proof.
  unfold check_slots.
  apply (outcomes_bind anything); [apply outcomes_any|]. intros _ _.
  apply (outcomes_bind anything); [apply outcomes_any|]. intros next_count _.
  apply (outcomes_bind well_formed_slots);
    [apply check_month_slots_well_formed|].
  intros current Hc.
  assert (Hfirst : well_formed_slots (Py.dict_update [] current)).
  { apply dict_update_well_formed; [exact well_formed_empty|apply Hc]. }
  destruct (0 <? next_count)%Z; [|apply outcomes_ret; exact Hfirst].
  apply (outcomes_bind anything); [apply outcomes_any|]. intros _ _.
  apply (outcomes_bind anything); [apply outcomes_any|]. intros _ _.
  apply (outcomes_bind well_formed_slots);
    [apply check_month_slots_well_formed|].
  intros next Hn. apply outcomes_ret.
  apply dict_update_well_formed; [exact Hfirst|apply Hn].
Qed.

Lemma slots_or_empty_outcomes E cfg location :
  outcomes well_formed_slots nothing (slots_or_empty E cfg location).
Proof.
  unfold slots_or_empty, enter_and_extract.
  apply (outcomes_try_except _ anything).
  - apply (outcomes_bind anything); [apply outcomes_any|]. intros _ _.
    apply check_slots_outcomes.
  - intros e _. destruct e; try (apply outcomes_ret; exact well_formed_empty);
      (apply (outcomes_bind anything);
       [eapply outcomes_weaken; [apply take_screenshot_never_raises| |];
        [intros; exact I|intros e0 []]
       |intros _ _; apply outcomes_ret; exact well_formed_empty]).
Qed.

Lemma total_len_from (d : Py.dict (list string)) : forall acc,
  Forall (fun kv => snd kv <> []) d ->
  (acc + Z.of_nat (length d)
   <= fold_left (fun acc kv => acc + Z.of_nat (length (snd kv))) d acc)%Z.
Proof.
  induction d as [|[k v] d IH]; intros acc Hall; simpl; [lia|].
  inversion Hall as [|? ? Hv Hall']; subst. simpl in Hv.
  specialize (IH (acc + Z.of_nat (length v))%Z Hall').
  destruct v; [congruence|]. simpl length in *. lia.
Qed.

Lemma total_len_zero d :
  well_formed_slots d -> (Py.total_len d = 0%Z <-> d = []).
Proof.
  intros (_ & Hall). split; [|intros ->; reflexivity].
  intros Hz. destruct d as [|kv d]; [reflexivity|]. exfalso.
  assert (Hne : Forall (fun kv => snd kv <> []) (kv :: d)).
  { eapply Forall_impl; [|exact Hall]. intros a (H & _). exact H. }
  pose proof (total_len_from (kv :: d) 0%Z Hne) as H.
  unfold Py.total_len in Hz. rewrite Hz in H. simpl length in H. lia.
Qed.

(** X14.  What [check_slots] returns has distinct dates, and every date
    has at least one time, none of them empty or the dash of the
    drop-down's placeholder.  So the number of slots recorded for a
    location is 0 exactly when no date was found, which is also the case
    in which no notification is sent. *)
Theorem check_slots_well_formed E cfg location t total_slots t' :
  check_slots E cfg location t = (Ok total_slots, t') ->
  NoDup (map fst total_slots)
  /\ (forall date_key times,
         In (date_key, times) total_slots ->
         times <> []
         /\ forall time, In time times -> time <> "" /\ time <> "-")
  /\ (Py.total_len total_slots = 0%Z <-> total_slots = []).
Proof.
  intros H. pose proof (check_slots_outcomes E cfg location t) as Hw.
  rewrite H in Hw. simpl in Hw. split; [apply Hw|]. split.
  - intros date_key times Hin. destruct Hw as (_ & Hall).
    rewrite Forall_forall in Hall. destruct (Hall _ Hin) as (Hne & Hk).
    split; [exact Hne|]. intros time Ht. rewrite Forall_forall in Hk.
    exact (Hk time Ht).
  - apply total_len_zero. exact Hw.
Qed.

Lemma check_slots_well_formed_witness :
  NoDup (map fst [("June 3, 2025", ["9:00 AM"]); ("July 3, 2025", ["9:00 AM"])])
  /\ (forall date_key times,
         In (date_key, times)
            [("June 3, 2025", ["9:00 AM"]); ("July 3, 2025", ["9:00 AM"])] ->
         times <> []
         /\ forall time, In time times -> time <> "" /\ time <> "-")
  /\ (Py.total_len
        [("June 3, 2025", ["9:00 AM"]); ("July 3, 2025", ["9:00 AM"])] = 0%Z
      <-> [("June 3, 2025", ["9:00 AM"]); ("July 3, 2025", ["9:00 AM"])] = []).
Proof.
  apply (check_slots_well_formed two_month_env Config.default "Cary" []
           [("June 3, 2025", ["9:00 AM"]); ("July 3, 2025", ["9:00 AM"])]
           (snd (check_slots two_month_env Config.default "Cary" []))).
  vm_compute. reflexivity.
Defined.

(** X15.  Reading a location never fails: when entering the location or
    reading its calendar raises, the result is empty (after a screenshot,
    unless the failure was a site error), and otherwise it is what was
    read.  The result is well formed, so the number of slots recorded for
    the location is 0 exactly when no date was found, and for such a
    location no notification goes out. *)
Theorem location_failures_are_empty E cfg db category location t :
  exists total_slots t',
    slots_or_empty E cfg location t = (Ok total_slots, t')
    /\ NoDup (map fst total_slots)
    /\ (Py.total_len total_slots = 0%Z <-> total_slots = [])
    /\ (Py.total_len total_slots = 0%Z ->
        send_notification E cfg db category location total_slots t'
        = (Ok 0%Z, t'))
    /\ (forall e t1,
          enter_and_extract E cfg location t = (Raise e, t1) ->
          total_slots = []
          /\ Py.total_len total_slots = 0%Z
          /\ (e = ServerErrorException -> t' = t1)
          /\ (e <> ServerErrorException ->
              t' = snd (take_screenshot E cfg t1)))
    /\ (forall slots t1,
          enter_and_extract E cfg location t = (Ok slots, t1) ->
          total_slots = slots /\ t' = t1).
Proof.
  pose proof (slots_or_empty_outcomes E cfg location t) as Hw.
  destruct (slots_or_empty E cfg location t) as [[total_slots|e] t'] eqn:Hs;
    simpl in Hw; [|contradiction].
  exists total_slots, t'. split; [reflexivity|]. split; [apply Hw|].
  pose proof (total_len_zero total_slots Hw) as Hz. split; [exact Hz|].
  split.
  { intros H. apply Hz in H. subst total_slots. reflexivity. }
  split.
  - intros e t1 He. revert Hs. unfold slots_or_empty.
    rewrite (try_except_raise _ _ _ _ _ He).
    destruct (take_screenshot_returns E cfg t1) as (t2 & Ht & _).
    destruct e;
      try (unfold bind; rewrite Ht; unfold ret; intros H;
           injection H as <- <-;
           repeat split; discriminate).
    intros H. injection H as <- <-.
    repeat split. intros Hne. exfalso. apply Hne. reflexivity.
  - intros slots t1 Hok. revert Hs. unfold slots_or_empty.
    rewrite (try_except_ok _ _ _ _ _ Hok).
    intros H. injection H as <- <-. split; reflexivity.
Qed.

(** ** Sending *)

Lemma send_push_result E cfg subscription_json title body t :
  send_push E cfg subscription_json title body t = (Ok false, t)
  \/ exists aud r,
       send_push E cfg subscription_json title body t
       = (Ok (is_ok r),
          EvWebpush (monitor_call cfg subscription_json title body aud) r
            :: t).
Proof.
  unfold send_push, try_except.
  destruct (json_endpoint E subscription_json) as [endpoint|e];
    [|left; reflexivity].
  destruct (String.eqb endpoint ""); [left; reflexivity|].
  destruct (send_push_audience E endpoint) as [aud|e]; [|left; reflexivity].
  right. exists aud.
  exists (env_webpush E t (monitor_call cfg subscription_json title body aud)).
  unfold bind, webpush, call, ret, monitor_call.
  destruct (env_webpush E t _) as [[]|e]; reflexivity.
Qed.

Lemma send_to_all_count E cfg interested title body : forall sent_count t,
  exists new,
    send_to_all E cfg interested title body sent_count t
    = (Ok (sent_count + Z.of_nat (count_events is_accepted_push new))%Z,
       new ++ t)
    /\ (length new <= length interested)%nat
    /\ forallb is_webpush new = true.
Proof.
  induction interested as [|sub rest IH]; intros sent_count t; simpl.
  - exists []. split; [|split; [simpl; lia|reflexivity]].
    unfold ret, count_events. simpl. rewrite Z.add_0_r. reflexivity.
  - unfold bind at 1. unfold try_except at 1.
    destruct (send_push_result E cfg (Database.push_subscription sub) title
                               body t)
      as [->|(aud & r & ->)].
    + destruct (IH sent_count t) as (new & -> & Hlen & Hall).
      exists new. repeat split; [lia|exact Hall].
    + destruct (IH (if is_ok r then sent_count + 1 else sent_count)%Z
                   (EvWebpush (monitor_call cfg
                                 (Database.push_subscription sub) title body
                                 aud) r :: t))
        as (new & -> & Hlen & Hall).
      exists (new ++ [EvWebpush (monitor_call cfg
                                   (Database.push_subscription sub) title body
                                   aud) r]).
      rewrite <- app_assoc. simpl. rewrite count_events_app, length_app.
      rewrite forallb_app, Hall. simpl. split; [|split; [lia|reflexivity]].
      f_equal. f_equal. rewrite count_events_cons.
      change (count_events is_accepted_push []) with 0%nat.
      destruct r; simpl; lia.
Qed.

(** X16.  [send_notification] never raises.  It only ever talks to the
    push gateway, at most once per stored subscription, and the number it
    returns is the number of messages the gateway accepted. *)
Theorem send_notification_count E cfg db category location_name total_slots
    t :
  exists new,
    send_notification E cfg db category location_name total_slots t
    = (Ok (Z.of_nat (count_events is_accepted_push new)), new ++ t)
    /\ (length new <= length (Database.subscriptions db))%nat
    /\ forallb is_webpush new = true.
Proof.
  assert (Hnone : exists new : trace,
             (@Ok Z 0%Z, t)
             = (Ok (Z.of_nat (count_events is_accepted_push new)), new ++ t)
             /\ (length new <= length (Database.subscriptions db))%nat
             /\ forallb is_webpush new = true).
  { exists []. repeat split. simpl. lia. }
  unfold send_notification, load_subscriptions, Database.get_all_subscriptions.
  destruct total_slots as [|kv d]; [exact Hnone|].
  destruct (Database.subscriptions db) as [|s subs] eqn:Hsubs; [exact Hnone|].
  destruct (Py.dict_get (Config.category_map cfg) category) as [mapped|];
    [|exact Hnone].
  destruct (String.eqb mapped ""); [exact Hnone|].
  pose proof (filter_length_le (matches mapped location_name) (s :: subs))
    as Hle.
  rewrite <- select_interested_filter in Hle.
  destruct (select_interested mapped location_name (s :: subs))
    as [|i interested] eqn:Hi; [exact Hnone|].
  destruct (send_to_all_count E cfg (i :: interested) notification_title
              (notification_body category location_name (kv :: d)) 0%Z t)
    as (new & -> & Hlen & Hall).
  exists new. split; [reflexivity|]. split; [lia|exact Hall].
Qed.

(** ** The store across a scan *)

Lemma store_kept_refl db : store_kept db db.
Proof. repeat split; auto. Qed.

Lemma store_kept_trans a b c : store_kept a b -> store_kept b c -> store_kept a c.
Proof.
  intros (S1 & K1 & I1 & C1) (S2 & K2 & I2 & C2). repeat split.
  - congruence.
  - auto.
  - auto.
  - intros cat loc. specialize (C1 cat loc). specialize (C2 cat loc). lia.
Qed.

Lemma save_slots_info_kept db timestamp cat locs slots_data :
  store_kept db (Database.save_slots_info db timestamp cat locs slots_data).
Proof.
  split; [reflexivity|]. split; [|split].
  - intros Hu. unfold Database.save_slots_info. cbn [Database.last_check].
    destruct (zero_all_locations cat timestamp locs _ Hu) as (Hu1 & _).
    destruct (set_observed_counts cat timestamp slots_data _ Hu1) as (Hu2 & _).
    exact Hu2.
  - intros Hu. unfold Database.save_slots_info. cbn [Database.last_check].
    destruct (ids_fold (fun l => l) (fun _ => 0%Z) cat timestamp locs _ Hu)
      as (Hu1 & _).
    destruct (ids_fold fst snd cat timestamp slots_data _ Hu1) as (Hu2 & _).
    exact Hu2.
  - intros c l. unfold Database.save_slots_info. cbn [Database.last_check].
    transitivity (count_rows c l
                    (fold_left (fun rows location =>
                                  Database.upsert rows cat location 0%Z
                                                  timestamp)
                               locs (Database.last_check db))).
    + generalize (Database.last_check db). induction locs as [|x locs IH];
        intros rows; simpl; [lia|].
      etransitivity; [|apply IH]. apply count_rows_upsert_ge.
    + generalize (fold_left (fun rows location =>
                               Database.upsert rows cat location 0%Z timestamp)
                            locs (Database.last_check db)).
      induction slots_data as [|x slots_data IH]; intros rows; simpl; [lia|].
      etransitivity; [|apply IH]. apply count_rows_upsert_ge.
Qed.

Lemma check_locations_kept E cfg db category :
  outcomes (store_kept db) anything (check_locations E cfg db category).
Proof.
  unfold check_locations.
  apply (outcomes_bind anything); [apply outcomes_any|]. intros slots_data _.
  apply (outcomes_bind anything); [apply outcomes_any|]. intros timestamp _.
  apply outcomes_ret. apply save_slots_info_kept.
Qed.

Lemma try_category_kept E cfg db category :
  outcomes (fun attempt => store_kept db (fst attempt)) nothing
           (try_category E cfg db category).
Proof.
  unfold try_category. apply (outcomes_try_except _ anything).
  - apply (outcomes_bind anything); [apply outcomes_any|]. intros _ _.
    apply (outcomes_bind (store_kept db)); [apply check_locations_kept|].
    intros db1 Hk. apply (outcomes_try_except _ anything).
    + apply (outcomes_bind anything); [apply outcomes_any|]. intros _ _.
      apply outcomes_ret. exact Hk.
    + intros e _. apply outcomes_ret. exact Hk.
  - intros e _. apply outcomes_ret. apply store_kept_refl.
Qed.

Lemma scan_categories_kept E cfg cats : forall db0 db,
  store_kept db0 db ->
  outcomes (store_kept db0) anything (scan_categories E cfg db cats).
Proof.
  induction cats as [|category rest IH]; intros db0 db Hk; simpl.
  - apply outcomes_ret. exact Hk.
  - apply (outcomes_bind (fun attempt => store_kept db (fst attempt))).
    + eapply outcomes_weaken; [apply try_category_kept| |];
        [intros a H; exact H|intros e []].
    + intros [db1 ok] Hk1. cbn [fst snd] in *.
      assert (Hk2 : store_kept db0 db1)
        by (eapply store_kept_trans; eassumption).
      destruct ok; [apply IH; exact Hk2|].
      apply (outcomes_bind anything); [apply outcomes_any|]. intros _ _.
      apply (outcomes_bind anything); [apply outcomes_any|]. intros _ _.
      apply IH. exact Hk2.
Qed.

Lemma check_category_kept E cfg db :
  outcomes (store_kept db) anything (check_category E cfg db).
Proof.
  unfold check_category.
  apply (outcomes_bind anything); [apply outcomes_any|]. intros _ _.
  apply scan_categories_kept. apply store_kept_refl.
Qed.

Lemma purge_unique_users cfg db now :
  unique_users db -> unique_users (fst (remove_old_subscriptions cfg db now)).
Proof.
  unfold remove_old_subscriptions, Database.remove_old_subscriptions.
  intros Hu.
  destruct (Datetime.sub_hours now (Config.max_subscription_age_hours cfg));
    [|exact Hu].
  unfold unique_users. simpl. apply NoDup_map_filter. exact Hu.
Qed.

(** X17.  A cycle that ends normally changes the subscriptions only by
    its purge, and leaves the store consistent: the user ids, the
    (category, location) pairs and the row ids are still distinct if they
    were, and no snapshot row has disappeared. *)
Theorem cycle_keeps_store_consistent E cfg db t db' t' :
  run_cycle E cfg db t = (Ok db', t') ->
  Database.subscriptions db'
  = Database.subscriptions
      (fst (remove_old_subscriptions cfg db (env_now E t)))
  /\ (unique_users db -> unique_users db')
  /\ (unique_keys (Database.last_check db) ->
      unique_keys (Database.last_check db'))
  /\ (unique_ids (Database.last_check db) ->
      unique_ids (Database.last_check db'))
  /\ (forall cat loc,
        (count_rows cat loc (Database.last_check db)
         <= count_rows cat loc (Database.last_check db'))%nat).
Proof.
  unfold run_cycle, bind, now. intros H.
  pose proof (check_category_kept E cfg
                (fst (remove_old_subscriptions cfg db (env_now E t))) t) as Hk.
  rewrite H in Hk. simpl in Hk. destruct Hk as (Hs & Hkeys & Hids & Hrows).
  assert (Hlc : Database.last_check
                  (fst (remove_old_subscriptions cfg db (env_now E t)))
                = Database.last_check db).
  { unfold remove_old_subscriptions, Database.remove_old_subscriptions.
    destruct (Datetime.sub_hours (env_now E t)
                (Config.max_subscription_age_hours cfg)); reflexivity. }
  rewrite Hlc in *. split; [exact Hs|]. split; [|repeat split; assumption].
  intros Hu. unfold unique_users. rewrite Hs.
  apply (purge_unique_users cfg db (env_now E t) Hu).
Qed.

Lemma cycle_keeps_store_consistent_witness :
  Database.subscriptions store_after_cycle
  = Database.subscriptions
      (fst (remove_old_subscriptions Config.default two_subscribers
              (env_now purge_env [])))
  /\ (unique_users two_subscribers -> unique_users store_after_cycle)
  /\ (unique_keys (Database.last_check two_subscribers) ->
      unique_keys (Database.last_check store_after_cycle))
  /\ (unique_ids (Database.last_check two_subscribers) ->
      unique_ids (Database.last_check store_after_cycle))
  /\ (forall cat loc,
        (count_rows cat loc (Database.last_check two_subscribers)
         <= count_rows cat loc (Database.last_check store_after_cycle))%nat).
Proof.
  apply (cycle_keeps_store_consistent purge_env Config.default two_subscribers
           [] store_after_cycle (snd example_cycle)).
  vm_compute. reflexivity.
Defined.

(** ** More on the subscription table *)

Lemma filter_idempotent {A} (f : A -> bool) l :
  filter f (filter f l) = filter f l.
Proof.
  induction l as [|x l IH]; [reflexivity|]. simpl.
  destruct (f x) eqn:Hx; simpl; [rewrite Hx, IH; reflexivity|exact IH].
Qed.

(** X18.  The purge reports how many rows it removed, never adds or
    reorders a row, and is idempotent: a second purge at the same time
    with the same age limit removes nothing and reports 0. *)
Theorem purge_twice db now max_age_hours db1 removed :
  Database.remove_old_subscriptions db now max_age_hours = Some (db1, removed) ->
  Database.remove_old_subscriptions db1 now max_age_hours = Some (db1, 0%Z)
  /\ (0 <= removed)%Z
  /\ Db.get_subscriptions_count db1
     = (Db.get_subscriptions_count db - removed)%Z
  /\ (forall s, In s (Database.subscriptions db1) ->
                In s (Database.subscriptions db))
  /\ (removed = 0%Z -> db1 = db).
Proof.
  unfold Database.remove_old_subscriptions, Db.get_subscriptions_count.
  destruct (Datetime.sub_hours now max_age_hours) as [cutoff|];
    [|discriminate].
  intros H. injection H as <- <-. cbn [Database.subscriptions Database.last_check].
  set (keep := fun s => negb (String.ltb (Database.created_at s)
                                         (Datetime.isoformat cutoff))).
  pose proof (filter_length_le keep (Database.subscriptions db)) as Hle.
  split; [|split; [lia|split; [lia|split]]].
  - rewrite filter_idempotent. f_equal. f_equal. lia.
  - intros s Hin. apply filter_In in Hin. apply Hin.
  - intros Hz. destruct db as [subs rows]. cbn [Database.subscriptions
      Database.last_check] in *. f_equal.
    assert (Hlen : length (filter keep subs) = length subs) by lia.
    clear Hz Hle. induction subs as [|x subs IH]; [reflexivity|].
    simpl in *. pose proof (filter_length_le keep subs).
    destruct (keep x); simpl in *; [f_equal; apply IH; lia|lia].
Qed.

Lemma purge_twice_witness :
  Database.remove_old_subscriptions (fst purged) purge_time 72
  = Some (fst purged, 0%Z)
  /\ (0 <= snd purged)%Z
  /\ Db.get_subscriptions_count (fst purged)
     = (Db.get_subscriptions_count two_subscribers - snd purged)%Z
  /\ (forall s, In s (Database.subscriptions (fst purged)) ->
                In s (Database.subscriptions two_subscribers))
  /\ (snd purged = 0%Z -> fst purged = two_subscribers).
Proof.
  apply (purge_twice two_subscribers purge_time 72 (fst purged) (snd purged)).
  vm_compute. reflexivity.
Defined.

Lemma length_without_user u subs :
  NoDup (map Database.user_id subs) ->
  length (filter (fun s => negb (Db.has_user u s)) subs)
  = (length subs - match find (Db.has_user u) subs with Some _ => 1 | None => 0 end)%nat.
Proof.
  induction subs as [|s subs IH]; [reflexivity|]. simpl. intros Hnd.
  inversion Hnd as [|? ? Hn Hnd']; subst.
  destruct (Db.has_user u s) eqn:Hs; simpl.
  - assert (Hu : Database.user_id s = u) by (apply String.eqb_eq; exact Hs).
    rewrite IH by exact Hnd'. rewrite Hu in Hn.
    rewrite (find_has_user_none u subs Hn). lia.
  - rewrite IH by exact Hnd'.
    destruct (find (Db.has_user u) subs) eqn:Hf; [|lia].
    apply find_some in Hf. destruct Hf as (Hin & _).
    destruct subs; [contradiction|simpl; lia].
Qed.

(** X19.  With distinct user ids, saving adds one row for a new user and
    none for a user who has a row, and deleting removes one row when the
    user has one and none otherwise. *)
Theorem subscriptions_count_changes db u :
  unique_users db ->
  (forall n1 n2 p cats locs d db' row,
      Db.save_subscription db n1 n2 u p cats locs d = Ok (db', row) ->
      Db.get_subscriptions_count db'
      = (Db.get_subscriptions_count db
         + match Db.get_subscription db u with Some _ => 0 | None => 1 end)%Z)
  /\ Db.get_subscriptions_count (fst (Db.delete_subscription db u))
     = (Db.get_subscriptions_count db
        - match Db.get_subscription db u with Some _ => 1 | None => 0 end)%Z.
Proof.
  unfold unique_users, Db.get_subscriptions_count, Db.get_subscription.
  intros Hu. pose proof (length_without_user u _ Hu) as Hlen.
  assert (Hpos : find (Db.has_user u) (Database.subscriptions db) <> None ->
                 (1 <= length (Database.subscriptions db))%nat).
  { destruct (Database.subscriptions db); [simpl; congruence|simpl; lia]. }
  split.
  - intros n1 n2 p cats locs d db' row Hsave.
    destruct (save_subscription_ok _ _ _ _ _ _ _ _ _ _ Hsave)
      as (push & _ & _ & _ & ->).
    cbn [Database.subscriptions]. rewrite length_app, Hlen. simpl.
    destruct (find (Db.has_user u) (Database.subscriptions db));
      [specialize (Hpos ltac:(discriminate))|]; lia.
  - simpl. rewrite Hlen.
    destruct (find (Db.has_user u) (Database.subscriptions db));
      [specialize (Hpos ltac:(discriminate))|]; lia.
Qed.

Lemma subscriptions_count_changes_witness :
  (forall n1 n2 p cats locs d db' row,
      Db.save_subscription two_subscribers n1 n2 "old" p cats locs d
      = Ok (db', row) ->
      Db.get_subscriptions_count db'
      = (Db.get_subscriptions_count two_subscribers
         + match Db.get_subscription two_subscribers "old" with
           | Some _ => 0
           | None => 1
           end)%Z)
  /\ Db.get_subscriptions_count
       (fst (Db.delete_subscription two_subscribers "old"))
     = (Db.get_subscriptions_count two_subscribers
        - match Db.get_subscription two_subscribers "old" with
          | Some _ => 1
          | None => 0
          end)%Z.
Proof.
  apply (subscriptions_count_changes two_subscribers "old").
  exact two_subscribers_unique.
Defined.

(** ** How a scan of the locations can fail *)

Lemma go_back_failure E expected_text t e t' :
  go_back E expected_text t = (Raise e, t') -> way_back_failed e t'.
Proof.
  unfold go_back, try_except, bind, page_go_back, wait_for, call, raise.
  destruct (env_go_back E t) as [[]|e0].
  - match goal with
    | |- context [env_wait_for E ?t1 ?l WaitVisible 15000] =>
        destruct (env_wait_for E t1 l WaitVisible 15000) as [[]|e1]
    end; [discriminate|].
    destruct e1; intros H; injection H as <- <-; reflexivity.
  - destruct e0; intros H; injection H as <- <-; reflexivity.
Qed.

Lemma send_to_all_never_raises E cfg interested title body : forall sent_count,
  outcomes anything nothing (send_to_all E cfg interested title body sent_count).
Proof.
  induction interested as [|sub rest IH]; intros sent_count; simpl.
  - apply outcomes_ret. exact I.
  - apply (outcomes_bind anything); [|intros ok _; apply IH].
    apply (outcomes_try_except _ anything).
    + eapply outcomes_weaken; [apply outcomes_any| |]; intros; exact I.
    + intros e _. apply outcomes_ret. exact I.
Qed.

Lemma send_notification_never_raises E cfg db category location_name
    total_slots :
  outcomes anything nothing
           (send_notification E cfg db category location_name total_slots).
Proof.
  unfold send_notification.
  destruct total_slots; [apply outcomes_ret; exact I|].
  destruct (load_subscriptions db); [apply outcomes_ret; exact I|].
  destruct (Py.dict_get (Config.category_map cfg) category) as [mapped|];
    [|apply outcomes_ret; exact I].
  destruct (String.eqb mapped ""); [apply outcomes_ret; exact I|].
  destruct (select_interested _ _ _); [apply outcomes_ret; exact I|].
  apply send_to_all_never_raises.
Qed.

Lemma process_location_failure E cfg db category location slots_data t e t' :
  process_location E cfg db category location slots_data t = (Raise e, t') ->
  way_back_failed e t'.
Proof.
  unfold process_location, try_finally.
  pose proof (slots_or_empty_outcomes E cfg location t) as Hs.
  unfold bind at 1.
  destruct (slots_or_empty E cfg location t) as [[total_slots|e0] t1];
    simpl in Hs; [|contradiction].
  unfold bind at 1.
  pose proof (send_notification_never_raises E cfg db category location
                total_slots t1) as Hn.
  destruct (send_notification E cfg db category location total_slots t1)
    as [[n|e0] t2]; simpl in Hn; [|contradiction].
  unfold ret.
  destruct (go_back E (Config.location_page_text cfg) t2)
    as [[[]|e1] t3] eqn:Hb;
    [discriminate|].
  intros H. injection H as <- <-. exact (go_back_failure _ _ _ _ _ Hb).
Qed.

Lemma scan_locations_failure E cfg db category locs :
  forall visited slots_data t e t',
  scan_locations E cfg db category locs visited slots_data t = (Raise e, t') ->
  count_failed e t' \/ way_back_failed e t'.
Proof.
  induction locs as [|location rest IH]; intros visited slots_data t e t';
    simpl; [discriminate|].
  destruct (Py.list_in location visited); [apply IH|].
  unfold bind at 1, count at 1, call.
  destruct (env_count E t (location_panel location)) as [present|e0].
  - destruct (present =? 0)%Z; [apply IH|]. unfold bind at 1.
    destruct (process_location E cfg db category location slots_data _)
      as [[slots_data'|e1] t1] eqn:Hp; [apply IH|].
    intros H. injection H as <- <-. right.
    exact (process_location_failure _ _ _ _ _ _ _ _ _ Hp).
  - intros H. injection H as <- <-. left. reflexivity.
Qed.

(** X20.  A scan of the locations of a category can fail in two ways
    only: the count of a location's panel raises, or the way back from a
    location fails, in which case a timeout has become
    [RestartRequiredException].  No failure of entering a location, of
    reading its calendar or of sending the notifications ends the scan. *)
Theorem check_locations_failures E cfg db category t e t' :
  check_locations E cfg db category t = (Raise e, t') ->
  count_failed e t' \/ way_back_failed e t'.
Proof.
  unfold check_locations. unfold bind at 1.
  destruct (scan_locations E cfg db category (Config.locations cfg) [] [] t)
    as [[slots_data|e0] t1] eqn:Hs.
  - unfold bind, now, ret. discriminate.
  - intros H. injection H as <- <-. exact (scan_locations_failure _ _ _ _ _ _ _ _ _ _ Hs).
Qed.

Lemma check_locations_failures_witness :
  count_failed RestartRequiredException (snd failed_scan)
  \/ way_back_failed RestartRequiredException (snd failed_scan).
Proof.
  apply (check_locations_failures no_way_back_env Config.default one_subscriber
           "Fees" [] RestartRequiredException (snd failed_scan)).
  vm_compute. reflexivity.
Defined.

(** ** The loading indicator and the screenshots *)

(** X21.  [wait_for_spinner] only waits, at most twice.  A loader that
    does not show up within the first timeout is no error, and then there
    is no second wait; a loader that shows up and does not go away is one:
    what the second wait raises, a timeout included, is raised. *)
Theorem wait_for_spinner_outcomes E appear_timeout disappear_timeout t :
  (exists new,
      snd (wait_for_spinner E appear_timeout disappear_timeout t) = new ++ t
      /\ (length new <= 2)%nat
      /\ forallb is_spinner_wait new = true)
  /\ (env_wait_for E t spinner WaitVisible appear_timeout
      = Raise PlaywrightTimeoutError ->
      wait_for_spinner E appear_timeout disappear_timeout t
      = (Ok tt,
         EvWaitFor spinner WaitVisible appear_timeout
                   (Raise PlaywrightTimeoutError) :: t))
  /\ (forall e,
         env_wait_for E t spinner WaitVisible appear_timeout = Ok tt ->
         env_wait_for E
           (EvWaitFor spinner WaitVisible appear_timeout (Ok tt) :: t)
           spinner WaitHidden disappear_timeout = Raise e ->
         fst (wait_for_spinner E appear_timeout disappear_timeout t)
         = Raise e).
Proof.
  unfold wait_for_spinner, bind, try_except, wait_for, call, ret, raise.
  split; [|split].
  - destruct (env_wait_for E t spinner WaitVisible appear_timeout)
      as [[]|e].
    + eexists [_; _]. split; [reflexivity|]. split; [simpl; lia|reflexivity].
    + destruct e; eexists [_]; (split; [reflexivity|]);
        (split; [simpl; lia|reflexivity]).
  - intros ->. reflexivity.
  - intros e -> ->. reflexivity.
Qed.

(** X22.  [take_screenshot] returns normally whatever the page does.
    With the switch off it does not touch the page at all; with the
    switch on it asks for at most one screenshot, and for none when the
    page is closed or cannot tell. *)
Theorem take_screenshot_contained E cfg t :
  exists new,
    take_screenshot E cfg t = (Ok tt, new ++ EvTakeScreenshot :: t)
    /\ (Config.screenshot_switch cfg = false -> new = [])
    /\ (count_events is_page_screenshot new <= 1)%nat
    /\ (env_is_closed E (EvTakeScreenshot :: t) <> Ok false ->
        count_events is_page_screenshot new = 0%nat).
Proof.
  unfold take_screenshot.
  destruct (Config.screenshot_switch cfg); simpl.
  - unfold try_except, bind, is_closed, page_screenshot, call, ret.
    destruct (env_is_closed E (EvTakeScreenshot :: t)) as [[|]|e].
    + eexists [_]. split; [reflexivity|]. split; [discriminate|].
      split; [|intros _]; vm_compute; lia.
    + destruct (env_page_screenshot E _) as [[]|e];
        (eexists [_; _]; split; [reflexivity|]; split; [discriminate|];
         split; [vm_compute; lia|intros H; exfalso; apply H; reflexivity]).
    + eexists [_]. split; [reflexivity|]. split; [discriminate|].
      split; [|intros _]; vm_compute; lia.
  - exists []. split; [reflexivity|]. split; [reflexivity|].
    split; [|intros _]; vm_compute; lia.
Qed.

(** ** The order of the availability listing *)

Lemma compare_lt_trans a b c :
  String.compare a b = Lt -> String.compare b c = Lt -> String.compare a c = Lt.
Proof.
  intros H1 H2. apply OrderedTypeEx.String_as_OT.cmp_lt.
  apply OrderedTypeEx.String_as_OT.cmp_lt in H1, H2.
  exact (OrderedTypeEx.String_as_OT.lt_trans _ _ _ H1 H2).
Qed.

Lemma leb_trans a b c :
  String.leb a b = true -> String.leb b c = true -> String.leb a c = true.
Proof.
  unfold String.leb.
  destruct (String.compare a b) eqn:H1; try discriminate;
    destruct (String.compare b c) eqn:H2; try discriminate; intros _ _.
  - apply String.compare_eq_iff in H1, H2. subst.
    rewrite compare_refl. reflexivity.
  - apply String.compare_eq_iff in H1. subst. rewrite H2. reflexivity.
  - apply String.compare_eq_iff in H2. subst. rewrite H1. reflexivity.
  - rewrite (compare_lt_trans _ _ _ H1 H2). reflexivity.
Qed.

Lemma row_leb_total a b : Db.row_leb a b = true \/ Db.row_leb b a = true.
Proof.
  unfold Db.row_leb.
  rewrite (String.compare_antisym (Database.location_name a)
                                  (Database.location_name b)).
  destruct (String.compare (Database.location_name b)
                           (Database.location_name a)); simpl.
  - apply String.leb_total.
  - right. reflexivity.
  - left. reflexivity.
Qed.

Lemma row_leb_trans a b c :
  Db.row_leb a b = true -> Db.row_leb b c = true -> Db.row_leb a c = true.
Proof.
  unfold Db.row_leb.
  destruct (String.compare (Database.location_name a)
                           (Database.location_name b)) eqn:H1;
    try discriminate;
    destruct (String.compare (Database.location_name b)
                             (Database.location_name c)) eqn:H2;
    try discriminate.
  - apply String.compare_eq_iff in H1, H2. rewrite H1, H2, compare_refl.
    apply leb_trans.
  - apply String.compare_eq_iff in H1. rewrite H1, H2. reflexivity.
  - apply String.compare_eq_iff in H2. rewrite <- H2, H1. reflexivity.
  - rewrite (compare_lt_trans _ _ _ H1 H2). reflexivity.
Qed.

Lemma insert_row_permutation r rows :
  Permutation (Db.insert_row r rows) (r :: rows).
Proof.
  induction rows as [|x rows IH]; simpl; [reflexivity|].
  destruct (Db.row_leb r x); [reflexivity|].
  rewrite IH. apply perm_swap.
Qed.

Lemma insert_row_sorted r rows :
  StronglySorted (fun a b => Db.row_leb a b = true) rows ->
  StronglySorted (fun a b => Db.row_leb a b = true) (Db.insert_row r rows).
Proof.
  induction 1 as [|x rows Hs IH Hx]; simpl.
  - constructor; constructor.
  - destruct (Db.row_leb r x) eqn:Hrx.
    + constructor; [constructor; assumption|].
      constructor; [exact Hrx|].
      rewrite Forall_forall in *. intros y Hy.
      exact (row_leb_trans _ _ _ Hrx (Hx y Hy)).
    + constructor; [exact IH|].
      apply (Permutation_Forall (x := r :: rows));
        [symmetry; apply insert_row_permutation|].
      constructor; [|exact Hx].
      destruct (row_leb_total r x) as [H|H]; [congruence|exact H].
Qed.

Lemma get_all_last_checks_order db :
  Permutation (Db.get_all_last_checks db) (Database.last_check db)
  /\ StronglySorted (fun a b => Db.row_leb a b = true)
                    (Db.get_all_last_checks db).
Proof.
  unfold Db.get_all_last_checks.
  induction (Database.last_check db) as [|r rows (IHp & IHs)]; simpl.
  - split; constructor.
  - split; [|apply insert_row_sorted; exact IHs].
    rewrite insert_row_permutation. constructor. exact IHp.
Qed.

Lemma count_rows_permutation cat loc a b :
  Permutation a b -> count_rows cat loc a = count_rows cat loc b.
Proof.
  unfold count_rows. induction 1; simpl.
  - reflexivity.
  - destruct (Database.same_key cat loc x); simpl; congruence.
  - destruct (Database.same_key cat loc x), (Database.same_key cat loc y);
      reflexivity.
  - congruence.
Qed.

Lemma unique_keys_pairs rows :
  unique_keys rows ->
  NoDup (map (fun r => (Database.location_name r, Database.category r)) rows).
Proof.
  induction rows as [|x rows IH]; intros Hu; simpl; [constructor|].
  constructor.
  - intros Hin. apply in_map_iff in Hin. destruct Hin as (y & Hy & Hin).
    injection Hy as Hl Hc.
    specialize (Hu (Database.category x) (Database.location_name x)).
    unfold count_rows in Hu. simpl in Hu.
    unfold Database.same_key at 1 in Hu. rewrite !String.eqb_refl in Hu.
    simpl in Hu.
    assert (Hy : In y (filter (Database.same_key (Database.category x)
                                 (Database.location_name x)) rows)).
    { apply filter_In. split; [exact Hin|]. unfold Database.same_key.
      rewrite Hl, Hc, !String.eqb_refl. reflexivity. }
    destruct (filter _ rows); [contradiction|simpl in Hu; lia].
  - apply IH. intros cat loc. specialize (Hu cat loc).
    unfold count_rows in *. simpl in Hu.
    destruct (Database.same_key cat loc x); simpl in Hu; lia.
Qed.

Lemma StronglySorted_map {A B} (f : A -> B) (R : B -> B -> Prop) l :
  StronglySorted (fun a b => R (f a) (f b)) l -> StronglySorted R (map f l).
Proof.
  induction 1 as [|x l Hs IH Hx]; simpl; constructor; [exact IH|].
  rewrite Forall_forall in *. intros y Hy. apply in_map_iff in Hy.
  destruct Hy as (a & <- & Ha). exact (Hx a Ha).
Qed.

(** X23.  [GET /availability] lists every row of the snapshot table once,
    with its category, location, count and time, ordered by location and
    then by category; when the pairs of category and location are
    distinct in the table, so they are in the listing. *)
Theorem availability_listing db :
  Permutation (Endpoints.get_availability db)
              (map item_of_row (Database.last_check db))
  /\ StronglySorted (fun a b => item_leb a b = true)
                    (Endpoints.get_availability db)
  /\ (unique_keys (Database.last_check db) ->
      NoDup (map (fun item => (Endpoints.item_location_name item,
                               Endpoints.item_category item))
                 (Endpoints.get_availability db))).
Proof.
  destruct (get_all_last_checks_order db) as (Hp & Hs).
  unfold Endpoints.get_availability. fold item_of_row.
  split; [apply Permutation_map; exact Hp|]. split.
  - apply StronglySorted_map. exact Hs.
  - intros Hu. rewrite map_map. simpl.
    apply (unique_keys_pairs (Db.get_all_last_checks db)).
    intros cat loc. rewrite (count_rows_permutation cat loc _ _ Hp).
    apply Hu.
Qed.

(** ** The test notification *)

Lemma send_push_notification_result E keys info title body url t :
  Api.send_push_notification E keys (Some info) title body url t
  = (Ok false, t)
  \/ exists aud r,
       Api.send_push_notification E keys (Some info) title body url t
       = (Ok (is_ok r),
          EvWebpush (api_call keys (Database.push_subscription info) title
                              body url aud) r :: t).
Proof.
  unfold Api.send_push_notification, try_except.
  destruct (json_endpoint E (Database.push_subscription info))
    as [endpoint|e]; [|left; reflexivity].
  destruct (Api.audience E endpoint) as [aud|e]; [|left; reflexivity].
  right. exists aud.
  exists (env_webpush E t (api_call keys (Database.push_subscription info)
                                    title body url aud)).
  unfold bind, webpush, call, ret, api_call.
  destruct (env_webpush E t _) as [[]|e]; reflexivity.
Qed.

(** X24.  The test endpoint always answers.  It answers 404 exactly when
    the user has no subscription, and then sends nothing; otherwise it
    hands at most one message to the gateway, addressed to the stored
    push subscription of that user, and answers 200 exactly when the
    gateway accepted it. *)
Theorem test_notification_outcomes E keys db user_id t :
  exists answer new,
    Endpoints.test_notification E keys db user_id t = (Ok answer, new ++ t)
    /\ (length new <= 1)%nat
    /\ (status_of answer = 404%Z <-> Db.get_subscription db user_id = None)
    /\ (Db.get_subscription db user_id = None -> new = [])
    /\ (status_of answer = 200%Z
        <-> count_events is_accepted_push new = 1%nat)
    /\ (forall subscription,
           Db.get_subscription db user_id = Some subscription ->
           forall ev, In ev new ->
             exists aud r,
               ev = EvWebpush
                      (api_call keys (Database.push_subscription subscription)
                                Endpoints.test_title Endpoints.test_body
                                Endpoints.test_url aud) r).
Proof.
  unfold Endpoints.test_notification.
  destruct (Db.get_subscription db user_id) as [subscription|].
  - unfold try_except, bind.
    destruct (send_push_notification_result E keys subscription
                Endpoints.test_title Endpoints.test_body Endpoints.test_url t)
      as [->|(aud & r & ->)].
    + exists (Endpoints.HTTPException 500 "Failed to send notification"), [].
      split; [reflexivity|]. split; [simpl; lia|].
      split; [split; discriminate|]. split; [discriminate|].
      split; [split; discriminate|]. intros s _ ev [].
    + destruct r as [[]|e]; simpl.
      * eexists. eexists [_]. split; [reflexivity|]. split; [simpl; lia|].
        split; [split; discriminate|]. split; [discriminate|].
        split; [split; reflexivity|].
        intros s Hs ev [<-|[]]. injection Hs as <-. eexists. eexists.
        reflexivity.
      * eexists. eexists [_]. split; [reflexivity|]. split; [simpl; lia|].
        split; [split; discriminate|]. split; [discriminate|].
        split; [split; discriminate|].
        intros s Hs ev [<-|[]]. injection Hs as <-. eexists. eexists.
        reflexivity.
  - exists (Endpoints.HTTPException 404 "Subscription not found"), [].
    split; [reflexivity|]. split; [simpl; lia|].
    split; [split; reflexivity|]. split; [reflexivity|].
    split; [split; discriminate|]. discriminate.
Qed.

(** ** The browser across the cycles *)

Lemma count_log_cons p ev log :
  count_log p (ev :: log) = ((if p ev then 1 else 0) + count_log p log)%nat.
Proof. unfold count_log. simpl. destruct (p ev); reflexivity. Qed.

Lemma count_log_app p a b :
  count_log p (a ++ b) = (count_log p a + count_log p b)%nat.
Proof. unfold count_log. rewrite filter_app, length_app. reflexivity. Qed.

Lemma supervised_app a b new1 new2 :
  supervised a new1 -> supervised b new2 -> supervised (a + b) (new2 ++ new1).
Proof.
  unfold supervised. rewrite !count_log_app.
  intros (A1 & A2 & A3 & A4) (B1 & B2 & B3 & B4). repeat split; lia.
Qed.

Lemma supervised_more a b new : supervised a new -> (a <= b)%nat -> supervised b new.
Proof. unfold supervised. intros (A1 & A2) Hle. split; [lia|exact A2]. Qed.

Lemma cycle_log E cfg B s :
  exists new,
    browser_log (fst (cycle E cfg B s)) = new ++ browser_log s
    /\ supervised 1 new
    /\ count_log is_launch new = 0%nat.
Proof.
  unfold cycle, close_context.
  destruct (br_new_context B (browser_log s)) as [[]|e1].
  - destruct (br_new_page B _) as [[]|e2].
    + destruct (fst (run_cycle E cfg (store s) (page_trace s))) as [db|e3].
      * eexists [_; _; _; _]. split; [reflexivity|].
        split; [|reflexivity]. repeat split; vm_compute; lia.
      * eexists [_; _; _; _; _]. split; [reflexivity|].
        split; [|reflexivity]. repeat split; vm_compute; lia.
    + eexists [_; _; _; _; _]. split; [reflexivity|].
      split; [|reflexivity]. repeat split; vm_compute; lia.
  - eexists [_; _]. split; [reflexivity|].
    split; [|reflexivity]. repeat split; vm_compute; lia.
Qed.

Lemma cycles_log E cfg B n : forall s,
  exists new,
    browser_log (cycles E cfg B n s) = new ++ browser_log s
    /\ supervised n new
    /\ count_log is_launch new = 0%nat.
Proof.
  induction n as [|n IH]; intros s; simpl.
  - exists []. split; [reflexivity|]. split; [|reflexivity].
    repeat split; vm_compute; lia.
  - destruct (cycle_log E cfg B s) as (new1 & H1 & S1 & L1).
    destruct (cycle E cfg B s) as [s1 again]. simpl in H1.
    destruct again.
    + destruct (IH s1) as (new2 & H2 & S2 & L2).
      exists (new2 ++ new1). rewrite H2, H1, app_assoc.
      split; [reflexivity|]. split.
      * apply (supervised_more (1 + n)); [|lia].
        apply supervised_app; assumption.
      * rewrite count_log_app. lia.
    + exists new1. split; [exact H1|]. split; [|exact L1].
      apply (supervised_more 1); [exact S1|lia].
Qed.

Lemma browser_session_log E cfg B s :
  exists new,
    browser_log (browser_session E cfg B s) = new ++ browser_log s
    /\ supervised (Z.to_nat (Config.max_cycles_before_restart cfg)) new
    /\ count_log is_launch new = 1%nat.
Proof.
  unfold browser_session.
  destruct (br_launch B (browser_log s)) as [[]|e].
  - destruct (cycles_log E cfg B
                (Z.to_nat (Config.max_cycles_before_restart cfg))
                (mkState (store s) (page_trace s)
                         (EvLaunch (Ok tt) :: browser_log s)))
      as (new & Hn & (S1 & S2 & S3 & S4) & L).
    cbn [browser_log] in *. rewrite Hn.
    exists (EvSleep 5 :: EvBrowserClose (br_close B (new ++ EvLaunch (Ok tt)
                                                       :: browser_log s))
              :: new ++ [EvLaunch (Ok tt)]).
    split; [simpl; rewrite <- app_assoc; reflexivity|].
    unfold supervised. rewrite !count_log_cons, !count_log_app. simpl.
    change (count_log is_new_context [EvLaunch (Ok tt)]) with 0%nat.
    change (count_log is_context_opened [EvLaunch (Ok tt)]) with 0%nat.
    change (count_log is_context_close [EvLaunch (Ok tt)]) with 0%nat.
    change (count_log is_browser_close [EvLaunch (Ok tt)]) with 0%nat.
    change (count_log is_launched [EvLaunch (Ok tt)]) with 1%nat.
    change (count_log is_launch [EvLaunch (Ok tt)]) with 1%nat.
    assert (count_log is_launched new = 0%nat).
    { clear - L. unfold count_log in *. induction new as [|ev new IH];
        [reflexivity|]. simpl in *. destruct ev as [[[]|]| | | | |];
        simpl in *; try discriminate; apply IH; exact L. }
    repeat split; lia.
  - eexists [_; _]. split; [reflexivity|]. split; [|reflexivity].
    repeat split; vm_compute; lia.
Qed.

(** X25.  Over any number of passes of the outer loop of [run], the
    browser is launched once per pass and closed exactly as often as it
    was launched successfully; at most [max_cycles_before_restart]
    contexts are asked for per pass; and the contexts that were opened
    are closed: there are at least as many closes as contexts opened and
    at most twice as many (a cycle that fails closes its context in its
    handler and again in its [finally]). *)
Theorem run_is_supervised E cfg B n s :
  exists new,
    browser_log (run E cfg B n s) = new ++ browser_log s
    /\ count_log is_launch new = n
    /\ (count_log is_new_context new
        <= n * Z.to_nat (Config.max_cycles_before_restart cfg))%nat
    /\ (count_log is_context_opened new <= count_log is_context_close new)%nat
    /\ (count_log is_context_close new
        <= 2 * count_log is_context_opened new)%nat
    /\ count_log is_browser_close new = count_log is_launched new.
Proof.
  revert s. induction n as [|n IH]; intros s; simpl.
  - exists []. repeat split; vm_compute; lia.
  - destruct (browser_session_log E cfg B s)
      as (new1 & H1 & (A1 & A2 & A3 & A4) & L1).
    destruct (IH (browser_session E cfg B s))
      as (new2 & H2 & L2 & B1 & B2 & B3 & B4).
    exists (new2 ++ new1). rewrite H2, H1, app_assoc.
    split; [reflexivity|]. rewrite !count_log_app. repeat split; lia.
Qed.

(** ** The store across the cycles *)

Lemma store_evolves_refl db : store_evolves db db.
Proof. repeat split; auto. Qed.

Lemma store_evolves_trans a b c :
  store_evolves a b -> store_evolves b c -> store_evolves a c.
Proof.
  intros (S1 & U1 & K1 & I1 & C1) (S2 & U2 & K2 & I2 & C2).
  repeat split; auto.
  intros cat loc. specialize (C1 cat loc). specialize (C2 cat loc). lia.
Qed.

Lemma store_kept_evolves a b : store_kept a b -> store_evolves a b.
Proof.
  intros (S1 & K1 & I1 & C1). repeat split; auto.
  - intros s. rewrite S1. auto.
  - unfold unique_users. rewrite S1. auto.
Qed.

Lemma purge_evolves cfg db now :
  store_evolves db (fst (remove_old_subscriptions cfg db now)).
Proof.
  split; [|split; [apply purge_unique_users|]].
  - unfold remove_old_subscriptions, Database.remove_old_subscriptions.
    destruct (Datetime.sub_hours now (Config.max_subscription_age_hours cfg));
      [|auto].
    simpl. intros s Hin. apply filter_In in Hin. apply Hin.
  - unfold remove_old_subscriptions, Database.remove_old_subscriptions.
    destruct (Datetime.sub_hours now (Config.max_subscription_age_hours cfg));
      simpl; repeat split; auto.
Qed.

Lemma written_by_scan_kept E cfg cats : forall db0 db t,
  store_kept db0 db -> store_kept db0 (written_by_scan E cfg db cats t).
Proof.
  induction cats as [|category rest IH]; intros db0 db t Hk; simpl;
    [exact Hk|].
  pose proof (try_category_kept E cfg db category t) as Ht.
  destruct (try_category E cfg db category t) as [[[db1 ok]|e] t1];
    simpl in Ht; [|exact Hk].
  assert (Hk1 : store_kept db0 db1) by (eapply store_kept_trans; eassumption).
  destruct ok; [apply IH; exact Hk1|].
  destruct ((take_screenshot E cfg ;;; enter_category_selection E cfg) t1)
    as [[u|e] t2]; [apply IH; exact Hk1|exact Hk1].
Qed.

Lemma written_by_scan_agrees E cfg cats : forall db t db' t',
  scan_categories E cfg db cats t = (Ok db', t') ->
  written_by_scan E cfg db cats t = db'.
Proof.
  induction cats as [|category rest IH]; intros db t db' t'; simpl.
  - unfold ret. intros H. injection H as <- _. reflexivity.
  - unfold bind at 1.
    destruct (try_category E cfg db category t) as [[[db1 ok]|e] t1];
      [|discriminate].
    cbn [fst snd]. destruct ok; [apply IH|].
    unfold bind at 1.
    destruct (take_screenshot E cfg t1) as [[u|e] t2] eqn:Hs;
      [|discriminate].
    unfold bind at 1.
    destruct (enter_category_selection E cfg t2) as [[u2|e] t3] eqn:He;
      [|discriminate].
    intros H.
    assert (Hboth : (take_screenshot E cfg ;;; enter_category_selection E cfg)
                      t1 = (Ok u2, t3)).
    { unfold bind. rewrite Hs. exact He. }
    rewrite Hboth. exact (IH _ _ _ _ H).
Qed.

Lemma written_by_cycle_agrees E cfg db t db' t' :
  run_cycle E cfg db t = (Ok db', t') -> written_by_cycle E cfg db t = db'.
Proof.
  unfold run_cycle, written_by_cycle, check_category, bind, now.
  destruct (enter_category_selection E cfg t) as [[u|e] t1]; [|discriminate].
  apply written_by_scan_agrees.
Qed.

Lemma written_by_cycle_evolves E cfg db t :
  store_evolves db (written_by_cycle E cfg db t).
Proof.
  unfold written_by_cycle.
  destruct (enter_category_selection E cfg t) as [[u|e] t1];
    [|apply purge_evolves].
  eapply store_evolves_trans; [apply purge_evolves|].
  apply store_kept_evolves, written_by_scan_kept, store_kept_refl.
Qed.

Lemma cycle_evolves E cfg B s :
  store_evolves (store s) (store (fst (cycle E cfg B s))).
Proof.
  unfold cycle.
  destruct (br_new_context B (browser_log s)) as [[]|e1];
    [|apply store_evolves_refl].
  destruct (br_new_page B _) as [[]|e2]; [|apply store_evolves_refl].
  destruct (run_cycle E cfg (store s) (page_trace s)) as [[db|e3] t'] eqn:Hr;
    cbn [fst snd store].
  - rewrite <- (written_by_cycle_agrees _ _ _ _ _ _ Hr).
    apply written_by_cycle_evolves.
  - apply written_by_cycle_evolves.
Qed.

Lemma cycles_evolve E cfg B n : forall s,
  store_evolves (store s) (store (cycles E cfg B n s)).
Proof.
  induction n as [|n IH]; intros s; simpl; [apply store_evolves_refl|].
  pose proof (cycle_evolves E cfg B s) as H1.
  destruct (cycle E cfg B s) as [s1 again]. simpl in H1.
  destruct again; [|exact H1].
  eapply store_evolves_trans; [exact H1|apply IH].
Qed.

Lemma browser_session_evolves E cfg B s :
  store_evolves (store s) (store (browser_session E cfg B s)).
Proof.
  unfold browser_session.
  destruct (br_launch B (browser_log s)) as [[]|e];
    [|apply store_evolves_refl].
  cbn [store].
  apply (cycles_evolve E cfg B _
           (mkState (store s) (page_trace s)
                    (EvLaunch (Ok tt) :: browser_log s))).
Qed.

(** X26.  However the cycles end, [run] only ever removes subscriptions
    and writes snapshots: no subscription appears that was not stored
    before, the user ids, the pairs of category and location and the row
    ids stay distinct if they were, and no snapshot row is lost, not even
    by a cycle that fails half way. *)
Theorem run_keeps_store_consistent E cfg B n s :
  (forall sub, In sub (Database.subscriptions (store (run E cfg B n s))) ->
               In sub (Database.subscriptions (store s)))
  /\ (unique_users (store s) -> unique_users (store (run E cfg B n s)))
  /\ (unique_keys (Database.last_check (store s)) ->
      unique_keys (Database.last_check (store (run E cfg B n s))))
  /\ (unique_ids (Database.last_check (store s)) ->
      unique_ids (Database.last_check (store (run E cfg B n s))))
  /\ (forall cat loc,
        (count_rows cat loc (Database.last_check (store s))
         <= count_rows cat loc
              (Database.last_check (store (run E cfg B n s))))%nat).
Proof.
  change (store_evolves (store s) (store (run E cfg B n s))).
  revert s. induction n as [|n IH]; intros s; simpl;
    [apply store_evolves_refl|].
  eapply store_evolves_trans; [apply browser_session_evolves|apply IH].
Qed.

(** A pass of the outer loop with a browser that works, on the site with
    the open slot: two cycles, each with its own context. *)
Example run_two_cycles :
  browser_log (run purge_env Config.default steady_browser 1 start_state)
  = [EvSleep 5; EvBrowserClose (Ok tt);
     EvSleep 2; EvContextClose (Ok tt); EvNewPage (Ok tt); EvNewContext (Ok tt);
     EvSleep 2; EvContextClose (Ok tt); EvNewPage (Ok tt); EvNewContext (Ok tt);
     EvLaunch (Ok tt)].
Proof. vm_compute. reflexivity. Qed.

(** On the dead page the first cycle fails: the pass ends after it, the
    context is closed twice, and the failure is a request for a restart. *)
Example run_failing_cycle :
  browser_log (run dead_page_env Config.default steady_browser 1 start_state)
  = [EvSleep 5; EvBrowserClose (Ok tt);
     EvSleep 2; EvContextClose (Ok tt); EvContextClose (Ok tt);
     EvNewPage (Ok tt); EvNewContext (Ok tt); EvLaunch (Ok tt)]
  /\ fst (run_cycle dead_page_env Config.default two_subscribers [])
     = Raise RestartRequiredException.
Proof. vm_compute. split; reflexivity. Qed.

(** ** What a successful click has seen *)

Lemma safe_click_try_evidence E cl el timeout t b t1 :
  safe_click_try E cl el timeout t = (Ok b, t1) ->
  b = true /\ click_evidence cl el t1.
Proof.
  unfold safe_click_try, bind, try_except, ret, raise, is_visible, wait_for,
    click, call.
  destruct el as [el|].
  - destruct (env_is_visible E t el 3000) as [[|]|e]; try discriminate.
    + intros H. injection H as <- <-. split; reflexivity.
    + destruct (env_wait_for E _ cl WaitVisible timeout) as [[]|e];
        try discriminate.
      destruct (env_click E _ cl 5000) as [[]|e]; try discriminate.
      destruct (env_wait_for E _ el WaitDefault 5000) as [[]|e];
        try discriminate.
      intros H. injection H as <- <-. split; [reflexivity|].
      split; reflexivity.
  - destruct (env_wait_for E _ cl WaitVisible timeout) as [[]|e];
      try discriminate.
    destruct (env_click E _ cl 5000) as [[]|e]; try discriminate.
    intros H. injection H as <- <-. split; reflexivity.
Qed.

(** X27.  When [safe_click] returns [True], the last thing that happened
    on the page is its reason: the expected element was visible without a
    click, or the click went through and the wait for the expected
    element succeeded; without an expected element, the click went
    through. *)
Theorem safe_click_success E cfg tg expected_text timeout max_attempts t t' :
  safe_click E cfg tg expected_text timeout max_attempts t = (Ok true, t') ->
  click_evidence (click_locator_of tg) (expected_locator_of expected_text) t'.
Proof.
  unfold safe_click. generalize (Py.range max_attempts). intros attempts.
  revert t. induction attempts as [|attempt rest IH]; intros t.
  - simpl. unfold ret. discriminate.
  - destruct (safe_click_try E (click_locator_of tg)
                (expected_locator_of expected_text) timeout t)
      as [[b|e] t1] eqn:Htry.
    + rewrite (safe_click_attempts_succeeded _ _ _ _ _ _ _ _ _ _ _ Htry).
      intros H. injection H as -> <-.
      exact (proj2 (safe_click_try_evidence _ _ _ _ _ _ _ Htry)).
    + assert (Ha : exists b t2,
                 attempt_fails E (click_locator_of tg)
                   (expected_locator_of expected_text) timeout t
                 = Some (b, t2)).
      { unfold attempt_fails. rewrite Htry. eauto. }
      destruct Ha as (b & t2 & Ha).
      rewrite (safe_click_attempts_failed _ _ _ _ _ _ _ _ _ _ _ Ha).
      destruct b; [discriminate|].
      destruct (attempt =? max_attempts - 1)%Z; [discriminate|]. apply IH.
Qed.

Lemma safe_click_success_witness :
  click_evidence (click_locator_of (TargetStr "#cmdMakeAppt"))
                 (expected_locator_of (Some "Select a Location"))
                 (snd (safe_click open_slot_env Config.default
                                  (TargetStr "#cmdMakeAppt")
                                  (Some "Select a Location") 15000 3 [])).
Proof.
  apply (safe_click_success open_slot_env Config.default
           (TargetStr "#cmdMakeAppt") (Some "Select a Location") 15000 3 []).
  vm_compute. reflexivity.
Defined.

(** ** A subscription from the endpoint to the monitor *)

(** X28.  After [POST /subscriptions] answered 200, the monitor selects
    the user for a category key and a location exactly when the request
    named both; the subscription selected carries the push subscription
    of the request.  After [DELETE] for the user, the monitor selects the
    user for nothing. *)
Theorem subscriber_is_selected db n1 n2 req db' body :
  Endpoints.create_subscription db n1 n2 req = (db', Endpoints.Http200 body) ->
  (forall mapped_category location_name,
      (exists row,
          In row (select_interested mapped_category location_name
                                    (Database.subscriptions db'))
          /\ Database.user_id row = Endpoints.user_id req)
      <-> In mapped_category (Endpoints.categories req)
          /\ In location_name (Endpoints.locations req))
  /\ (forall mapped_category location_name row,
         In row (select_interested mapped_category location_name
                                   (Database.subscriptions db')) ->
         Database.user_id row = Endpoints.user_id req ->
         Endpoints.push_subscription req
         = Some (Database.push_subscription row))
  /\ (forall mapped_category location_name row,
         In row (select_interested mapped_category location_name
                   (Database.subscriptions
                      (fst (Endpoints.delete_subscription
                              db' (Endpoints.user_id req))))) ->
         Database.user_id row <> Endpoints.user_id req).
Proof.
  intros Hcreate.
  destruct (create_subscription_cases db n1 n2 req)
    as [(Hv & db1 & row & Hsave & Hc)|(_ & status_code & detail & Hc & _)];
    rewrite Hc in Hcreate; [|discriminate].
  injection Hcreate as <- _.
  destruct (save_subscription_ok _ _ _ _ _ _ _ _ _ _ Hsave)
    as (push & Hp & _ & Hrow & ->).
  repeat (rewrite andb_true_iff in Hv).
  destruct Hv as ((((_ & _) & Hpush) & _) & _).
  rewrite Hp in Hpush. simpl in Hpush. apply negb_true_iff in Hpush.
  cbn [Database.subscriptions].
  assert (Hmine : forall r,
             In r (filter (fun s => negb (Db.has_user (Endpoints.user_id req) s))
                          (Database.subscriptions db) ++ [row]) ->
             Database.user_id r = Endpoints.user_id req -> r = row).
  { intros r Hin Hu. apply in_app_iff in Hin. destruct Hin as [Hin|[<-|[]]];
      [|reflexivity].
    apply filter_In in Hin. destruct Hin as (_ & Hn). unfold Db.has_user in Hn.
    rewrite Hu, String.eqb_refl in Hn. discriminate. }
  split; [|split].
  - intros k l. rewrite select_interested_filter. split.
    + intros (r & Hin & Hu). apply filter_In in Hin. destruct Hin as (Hin & Hm).
      rewrite (Hmine r Hin Hu) in Hm. unfold matches in Hm.
      rewrite Hrow in Hm. simpl in Hm. rewrite Hpush in Hm. simpl in Hm.
      apply andb_true_iff in Hm. rewrite !list_in_In in Hm. exact Hm.
    + intros (Hk & Hl). exists row. split; [|rewrite Hrow; reflexivity].
      apply filter_In. split; [apply in_app_iff; right; left; reflexivity|].
      unfold matches. rewrite Hrow. simpl. rewrite Hpush. simpl.
      apply andb_true_iff. rewrite !list_in_In. split; assumption.
  - intros k l r Hin Hu. rewrite select_interested_filter in Hin.
    apply filter_In in Hin. destruct Hin as (Hin & _).
    rewrite (Hmine r Hin Hu), Hp, Hrow. reflexivity.
  - intros k l r Hin Hu. rewrite select_interested_filter in Hin.
    apply filter_In in Hin. destruct Hin as (Hin & _).
    unfold Endpoints.delete_subscription, Db.delete_subscription in Hin.
    match type of Hin with
    | context [if ?b then _ else _] => destruct b
    end; cbn [fst Database.subscriptions] in Hin;
      apply filter_In in Hin; destruct Hin as (_ & Hn);
      unfold Db.has_user in Hn; rewrite Hu, String.eqb_refl in Hn;
      discriminate.
Qed.

Lemma subscriber_is_selected_witness :
  (forall mapped_category location_name,
      (exists row,
          In row (select_interested mapped_category location_name
                                    (Database.subscriptions (fst subscribed)))
          /\ Database.user_id row = Endpoints.user_id example_request)
      <-> In mapped_category (Endpoints.categories example_request)
          /\ In location_name (Endpoints.locations example_request))
  /\ (forall mapped_category location_name row,
         In row (select_interested mapped_category location_name
                                   (Database.subscriptions (fst subscribed))) ->
         Database.user_id row = Endpoints.user_id example_request ->
         Endpoints.push_subscription example_request
         = Some (Database.push_subscription row))
  /\ (forall mapped_category location_name row,
         In row (select_interested mapped_category location_name
                   (Database.subscriptions
                      (fst (Endpoints.delete_subscription
                              (fst subscribed)
                              (Endpoints.user_id example_request))))) ->
         Database.user_id row <> Endpoints.user_id example_request).
Proof.
  eapply (subscriber_is_selected two_subscribers purge_time purge_time
            example_request (fst subscribed)).
  vm_compute. reflexivity.
Defined.

(** ** How many messages a cycle can send *)

Lemma at_most_try_finally {A} p n1 n2 (m : M A) c :
  at_most p n1 m -> at_most p n2 c -> at_most p (n1 + n2) (try_finally m c).
Proof.
  intros Hm Hc t. unfold try_finally. destruct (Hm t) as (new1 & E1 & C1).
  destruct (m t) as [[a|e] t1]; simpl in E1; subst t1;
    destruct (Hc (new1 ++ t)) as (new2 & E2 & C2);
    destruct (c (new1 ++ t)) as [[u|e'] t2]; simpl in E2; subst t2;
    exists (new2 ++ new1); rewrite app_assoc, count_events_app;
    (split; [reflexivity|lia]).
Qed.

Lemma at_most_raise {A} p n e : at_most p n (@raise A e).
Proof.
  apply (at_most_more p 0); [|lia]. apply at_most_silent, silent_raise.
Qed.

Lemma webpush_beyond_calendar ev :
  is_webpush ev = true -> beyond_calendar ev = true.
Proof.
  unfold beyond_calendar. intros ->. rewrite orb_true_r. reflexivity.
Qed.

Lemma send_to_all_pushes E cfg interested title body : forall sent_count,
  at_most is_webpush (length interested)
          (send_to_all E cfg interested title body sent_count).
Proof.
  induction interested as [|sub rest IH]; intros sent_count; simpl.
  - apply at_most_ret.
  - apply (at_most_bind is_webpush 1 (length rest)); [|intros ok; apply IH].
    apply (at_most_try_except is_webpush 1 0);
      [|intros e; apply at_most_ret].
    unfold send_push. apply (at_most_try_except is_webpush 1 0);
      [|intros e; apply at_most_ret].
    destruct (json_endpoint E (Database.push_subscription sub))
      as [endpoint|e]; [|apply at_most_raise].
    destruct (String.eqb endpoint ""); [apply at_most_ret|].
    destruct (send_push_audience E endpoint) as [aud|e];
      [|apply at_most_raise].
    apply (at_most_bind is_webpush 1 0); [apply at_most_call|].
    intros _. apply at_most_ret.
Qed.

Lemma send_notification_pushes E cfg db category location_name total_slots :
  at_most is_webpush (length (Database.subscriptions db))
          (send_notification E cfg db category location_name total_slots).
Proof.
  unfold send_notification, load_subscriptions, Database.get_all_subscriptions.
  destruct total_slots; [apply at_most_ret|].
  destruct (Database.subscriptions db) as [|s subs] eqn:Hsubs;
    [apply at_most_ret|].
  destruct (Py.dict_get (Config.category_map cfg) category) as [mapped|];
    [|apply at_most_ret].
  destruct (String.eqb mapped ""); [apply at_most_ret|].
  pose proof (filter_length_le (matches mapped location_name) (s :: subs))
    as Hle.
  rewrite <- select_interested_filter in Hle.
  destruct (select_interested mapped location_name (s :: subs))
    as [|i interested] eqn:Hi; [apply at_most_ret|].
  eapply at_most_more; [apply send_to_all_pushes|exact Hle].
Qed.

Lemma process_location_pushes E cfg db category location slots_data :
  at_most is_webpush (length (Database.subscriptions db))
          (process_location E cfg db category location slots_data).
Proof.
  unfold process_location.
  eapply at_most_more;
    [apply (at_most_try_finally is_webpush
              (length (Database.subscriptions db)) 0)|lia].
  - apply (at_most_bind is_webpush 0 (length (Database.subscriptions db))).
    + apply at_most_silent.
      apply (silent_weaken beyond_calendar);
        [exact webpush_beyond_calendar|apply silent_slots_or_empty].
    + intros total_slots.
      eapply at_most_more;
        [apply (at_most_bind is_webpush
                  (length (Database.subscriptions db)) 0)|lia].
      * apply send_notification_pushes.
      * intros _. apply at_most_ret.
  - apply at_most_silent. unfold go_back. apply silent_try_except.
    + apply silent_bind; [apply silent_call; reflexivity|].
      intros _. apply silent_call. reflexivity.
    + intros e. destruct e; apply silent_raise.
Qed.

Lemma scan_locations_pushes E cfg db category locs :
  forall visited slots_data,
  at_most is_webpush (length locs * length (Database.subscriptions db))
          (scan_locations E cfg db category locs visited slots_data).
Proof.
  induction locs as [|location rest IH]; intros visited slots_data;
    cbn [scan_locations length].
  - apply at_most_ret.
  - destruct (Py.list_in location visited).
    { eapply at_most_more; [apply IH|lia]. }
    eapply at_most_more;
      [apply (at_most_bind is_webpush 0
                (length (Database.subscriptions db)
                 + length rest * length (Database.subscriptions db)))|lia].
    + apply at_most_silent, silent_call. reflexivity.
    + intros present. destruct (present =? 0)%Z.
      { eapply at_most_more; [apply IH|lia]. }
      apply at_most_bind; [apply process_location_pushes|].
      intros slots_data'. apply IH.
Qed.

Lemma check_locations_pushes E cfg db category :
  at_most is_webpush
          (length (Config.locations cfg) * length (Database.subscriptions db))
          (check_locations E cfg db category).
Proof.
  unfold check_locations.
  eapply at_most_more;
    [apply (at_most_bind is_webpush
              (length (Config.locations cfg)
               * length (Database.subscriptions db)) 0)|lia].
  - apply scan_locations_pushes.
  - intros slots_data. apply at_most_silent. apply silent_bind.
    + apply silent_now.
    + intros ts. apply silent_ret.
Qed.
Lemma apart_webpush cl : apart_from_safe_click is_webpush cl.
Proof. repeat split. Qed.

Lemma silent_go_back p E expected_text :
  (forall r, p (EvGoBack r) = false) ->
  (forall l s tmo r, p (EvWaitFor l s tmo r) = false) ->
  silent p (go_back E expected_text).
Proof.
  intros Hb Hw. unfold go_back. apply silent_try_except.
  - apply silent_bind; [apply silent_call; exact Hb|].
    intros _. apply silent_call. intros r. apply Hw.
  - intros e. destruct e; apply silent_raise.
Qed.

Lemma silent_enter_category_selection E cfg :
  silent is_webpush (enter_category_selection E cfg).
Proof.
  unfold enter_category_selection, open_main_page. apply silent_bind.
  - apply silent_try_except.
    + apply silent_bind; [apply silent_call; reflexivity|].
      intros _. apply silent_call. reflexivity.
    + intros e. apply silent_raise.
  - intros _. apply silent_bind;
      [apply silent_safe_click, apart_webpush|].
    intros _. apply silent_ret.
Qed.

Lemma try_category_pushes E cfg db category :
  at_most is_webpush
          (length (Config.locations cfg) * length (Database.subscriptions db))
          (try_category E cfg db category).
Proof.
  unfold try_category.
  eapply at_most_more;
    [apply (at_most_try_except is_webpush
              (length (Config.locations cfg)
               * length (Database.subscriptions db)) 0)|lia].
  - eapply at_most_more;
      [apply (at_most_bind is_webpush 0
                (length (Config.locations cfg)
                 * length (Database.subscriptions db)))|lia].
    + apply at_most_silent, silent_safe_click, apart_webpush.
    + intros _.
      eapply at_most_more;
        [apply (at_most_bind is_webpush
                  (length (Config.locations cfg)
                   * length (Database.subscriptions db)) 0)|lia].
      * apply check_locations_pushes.
      * intros db1. apply at_most_silent. apply silent_try_except.
        -- apply silent_bind; [apply silent_go_back; reflexivity|].
           intros _. apply silent_ret.
        -- intros e. apply silent_ret.
  - intros e. apply at_most_ret.
Qed.

Lemma scan_categories_pushes E cfg cats : forall db t,
  exists new,
    snd (scan_categories E cfg db cats t) = new ++ t
    /\ (count_events is_webpush new
        <= length cats
           * (length (Config.locations cfg)
              * length (Database.subscriptions db)))%nat.
Proof.
  induction cats as [|category rest IH]; intros db t;
    cbn [scan_categories length].
  - exists []. split; [reflexivity|]. unfold count_events. simpl. lia.
  - unfold bind at 1.
    pose proof (try_category_kept E cfg db category t) as Hk.
    destruct (try_category_pushes E cfg db category t) as (new1 & E1 & C1).
    destruct (try_category E cfg db category t) as [[[db1 ok]|e] t1];
      simpl in Hk, E1; subst t1; [|contradiction].
    destruct Hk as (Hsubs & _). cbn [fst snd].
    assert (Hrest : forall t2 new2,
               t2 = new2 ++ new1 ++ t ->
               count_events is_webpush new2 = 0%nat ->
               exists new,
                 snd (scan_categories E cfg db1 rest t2) = new ++ t
                 /\ (count_events is_webpush new
                     <= S (length rest)
                        * (length (Config.locations cfg)
                           * length (Database.subscriptions db)))%nat).
    { intros t2 new2 -> C2. destruct (IH db1 (new2 ++ new1 ++ t))
        as (new3 & E3 & C3).
      exists (new3 ++ new2 ++ new1). rewrite E3, <- !app_assoc.
      split; [reflexivity|]. rewrite !count_events_app, C2.
      rewrite Hsubs in C3. simpl. lia. }
    destruct ok; [apply (Hrest _ []); reflexivity|].
    unfold bind at 1.
    destruct (silent_take_screenshot is_webpush E cfg eq_refl
                (fun _ => eq_refl) (fun _ => eq_refl) (new1 ++ t))
      as (new2 & E2 & C2).
    destruct (take_screenshot E cfg (new1 ++ t)) as [[u|e] t2];
      simpl in E2; subst t2.
    + unfold bind at 1.
      destruct (silent_enter_category_selection E cfg (new2 ++ new1 ++ t))
        as (new3 & E3 & C3).
      destruct (enter_category_selection E cfg (new2 ++ new1 ++ t))
        as [[u3|e] t3]; simpl in E3; subst t3.
      * apply (Hrest _ (new3 ++ new2)); [rewrite <- app_assoc; reflexivity|].
        rewrite count_events_app. lia.
      * exists (new3 ++ new2 ++ new1). rewrite <- !app_assoc.
        split; [reflexivity|]. rewrite !count_events_app. simpl. lia.
    + exists (new2 ++ new1). rewrite <- app_assoc. split; [reflexivity|].
      rewrite count_events_app. simpl. lia.
Qed.

(** X29.  One cycle hands at most one message per category, location and
    stored subscription to the push gateway, whatever the site shows and
    however the cycle ends. *)
Theorem cycle_push_bound E cfg db t :
  exists new,
    snd (run_cycle E cfg db t) = new ++ t
    /\ (count_events is_webpush new
        <= length (Config.categories cfg)
           * (length (Config.locations cfg)
              * length (Database.subscriptions db)))%nat.
Proof.
  unfold run_cycle, bind at 1, now, check_category.
  set (db1 := fst (remove_old_subscriptions cfg db (env_now E t))).
  assert (Hle : (length (Database.subscriptions db1)
                 <= length (Database.subscriptions db))%nat).
  { unfold db1, remove_old_subscriptions, Database.remove_old_subscriptions.
    destruct (Datetime.sub_hours (env_now E t)
                (Config.max_subscription_age_hours cfg)); [|simpl; lia].
    simpl. apply filter_length_le. }
  unfold bind at 1.
  destruct (silent_enter_category_selection E cfg t) as (new1 & E1 & C1).
  destruct (enter_category_selection E cfg t) as [[u|e] t1];
    simpl in E1; subst t1.
  - destruct (scan_categories_pushes E cfg (Config.categories cfg) db1
                (new1 ++ t)) as (new2 & E2 & C2).
    exists (new2 ++ new1). rewrite E2, app_assoc. split; [reflexivity|].
    rewrite count_events_app.
    assert (length (Config.categories cfg)
            * (length (Config.locations cfg)
               * length (Database.subscriptions db1))
            <= length (Config.categories cfg)
               * (length (Config.locations cfg)
                  * length (Database.subscriptions db)))%nat.
    { apply Nat.mul_le_mono_l, Nat.mul_le_mono_l. exact Hle. }
    lia.
  - exists new1. split; [reflexivity|]. lia.
Qed.

(** ** Repeated scans across cycles *)









